(** * Sensor node firmware: acquisition and transport pipeline

    A shallow embedding of the ESP32 sketch of the ground node: the SDS011
    frame decoder [readSDS], the gas-to-VOC mapping [gasToVoc], the Geiger
    pulse counter, the WiFi / time bootstrap, the telemetry transport
    [postReading], the control [loop] and the I2C bus scan.

    Conventions.
    - [uint8_t] / [uint16_t] / [uint32_t] values are [Z] with the wrap-around
      written out; serial bytes are [Byte.byte].
    - C [float] values are idealised: exact rationals [Q] for the sensor
      samples, real numbers [R] where [log10] is needed.
    - C++ reference parameters ([float &pm25]) are passed in and returned.
    - The environment (radio link, HTTP server, clocks, sensors) is a record
      of oracles; unbounded retry loops take a fuel argument and return
      [None] when it runs out.
    - The system clock runs on while the sketch is blocked in a [delay], a
      reachability check or an HTTP exchange, by as many seconds as the
      environment says; [long] has 32 bits. *)

From Stdlib Require Import Reals Lra Qreals.
From Stdlib Require Import ZArith NArith QArith List Bool String Ascii Lia.
From Stdlib Require Import Init.Byte.
Import ListNotations.

Local Open Scope Z_scope.

(** ** Machine integers *)

Definition wrap8 (z : Z) : Z := z mod 256.
Definition wrap16 (z : Z) : Z := z mod 65536.
Definition wrap32 (z : Z) : Z := z mod 4294967296.

(** [static_cast<long>(z)] on the ESP32, whose [long] has 32 bits: the
    value is taken modulo [2^32] into the range from [-2^31] to [2^31 - 1]. *)
Definition to_long (z : Z) : Z := (z + 2147483648) mod 4294967296 - 2147483648.

(** The value of a serial byte as a [uint8_t]. *)
Definition u8 (b : byte) : Z := Z.of_N (Byte.to_N b).


Arguments u8 : simpl never.

(** ** Particulate frame decoder (SDS011) *)

Module SDS.

Definition SDS_FRAME_LEN : Z := 10.
Definition SDS_HEADER1 : Z := 0xAA.
Definition SDS_HEADER2 : Z := 0xC0.
Definition SDS_TAIL : Z := 0xAB.

(** [buf[i]] for the nine bytes read after the header; [buf[0]] is the
    header itself.  [body] holds [buf[1..9]]. *)
Definition buf_at (body : list byte) (i : nat) : Z :=
  match i with
  | O => SDS_HEADER1
  | S j => u8 (nth j body Byte.x00)
  end.

(** [for (int i = 2; i < 8; i++) checksum += buf[i];] on a [uint8_t]. *)
Definition frame_checksum (body : list byte) : Z :=
  fold_left (fun acc i => wrap8 (acc + buf_at body i)) [2; 3; 4; 5; 6; 7]%nat 0.

(** [uint16_t raw = (buf[lo] | (buf[hi] << 8));] *)
Definition raw16 (body : list byte) (lo hi : nat) : Z :=
  wrap16 (Z.lor (buf_at body lo) (Z.shiftl (buf_at body hi) 8)).

(** [sdsSerial.readBytes(buf + 1, 9)]: the bytes obtained and what is left
    on the line.  Fewer than nine are returned when the line runs dry. *)
Definition readBytes (n : nat) (rx : list byte) : list byte * list byte :=
  (firstn n rx, skipn n rx).

(** Result of [readSDS]: the returned flag, the two reference parameters
    after the call, and the bytes left unread. *)
Record sds_result := mkSds {
  sds_ok : bool;
  sds_pm25 : Q;
  sds_pm10 : Q;
  sds_rest : list byte
}.

(** [readSDS].  [window] is the number of times the loop condition
    [millis() - start < SDS_READ_WINDOW_MS] holds before the read window
    closes; [rx] is the byte stream the sensor delivers during the window
    ([available()] is false exactly when it is exhausted). *)
Fixpoint readSDS (window : nat) (rx : list byte) (pm25 pm10 : Q) : sds_result :=
  match window with
  | O => mkSds false pm25 pm10 rx
  | S window' =>
      match rx with
      | [] => (* delay(2); continue; *)
          readSDS window' [] pm25 pm10
      | first :: rx1 =>
          if negb (u8 first =? SDS_HEADER1) then readSDS window' rx1 pm25 pm10
          else
            let '(body, rx2) := readBytes 9 rx1 in
            if negb (Z.of_nat (List.length body) =? SDS_FRAME_LEN - 1)
            then readSDS window' rx2 pm25 pm10
            else if negb (buf_at body 1 =? SDS_HEADER2)
                    || negb (buf_at body 9 =? SDS_TAIL)
            then readSDS window' rx2 pm25 pm10
            else if negb (frame_checksum body =? buf_at body 8)
            then readSDS window' rx2 pm25 pm10
            else
              let pm25Raw := raw16 body 2 3 in
              let pm10Raw := raw16 body 4 5 in
              mkSds true (inject_Z pm25Raw / 10) (inject_Z pm10Raw / 10) rx2
      end
  end.

(** *** The wire format, in the words of the protocol description *)

(** A well-formed frame: ten bytes, header [0xAA], secondary header [0xC0],
    six payload bytes, checksum (low 8 bits of the payload sum), tail [0xAB]. *)
Definition well_formed_frame (f : list byte) : bool :=
  match f with
  | [h1; h2; d1; d2; d3; d4; d5; d6; cs; tl] =>
      (u8 h1 =? 0xAA) && (u8 h2 =? 0xC0) && (u8 tl =? 0xAB)
      && (u8 cs =? (u8 d1 + u8 d2 + u8 d3 + u8 d4 + u8 d5 + u8 d6) mod 256)
  | _ => false
  end.

(** Some ten consecutive bytes of [l] form a well-formed frame. *)
Fixpoint contains_frame (l : list byte) : bool :=
  match l with
  | [] => false
  | _ :: t => well_formed_frame (firstn 10 l) || contains_frame t
  end.

(** The last [n] elements of a list. *)
Definition lastn {A} (n : nat) (l : list A) : list A :=
  skipn (List.length l - n) l.

(** No header byte among the last nine bytes of [l]. *)
Definition clean_tail (l : list byte) : bool :=
  forallb (fun b => negb (u8 b =? SDS_HEADER1)) (lastn 9 l).

(** Little-endian 16-bit value. *)
Definition le16 (lo hi : byte) : Z := u8 lo + 256 * u8 hi.

Definition frame_pm25 (f : list byte) : Q :=
  inject_Z (le16 (nth 2 f Byte.x00) (nth 3 f Byte.x00)) / 10.
Definition frame_pm10 (f : list byte) : Q :=
  inject_Z (le16 (nth 4 f Byte.x00) (nth 5 f Byte.x00)) / 10.

(** What the decoder checks on the nine bytes that follow a header. *)
Definition body_valid (body : list byte) : bool :=
  (buf_at body 1 =? SDS_HEADER2) && (buf_at body 9 =? SDS_TAIL)
  && (frame_checksum body =? buf_at body 8).

End SDS.


(** Sample frames. *)

Module SDSDemo.
Import Byte.

(** A sample stream: the frame for PM2.5 = 12.3, PM10 = 20.0. *)
Definition sample_frame : list byte :=
  [xaa; xc0; x7b; x00; xc8; x00; x01; x02; x46; xab].

(** The frame [sample_frame] with its checksum byte corrupted. *)
Definition corrupt_frame : list byte :=
  [xaa; xc0; x7b; x00; xc8; x00; x01; x02; x47; xab].

End SDSDemo.

(** ** Gas resistance to pseudo-VOC *)

Module Voc.

Local Open Scope R_scope.

(** [log10] of the C library. *)
Definition log10 (x : R) : R := ln x / ln 10.

(** [gasToVoc]. *)
Definition gasToVoc (gasOhms : R) : R :=
  if Rle_dec gasOhms 0 then 150
  else
    let logVal := log10 gasOhms in
    let voc := 50 + logVal * 80 in
    let voc := if Rlt_dec voc 50 then 50 else voc in
    let voc := if Rgt_dec voc 800 then 800 else voc in
    voc.

(** [clamp(x, lo, hi)] in the words of the design. *)
Definition clamp (x lo hi : R) : R := Rmin (Rmax x lo) hi.

End Voc.

(** ** Pulse counter *)

Module Geiger.

(** The body of the interrupt handler [onGeigerPulse], between
    [portENTER_CRITICAL_ISR] and [portEXIT_CRITICAL_ISR]: [geigerPulses++]
    on a [volatile uint32_t]. *)
Definition onGeigerPulse (geigerPulses : Z) : Z := wrap32 (geigerPulses + 1).

(** The critical section of [loop] at window close:
    [pulses = geigerPulses; geigerPulses = 0;].  Returns the local [pulses]
    and the new [geigerPulses]. *)
Definition read_and_reset (geigerPulses : Z) : Z * Z := (geigerPulses, 0).

(** The two kinds of step on the shared counter; the mutex makes each one
    atomic. *)
Inductive step := Edge | Close.

(** Runs a schedule of steps from counter value [c]; returns the values the
    window-close reads observed, in order, and the final counter. *)
Fixpoint run_schedule (s : list step) (c : Z) : list Z * Z :=
  match s with
  | [] => ([], c)
  | Edge :: s' => run_schedule s' (onGeigerPulse c)
  | Close :: s' =>
      let '(pulses, c') := read_and_reset c in
      let '(reads, cf) := run_schedule s' c' in
      (pulses :: reads, cf)
  end.

(** The number of edges in a schedule. *)
Fixpoint count_edges (s : list step) : Z :=
  match s with
  | [] => 0
  | Edge :: s' => 1 + count_edges s'
  | Close :: s' => count_edges s'
  end.

(** [n] consecutive runs of the interrupt handler. *)
Definition edges (n : N) (c : Z) : Z := N.iter n onGeigerPulse c.

(** *** The two contexts, instruction by instruction

    The handler and the window close of [loop] as interleaved instruction
    streams that share [geigerPulses] and the mutex [geigerMux].
    [portENTER_CRITICAL] takes the mutex when it is free and spins
    otherwise; [geigerPulses++] is a load followed by a store. *)

Inductive owner := Free | ByHandler | ByLoop.

(** Where the interrupt handler stands. *)
Inductive handler_pc :=
| HIdle                 (* not running, or spinning in portENTER_CRITICAL_ISR *)
| HEntered              (* holds the mutex *)
| HLoaded (tmp : Z)     (* has loaded geigerPulses *)
| HStored.              (* has stored geigerPulses, before portEXIT_CRITICAL_ISR *)

(** Where the window close of [loop] stands. *)
Inductive close_pc :=
| CBefore               (* before portENTER_CRITICAL, or spinning in it *)
| CEntered              (* holds the mutex *)
| CRead                 (* pulses = geigerPulses done *)
| CCleared              (* geigerPulses = 0 done *)
| CDone.                (* after portEXIT_CRITICAL *)

Record machine := mkMachine {
  counter : Z;          (* geigerPulses *)
  mux : owner;          (* geigerMux *)
  hpc : handler_pc;
  cpc : close_pc;
  pulses : Z;           (* the local of loop *)
  handled : Z;          (* history: increments stored so far *)
  seen : Z              (* history: [handled] at the time of the read *)
}.

Inductive agent := Handler | Main.

(** One instruction of [a].  With [guarded = false] the critical-section
    macros are taken away, for comparison. *)
Definition instr (guarded : bool) (a : agent) (m : machine) : machine :=
  match a with
  | Handler =>
      match hpc m with
      | HIdle =>
          if guarded then
            match mux m with
            | Free => mkMachine (counter m) ByHandler HEntered (cpc m)
                                (pulses m) (handled m) (seen m)
            | _ => m
            end
          else mkMachine (counter m) (mux m) HEntered (cpc m)
                         (pulses m) (handled m) (seen m)
      | HEntered =>
          mkMachine (counter m) (mux m) (HLoaded (counter m)) (cpc m)
                    (pulses m) (handled m) (seen m)
      | HLoaded tmp =>
          mkMachine (wrap32 (tmp + 1)) (mux m) HStored (cpc m)
                    (pulses m) (handled m + 1) (seen m)
      | HStored =>
          mkMachine (counter m)
                    (match mux m with ByHandler => Free | o => o end)
                    HIdle (cpc m) (pulses m) (handled m) (seen m)
      end
  | Main =>
      match cpc m with
      | CBefore =>
          if guarded then
            match mux m with
            | Free => mkMachine (counter m) ByLoop (hpc m) CEntered
                                (pulses m) (handled m) (seen m)
            | _ => m
            end
          else mkMachine (counter m) (mux m) (hpc m) CEntered
                         (pulses m) (handled m) (seen m)
      | CEntered =>
          mkMachine (counter m) (mux m) (hpc m) CRead
                    (counter m) (handled m) (handled m)
      | CRead =>
          mkMachine 0 (mux m) (hpc m) CCleared
                    (pulses m) (handled m) (seen m)
      | CCleared =>
          mkMachine (counter m)
                    (match mux m with ByLoop => Free | o => o end)
                    (hpc m) CDone (pulses m) (handled m) (seen m)
      | CDone => m
      end
  end.

(** Runs the instructions in the order [sched] gives the agents. *)
Definition interleave (guarded : bool) (sched : list agent) (m : machine) : machine :=
  fold_left (fun m a => instr guarded a m) sched m.

(** One uninterrupted run of the handler, and of the window close. *)
Definition handler_run : list agent := [Handler; Handler; Handler; Handler].
Definition close_run : list agent := [Main; Main; Main; Main].

(** A freshly reset counter, nobody in a critical section. *)
Definition machine0 : machine := mkMachine 0 Free HIdle CBefore 0 0 0.

(** What holds of every reachable state of the guarded machine: the mutex
    is held by whoever is inside a critical section (so never by both); the
    handler's loaded value is current; before the read the counter holds all
    increments so far; the read returns exactly the increments made before
    it; after the clear the counter holds exactly those made since. *)
Definition consistent (m : machine) : Prop :=
  (0 <= handled m /\ 0 <= seen m) /\
  (mux m = ByHandler <-> hpc m <> HIdle) /\
  (mux m = ByLoop <-> (cpc m = CEntered \/ cpc m = CRead \/ cpc m = CCleared)) /\
  (forall tmp, hpc m = HLoaded tmp -> tmp = counter m) /\
  match cpc m with
  | CBefore | CEntered => counter m = wrap32 (handled m)
  | CRead => counter m = wrap32 (handled m) /\ pulses m = counter m
             /\ seen m = handled m
  | CCleared | CDone =>
      pulses m = wrap32 (seen m) /\ counter m = wrap32 (handled m - seen m)
      /\ seen m <= handled m
  end.

End Geiger.

(** ** Network and time bootstrap, telemetry transport *)

Module Net.

(** Build-time configuration ([config.h] and the compiler's [__DATE__] /
    [__TIME__]); its values are not part of the sources at hand. *)
Record Config := mkConfig {
  NODE_ID : string;
  SERVER_URL : string;
  API_KEY : string;
  (** [sscanf(__DATE__, "%3s %d %d", mon, &day, &year)], when it yields 3 *)
  scan_date : option (string * Z * Z);
  (** [sscanf(__TIME__, "%d:%d:%d", &hour, &minute, &second)], when it yields 3 *)
  scan_time : option (Z * Z * Z)
}.

(** [struct tm], the fields the firmware fills in. *)
Record tm := mkTm {
  tm_year : Z; tm_mon : Z; tm_mday : Z;
  tm_hour : Z; tm_min : Z; tm_sec : Z
}.

(** The environment's answers.  Each oracle is indexed by the number of
    earlier calls of the operation it answers. *)
Record Env := mkEnv {
  (** [WiFi.status() == WL_CONNECTED] *)
  link_up : nat -> bool;
  (** [WiFi.hostByName(...)] and [tcp.connect(ip, 443)] *)
  dns_ok : nat -> bool;
  tcp_ok : nat -> bool;
  (** one call of [trySyncTimeNtp]: for each [getLocalTime(&timeinfo, 1000)]
      that fits in its 10 s window, [None] when it timed out and [Some now]
      when it succeeded and [time(nullptr)] then read [now] *)
  ntp_polls : nat -> list (option Z);
  (** the status code [http.POST(body)] returns (negative: transport error) *)
  post_code : nat -> Z;
  (** [HTTPClient::begin(client, host, 443, path, true)]; the library only
      records its arguments, its answer is a function of them *)
  http_begin : string -> string -> bool;
  (** libc [mktime] *)
  mktime : tm -> Z;
  (** The clock runs while the sketch is blocked.  The whole seconds by
      which its reading after a blocking operation exceeds its last reading
      before: for a [delay] that starts when [n] actions have been logged,
      for the [n]-th reachability check (name lookup and TCP probe), and for
      the [n]-th HTTP exchange.  It never runs backwards on its own. *)
  wait_secs : nat -> N;
  lookup_secs : nat -> N;
  post_secs : nat -> N
}.

(** Where a [delay(ms)] stands in the source. *)
Inductive site := PollWait | ReconnectWait | Backoff | SendInterval.

Section Transport.

(** The C [float] values of a reading are only copied into the document. *)
Variable float : Type.

(** The JSON document [doc] that is serialised into the request body. *)
Record Payload := mkPayload {
  device_id : string;
  timestamp : Z;
  radiation_cpm : float;
  pm25 : float;
  air_temp_c : float;
  humidity : float;
  pressure_hpa : float;
  voc : float
}.

(** Observable actions. *)
Inductive event :=
| EvWifiBegin                      (* WiFi.mode(WIFI_STA); WiFi.begin(ssid, pass) *)
| EvStatus (up : bool)             (* WiFi.status() *)
| EvDelay (s : site) (ms : Z)      (* delay(ms) *)
| EvDnsConfig                      (* WiFi.config(..., dns1, dns2) *)
| EvSetTime (epoch : Z)            (* settimeofday *)
| EvPost (apiKey : string) (body : Payload) (code : Z).

Record World := mkWorld {
  rtc : Z;              (* the system clock, as [time(nullptr)] reads it *)
  polls : nat;          (* calls of [WiFi.status()] so far *)
  lookups : nat;        (* calls of [checkInternetReachable] so far *)
  syncs : nat;          (* calls of [trySyncTimeNtp] so far *)
  posts : nat;          (* calls of [http.POST] so far *)
  trace : list event    (* oldest first *)
}.

Variable cfg : Config.
Variable env : Env.

(** State and fuel monad. *)
Definition M (A : Type) : Type := World -> option (A * World).

Definition ret {A} (a : A) : M A := fun w => Some (a, w).

Definition bind {A B} (m : M A) (k : A -> M B) : M B :=
  fun w => match m w with
           | Some (a, w') => k a w'
           | None => None
           end.

Notation "x <- m ;; k" := (bind m (fun x => k))
  (at level 61, m at next level, right associativity).
Notation "m ;; k" := (bind m (fun _ => k))
  (at level 61, right associativity).

Definition emit (e : event) : M unit :=
  fun w => Some (tt, mkWorld (rtc w) (polls w) (lookups w) (syncs w) (posts w)
                       (trace w ++ [e])).

(** [delay(ms)]; the clock runs on meanwhile. *)
Definition delay (s : site) (ms : Z) : M unit :=
  fun w =>
    Some (tt, mkWorld (rtc w + Z.of_N (wait_secs env (List.length (trace w))))
                (polls w) (lookups w) (syncs w) (posts w)
                (trace w ++ [EvDelay s ms])).

Definition wifi_status : M bool :=
  fun w =>
    let up := link_up env (polls w) in
    Some (up, mkWorld (rtc w) (S (polls w)) (lookups w) (syncs w) (posts w)
                (trace w ++ [EvStatus up])).

(** [time(nullptr)]: the clock as it stands.  Between two readings the
    clock moves when it is set ([settimeofday], or the time-sync service as
    seen by a time-sync poll) and while the sketch is blocked in a [delay],
    a reachability check or an HTTP exchange. *)
Definition time_now : M Z := fun w => Some (rtc w, w).

Definition set_clock (t : Z) : M unit :=
  fun w => Some (tt, mkWorld t (polls w) (lookups w) (syncs w) (posts w) (trace w)).

Definition settimeofday (t : Z) : M unit :=
  set_clock t ;; emit (EvSetTime t).

Definition http_POST (body : Payload) : M Z :=
  fun w =>
    let code := post_code env (posts w) in
    Some (code, mkWorld (rtc w + Z.of_N (post_secs env (posts w)))
                  (polls w) (lookups w) (syncs w) (S (posts w))
                  (trace w ++ [EvPost (API_KEY cfg) body code])).

Definition PLAUSIBLE_EPOCH : Z := 1700000000.

(** [strncmp(a, b, 3) == 0] *)
Definition strncmp3 (a b : string) : bool :=
  String.eqb (substring 0 3 a) (substring 0 3 b).

Definition months : list string :=
  ["Jan"; "Feb"; "Mar"; "Apr"; "May"; "Jun";
   "Jul"; "Aug"; "Sep"; "Oct"; "Nov"; "Dec"]%string.

Fixpoint month_scan (mon : string) (i : Z) (ms : list string) : Z :=
  match ms with
  | [] => -1
  | m :: ms' => if strncmp3 mon m then i else month_scan mon (i + 1) ms'
  end.

Definition monthFromString (mon : string) : Z := month_scan mon 0 months.

(** The epoch [bootstrapTimeIfNeeded] derives from the build stamp, when the
    stamp parses. *)
Definition compile_time : option Z :=
  match scan_date cfg with
  | None => None
  | Some (mon, day, year) =>
      match scan_time cfg with
      | None => None
      | Some (hour, minute, second) =>
          let month := monthFromString mon in
          if month <? 0 then None
          else Some (mktime env (mkTm (year - 1900) month day hour minute second))
      end
  end.

Definition bootstrapTimeIfNeeded : M bool :=
  now <- time_now ;;
  if now >=? PLAUSIBLE_EPOCH then ret true
  else
    match compile_time with
    | None => ret false
    | Some compileTime =>
        if compileTime <? PLAUSIBLE_EPOCH then ret false
        else settimeofday compileTime ;; ret true
    end.

(** The polling loop of [trySyncTimeNtp] over the polls of one window. *)
Fixpoint ntp_wait (window : list (option Z)) : M bool :=
  match window with
  | [] => ret false
  | None :: rest => ntp_wait rest
  | Some now :: rest =>
      set_clock now ;;
      if now >=? PLAUSIBLE_EPOCH then ret true else ntp_wait rest
  end.

Definition trySyncTimeNtp : M bool :=
  fun w =>
    ntp_wait (ntp_polls env (syncs w))
      (mkWorld (rtc w) (polls w) (lookups w) (S (syncs w)) (posts w) (trace w)).

Definition ensureTimeSynced : M bool :=
  now <- time_now ;;
  if now >=? PLAUSIBLE_EPOCH then ret true
  else
    ok <- bootstrapTimeIfNeeded ;;
    if ok then ret true else trySyncTimeNtp.

(** The [while (WiFi.status() != WL_CONNECTED && retries < 40)] loop;
    [left] is [40 - retries]. *)
Fixpoint poll_link (left : nat) : M unit :=
  up <- wifi_status ;;
  match left with
  | S left' => if negb up then delay PollWait 250 ;; poll_link left' else ret tt
  | O => ret tt
  end.

(** [connectWiFi]; each unit of [fuel] pays for one round of the recursion. *)
Fixpoint connectWiFi (fuel : nat) : M unit :=
  match fuel with
  | O => fun _ => None
  | S fuel' =>
      emit EvWifiBegin ;;
      poll_link 40 ;;
      up <- wifi_status ;;
      if up then
        emit EvDnsConfig ;;
        bootstrapTimeIfNeeded ;;
        trySyncTimeNtp ;;
        ret tt
      else
        delay ReconnectWait 3000 ;;
        connectWiFi fuel'
  end.

(** One round of [connectWiFi], up to its test of the link. *)
Definition link_round : M bool :=
  emit EvWifiBegin ;;
  poll_link 40 ;;
  wifi_status.

(** What [connectWiFi] does once the link is up. *)
Definition link_established : M unit :=
  emit EvDnsConfig ;;
  bootstrapTimeIfNeeded ;;
  trySyncTimeNtp ;;
  ret tt.

Definition checkInternetReachable : M bool :=
  fun w =>
    let n := lookups w in
    let w' := mkWorld (rtc w + Z.of_N (lookup_secs env n))
                      (polls w) (S n) (syncs w) (posts w) (trace w) in
    if dns_ok env n then
      if negb (tcp_ok env n) then Some (false, w') else Some (true, w')
    else Some (false, w').

(** [String::indexOf(pat, from)] *)
Definition indexOf (pat s : string) (from : Z) : Z :=
  match String.index (Z.to_nat from) pat s with
  | Some i => Z.of_nat i
  | None => -1
  end.

(** [String::substring(from)] and [String::substring(from, to)] *)
Definition substring_from (s : string) (from : Z) : string :=
  substring (Z.to_nat from) (String.length s - Z.to_nat from) s.
Definition substring_range (s : string) (from to : Z) : string :=
  substring (Z.to_nat from) (Z.to_nat to - Z.to_nat from) s.

Definition beginHttps : bool :=
  let url := SERVER_URL cfg in
  let schemePos := indexOf "://" url 0 in
  let hostStart := if schemePos >=? 0 then schemePos + 3 else 0 in
  let pathStart := indexOf "/" url hostStart in
  let host := if pathStart >=? 0 then substring_range url hostStart pathStart
              else substring_from url hostStart in
  let path := if pathStart >=? 0 then substring_from url pathStart else "/"%string in
  if (String.length host =? 0)%nat then false
  else http_begin env host path.

(** [if (WiFi.status() != WL_CONNECTED) connectWiFi();] *)
Definition reconnect_if_down (fuel : nat) : M unit :=
  up <- wifi_status ;;
  if negb up then connectWiFi fuel else ret tt.

Definition maxAttempts : Z := 4.

(** The [for (attempt = 1; attempt <= maxAttempts; attempt++)] loop of
    [postReading]; [left] is [maxAttempts - attempt + 1]. *)
Fixpoint post_attempts (fuel : nat) (body : Payload)
    (left : nat) (attempt backoffMs : Z) : M bool :=
  match left with
  | O => ret false
  | S left' =>
      reconnect_if_down fuel ;;
      if negb beginHttps then ret false
      else
        code <- http_POST body ;;
        if (code >=? 200) && (code <? 300) then ret true
        else if attempt <? maxAttempts then
          delay Backoff backoffMs ;;
          post_attempts fuel body left' (attempt + 1) (Z.min (backoffMs * 2) 8000)
        else
          post_attempts fuel body left' (attempt + 1) backoffMs
  end.

Definition postReading (fuel : nat)
    (radiation pm25 tempC hum press voc : float) : M bool :=
  reconnect_if_down fuel ;;
  timeOk <- ensureTimeSynced ;;
  reachable <- checkInternetReachable ;;
  if negb reachable then ret false
  else if negb timeOk then ret false
  else
    now <- time_now ;;
    let body :=
      mkPayload (NODE_ID cfg) (if timeOk then to_long now else 0)
                radiation pm25 tempC hum press voc in
    post_attempts fuel body (Z.to_nat maxAttempts) 1 1000.

End Transport.

Arguments mkWorld {float}.
Arguments mkPayload {float}.
Arguments EvWifiBegin {float}.
Arguments EvStatus {float}.
Arguments EvDelay {float}.
Arguments EvDnsConfig {float}.
Arguments EvSetTime {float}.
Arguments EvPost {float}.
Arguments rtc {float}.
Arguments polls {float}.
Arguments lookups {float}.
Arguments syncs {float}.
Arguments posts {float}.
Arguments trace {float}.
Arguments device_id {float}.
Arguments timestamp {float}.
Arguments radiation_cpm {float}.
Arguments pm25 {float}.
Arguments air_temp_c {float}.
Arguments humidity {float}.
Arguments pressure_hpa {float}.
Arguments voc {float}.

End Net.

(** ** What a run lets one observe *)

Module NetObs.
Import Net.

Section Observations.

Variable float : Type.

(** [code >= 200 && code < 300] *)
Definition is_2xx (code : Z) : bool := (code >=? 200) && (code <? 300).

(** The status codes of the POSTs among [evs], in order. *)
Definition post_codes (evs : list (event float)) : list Z :=
  flat_map (fun e => match e with EvPost _ _ c => [c] | _ => [] end) evs.

(** The request bodies of the POSTs among [evs], in order. *)
Definition post_bodies (evs : list (event float)) : list (Payload float) :=
  flat_map (fun e => match e with EvPost _ b _ => [b] | _ => [] end) evs.

(** The lengths of the [delay]s standing at [s] among [evs], in order. *)
Definition site_eqb (a b : site) : bool :=
  match a, b with
  | PollWait, PollWait | ReconnectWait, ReconnectWait | Backoff, Backoff
  | SendInterval, SendInterval => true
  | _, _ => false
  end.

Definition delays_at (s : site) (evs : list (event float)) : list Z :=
  flat_map (fun e => match e with
                     | EvDelay s' ms => if site_eqb s s' then [ms] else []
                     | _ => []
                     end) evs.

(** The answers of the status polls among [evs], in order. *)
Definition status_polls (evs : list (event float)) : list bool :=
  flat_map (fun e => match e with EvStatus up => [up] | _ => [] end) evs.

(** POSTs and back-off delays, the transport's own actions. *)
Inductive tevent := TPost (code : Z) | TDelay (ms : Z).

Definition transport_log (evs : list (event float)) : list tevent :=
  flat_map (fun e => match e with
                     | EvPost _ _ c => [TPost c]
                     | EvDelay Backoff ms => [TDelay ms]
                     | _ => []
                     end) evs.

(** The delays of a transport log, in order. *)
Definition tdelays (l : list tevent) : list Z :=
  flat_map (fun t => match t with TDelay ms => [ms] | TPost _ => [] end) l.

(** An action that is neither a POST nor a back-off delay. *)
Definition quiet (e : event float) : bool :=
  match e with
  | EvPost _ _ _ => false
  | EvDelay Backoff _ => false
  | _ => true
  end.

(** The retry schedule in words: after every POST but the last one of the
    cycle comes one delay; the delays start at [backoff] and double up to
    8000 ms. *)
Fixpoint retry_schedule (codes : list Z) (backoff : Z) : list tevent :=
  match codes with
  | [] => []
  | c :: cs =>
      TPost c ::
      match cs with
      | [] => []
      | _ :: _ => TDelay backoff :: retry_schedule cs (Z.min (backoff * 2) 8000)
      end
  end.

(** The build stamp's epoch, when the stamp parses and is plausible. *)
Definition plausible_stamp (cfg : Config) (env : Env) : option Z :=
  match compile_time cfg env with
  | Some c => if c <? PLAUSIBLE_EPOCH then None else Some c
  | None => None
  end.

(** A time-sync poll that succeeded and read a plausible clock. *)
Definition plausible_poll (o : option Z) : bool :=
  match o with
  | Some now => now >=? PLAUSIBLE_EPOCH
  | None => false
  end.

(** The world after [settimeofday t]. *)
Definition clock_set (t : Z) (w : World float) : World float :=
  mkWorld t (polls w) (lookups w) (syncs w) (posts w) (trace w ++ [EvSetTime t]).

(** The three tiers of time trust, tried in order: the clock is already
    plausible, the build stamp is, or some time-sync poll is. *)
Definition time_ok (cfg : Config) (env : Env) (w : World float) : bool :=
  (rtc w >=? PLAUSIBLE_EPOCH)
  || match plausible_stamp cfg env with Some _ => true | None => false end
  || existsb plausible_poll (ntp_polls env (syncs w)).

(** The log of a call of [connectWiFi] that returned after [rounds] rounds,
    counted over the whole call: it ends with a status poll that found the
    link up, followed at once by the DNS configuration and then by no further
    poll; every round but the last ended with a 3000 ms wait; the polling
    loops waited 250 ms at most [40 * rounds] times and the link status was
    read at most [42 * rounds] times.  What each single round did is
    [connect_rounds] below. *)
Record connect_log (evs : list (event float)) (rounds : nat) : Prop := mkConnectLog {
  cl_rounds : (1 <= rounds)%nat;
  cl_last : exists pre post,
      evs = pre ++ [EvStatus true; EvDnsConfig] ++ post
      /\ status_polls post = [];
  cl_retry : delays_at ReconnectWait evs = repeat 3000 (rounds - 1);
  cl_waits : exists n, delays_at PollWait evs = repeat 250 n
                       /\ (n <= 40 * rounds)%nat;
  cl_polls : (List.length (status_polls evs) <= 42 * rounds)%nat
}.

(** The log of one polling loop: [k] polls that found the link down, each
    followed by a 250 ms wait, then the poll [b] that ended the loop. *)
Definition poll_log (k : nat) (b : bool) : list (event float) :=
  List.concat (repeat [EvStatus false; EvDelay PollWait 250] k) ++ [EvStatus b].

(** The log of one round of [connectWiFi] up to its decision: the
    association request, the polling loop, and the poll [up] that decides. *)
Definition round_log (k : nat) (b up : bool) : list (event float) :=
  [EvWifiBegin] ++ poll_log k b ++ [EvStatus up].

(** A polling loop stays within its ceiling: it waits at most 40 times, and
    it ends before the 40th wait only on a poll that found the link up. *)
Definition within_ceiling (k : nat) (b : bool) : Prop :=
  (k <= 40)%nat /\ ((k < 40)%nat -> b = true).

(** The log of a call of [connectWiFi], round by round.  Every round logs
    its association request, at most 40 waits of 250 ms, one status poll
    before each wait and one after the last, and the deciding poll: at most
    42 status polls.  A round that finds the link down waits 3000 ms and is
    followed by the next round; the round that finds it up is followed by the
    DNS configuration and by no further poll or wait. *)
Inductive connect_rounds : list (event float) -> nat -> Prop :=
| cr_connected k b post :
    within_ceiling k b ->
    status_polls post = [] ->
    (forall s, delays_at s post = []) ->
    connect_rounds (round_log k b true ++ [EvDnsConfig] ++ post) 1
| cr_retry k b rest n :
    within_ceiling k b ->
    connect_rounds rest n ->
    connect_rounds (round_log k b false ++ [EvDelay ReconnectWait 3000] ++ rest)
                   (S n).

(** [Step env w w' evs]: the run from [w] to [w'] logged [evs]; the call
    counters grew by the number of logged calls and the logged answers are
    the oracles'. *)
Record Step (env : Env) (w w' : World float) (evs : list (event float)) : Prop :=
  mkStep {
  st_trace : trace w' = trace w ++ evs;
  st_posts : posts w' = (posts w + List.length (post_codes evs))%nat;
  st_polls : polls w' = (polls w + List.length (status_polls evs))%nat;
  st_codes : post_codes evs =
             map (post_code env) (seq (posts w) (List.length (post_codes evs)));
  st_status : status_polls evs =
              map (link_up env) (seq (polls w) (List.length (status_polls evs)))
}.

(** [Quiet env w w' evs]: a consistent extension by quiet actions only. *)
Definition Quiet (env : Env) (w w' : World float) (evs : list (event float)) : Prop :=
  Step env w w' evs /\ forallb quiet evs = true.

(** What one run of the attempt loop of [postReading] leaves in the log,
    when it starts with [left] attempts to go and returns [b]: at most
    [left] POSTs, all of the same body, spaced by the retry schedule; none at
    all when the client cannot be set up; success exactly when the last POST
    was answered 2xx, no earlier one being; and on failure every POST was
    answered otherwise and all [left] attempts were made. *)
Record delivery (cfg : Config) (env : Env) (body : Payload float)
    (left : nat) (backoff : Z) (b : bool) (evs : list (event float)) : Prop :=
  mkDelivery {
  dl_count : (List.length (post_codes evs) <= left)%nat;
  dl_log : transport_log evs = retry_schedule (post_codes evs) backoff;
  dl_bodies : Forall (eq body) (post_bodies evs);
  dl_begin : beginHttps cfg env = false -> post_codes evs = [];
  dl_some : beginHttps cfg env = true -> (1 <= left)%nat -> post_codes evs <> [];
  dl_true : b = true ->
            exists cs c, post_codes evs = cs ++ [c] /\ is_2xx c = true
                         /\ forallb (fun c => negb (is_2xx c)) cs = true;
  dl_false : b = false ->
             forallb (fun c => negb (is_2xx c)) (post_codes evs) = true
             /\ (beginHttps cfg env = true -> List.length (post_codes evs) = left)
}.

(** The link is up from the [n]-th status poll on. *)
Definition up_from (env : Env) (n : nat) : Prop :=
  forall i, (n <= i)%nat -> link_up env i = true.

(** The link is down at every status poll from the [n]-th on. *)
Definition down_from (env : Env) (n : nat) : Prop :=
  forall i, (n <= i)%nat -> link_up env i = false.

End Observations.

Arguments post_codes {float}.
Arguments post_bodies {float}.
Arguments delays_at {float}.
Arguments status_polls {float}.
Arguments transport_log {float}.
Arguments quiet {float}.
Arguments clock_set {float}.
Arguments time_ok {float}.
Arguments connect_log {float}.
Arguments poll_log {float}.
Arguments round_log {float}.
Arguments connect_rounds {float}.
Arguments delivery {float}.
Arguments Step {float}.
Arguments Quiet {float}.
Arguments st_trace {float env w w' evs}.
Arguments st_posts {float env w w' evs}.
Arguments st_polls {float env w w' evs}.
Arguments st_codes {float env w w' evs}.
Arguments st_status {float env w w' evs}.

End NetObs.

(** ** Sample environments *)

Module NetDemo.
Import Net.

Definition demo_cfg : Config :=
  mkConfig "ground_1" "https://collector.example/api/telemetry" "secret"
           (Some ("Nov"%string, 2, 2026)) (Some (4, 46, 0)).

(** An environment whose reachability checks pass and whose HTTP client can
    always be set up; [stamp] is what [mktime] makes of the build stamp.  The
    clock gains a second in each [delay] and each HTTP exchange and two in
    each reachability check. *)
Definition demo_env (up : nat -> bool) (codes : nat -> Z) (stamp : Z)
    (ntp : list (option Z)) : Env :=
  mkEnv up (fun _ => true) (fun _ => true) (fun _ => ntp) codes
        (fun _ _ => true) (fun _ => stamp)
        (fun _ => 1%N) (fun _ => 2%N) (fun _ => 1%N).

(** A world right after reset: the clock at the epoch, nothing logged. *)
Definition boot_world : World Q := mkWorld 0 0 0 0 0 [].

Definition always (b : bool) : nat -> bool := fun _ => b.

(** A server that answers 500 to everything. *)
Definition all_500 : nat -> Z := fun _ => 500.

(** A server that answers 503 twice, then 201. *)
Definition third_time_lucky : nat -> Z :=
  fun n => if Nat.ltb n 2 then 503 else 201.

(** The link is always up, the build stamp is plausible, every POST is
    answered 500. *)
Definition env_all_500 : Env :=
  demo_env (always true) all_500 1793594760 [].

(** The build stamp is implausible, the second time-sync poll succeeds, the
    third POST is accepted. *)
Definition env_lucky : Env :=
  demo_env (always true) third_time_lucky 0 [None; Some 1793594999].

(** Neither the build stamp nor any time-sync poll is plausible. *)
Definition env_no_time : Env :=
  demo_env (always true) third_time_lucky 0 [None; Some 5; None].

(** Time sync fails, the build stamp alone is plausible. *)
Definition env_stamp_only : Env :=
  demo_env (always true) third_time_lucky 1793594760 [None; None].

(** The link never comes up. *)
Definition env_link_down : Env :=
  demo_env (always false) all_500 1793594760 [].

(** The link comes up at the 51st status poll. *)
Definition env_link_late : Env :=
  demo_env (fun n => Nat.leb 50 n) all_500 1793594760 [].

(** What a returned call of [postReading] did: its result, the status codes
    of its POSTs and its back-off delays. *)
Definition cycle_summary (r : option (bool * World Q)) : option (bool * list Z * list Z) :=
  match r with
  | Some (b, w') =>
      Some (b, NetObs.post_codes (trace w'), NetObs.delays_at Backoff (trace w'))
  | None => None
  end.

(** What a round of [connectWiFi] did: its result, the number of status
    polls and the number of 250 ms waits. *)
Definition round_summary (r : option (bool * World Q)) : option (bool * nat * nat) :=
  match r with
  | Some (up, w') =>
      Some (up, List.length (NetObs.status_polls (trace w')),
            List.length (NetObs.delays_at PollWait (trace w')))
  | None => None
  end.

End NetDemo.

(** ** Control loop *)

Module Loop.

(** Build-time settings of the acquisition ([config.h]); their values are
    not part of the sources at hand. *)
Record Settings := mkSettings {
  SDS_WARMUP_MS : Z;
  SDS_RAW_DEBUG_WINDOW_MS : Z;
  SDS_NO_FRAME_HINT_GRACE_MS : Z;
  SDS_RAW_DEBUG : bool;
  BME680_I2C_ADDR : Z;
  BME680_I2C_ADDR_ALT : Z;
  GEIGER_WINDOW_MS : Z;
  GEIGER_CPM_PER_USVH : Q;
  SEND_INTERVAL_MS : Z
}.

(** The global variables of the sketch. *)
Record Globals := mkGlobals {
  lastPm25 : Q;
  lastPm10 : Q;
  lastTempC : Q;
  lastHum : Q;
  lastPress : Q;
  lastGas : Q;
  lastRadiationUsvh : Q;
  bmeRetryAt : Z;
  bmeWarmupUntil : Z;
  bmeReady : bool;
  bmeAddrInUse : Z;
  bootMs : Z;
  sdsWarmupUntil : Z;
  sdsDebugWindowEnd : Z;
  sdsNoFrameHintAt : Z;
  sdsLastGoodFrameMs : Z;
  sdsHintShown : bool;
  geigerPulses : Z;
  geigerWindowStart : Z
}.

(** The initialisers of the globals. *)
Definition boot_globals (cfg : Settings) : Globals :=
  mkGlobals 12 0 24 55 1010 100000 0
            0 0 false (BME680_I2C_ADDR cfg)
            0 0 0 0 0 false 0 0.

(** What the sensors and the clock answer during one pass of [loop] (or
    during [setup]). *)
Record Pass := mkPass {
  (** the [k]-th call of [millis()] made by the pass itself *)
  millis_at : nat -> Z;
  (** [bme.begin(addr)] *)
  bme_begin : Z -> bool;
  (** [bme.performReading()]: [None] when it fails, else the sensor's
      temperature, humidity, pressure (Pa) and gas resistance (Ohm) *)
  bme_sample : option (Q * Q * Q * Q);
  (** the read window of [readSDS] and the bytes the SDS011 delivers in it *)
  sds_window : nat;
  sds_rx : list byte;
  (** runs of the interrupt handler since the previous pass reached its
      pulse-counter block *)
  isr_edges : N
}.

(** What a pass hands to [postReading], and which of its reads succeeded. *)
Record Reading := mkReading {
  r_radiation : Q;
  r_pm25 : Q;
  r_tempC : Q;
  r_hum : Q;
  r_press : Q;
  r_gas : Q;
  got_bme : bool;        (* [readBME] was called and returned true *)
  got_sds : bool;        (* [readSDS] returned true *)
  closed_window : bool   (* the pulse-count window was closed *)
}.

Section Acquisition.

Variable cfg : Settings.
Variable ps : Pass.

(** [millis()], an [unsigned long]; [k] counts the calls. *)
Definition millis (k : nat) : Z * nat := (wrap32 (millis_at ps k), S k).

(** Updates of the globals, by group. *)
Definition set_bme (g : Globals) (ready : bool) (addr retryAt warmupUntil : Z) : Globals :=
  mkGlobals (lastPm25 g) (lastPm10 g) (lastTempC g) (lastHum g) (lastPress g)
            (lastGas g) (lastRadiationUsvh g)
            retryAt warmupUntil ready addr
            (bootMs g) (sdsWarmupUntil g) (sdsDebugWindowEnd g) (sdsNoFrameHintAt g)
            (sdsLastGoodFrameMs g) (sdsHintShown g) (geigerPulses g)
            (geigerWindowStart g).

Definition set_last_bme (g : Globals) (tempC hum press gas : Q) : Globals :=
  mkGlobals (lastPm25 g) (lastPm10 g) tempC hum press gas (lastRadiationUsvh g)
            (bmeRetryAt g) (bmeWarmupUntil g) (bmeReady g) (bmeAddrInUse g)
            (bootMs g) (sdsWarmupUntil g) (sdsDebugWindowEnd g) (sdsNoFrameHintAt g)
            (sdsLastGoodFrameMs g) (sdsHintShown g) (geigerPulses g)
            (geigerWindowStart g).

Definition set_sds (g : Globals) (pm25 pm10 : Q)
    (noFrameHintAt lastGoodFrameMs : Z) (hintShown : bool) : Globals :=
  mkGlobals pm25 pm10 (lastTempC g) (lastHum g) (lastPress g)
            (lastGas g) (lastRadiationUsvh g)
            (bmeRetryAt g) (bmeWarmupUntil g) (bmeReady g) (bmeAddrInUse g)
            (bootMs g) (sdsWarmupUntil g) (sdsDebugWindowEnd g) noFrameHintAt
            lastGoodFrameMs hintShown (geigerPulses g) (geigerWindowStart g).

Definition set_geiger (g : Globals) (radiation : Q) (pulses windowStart : Z) : Globals :=
  mkGlobals (lastPm25 g) (lastPm10 g) (lastTempC g) (lastHum g) (lastPress g)
            (lastGas g) radiation
            (bmeRetryAt g) (bmeWarmupUntil g) (bmeReady g) (bmeAddrInUse g)
            (bootMs g) (sdsWarmupUntil g) (sdsDebugWindowEnd g) (sdsNoFrameHintAt g)
            (sdsLastGoodFrameMs g) (sdsHintShown g) pulses windowStart.

Definition set_boot_times (g : Globals)
    (boot warmupUntil debugWindowEnd noFrameHintAt : Z) : Globals :=
  mkGlobals (lastPm25 g) (lastPm10 g) (lastTempC g) (lastHum g) (lastPress g)
            (lastGas g) (lastRadiationUsvh g)
            (bmeRetryAt g) (bmeWarmupUntil g) (bmeReady g) (bmeAddrInUse g)
            boot warmupUntil debugWindowEnd noFrameHintAt
            (sdsLastGoodFrameMs g) (sdsHintShown g) (geigerPulses g) boot.

(** [rawSdsDebugWindow]: it only reads the clock and drains the serial
    line (the bytes it prints are not part of [sds_rx]). *)
Definition rawSdsDebugWindow (g : Globals) (k : nat) : nat :=
  if negb (SDS_RAW_DEBUG cfg) then k
  else
    let '(t1, k) := millis k in
    if t1 <? sdsWarmupUntil g then k
    else
      let '(t2, k) := millis k in
      if t2 >? sdsDebugWindowEnd g then k else k.

(** [initBME]: the flag it returns and [bmeAddrInUse] after it. *)
Definition initBME (g : Globals) : bool * Z :=
  let probe (addr : Z) (otherwise : bool * Z) : bool * Z :=
    if addr =? 0 then otherwise
    else if bme_begin ps addr then (true, addr)
    else otherwise in
  probe (BME680_I2C_ADDR cfg)
        (probe (BME680_I2C_ADDR_ALT cfg) (false, bmeAddrInUse g)).

(** [loop], the retry of the BME680 initialisation. *)
Definition bme_retry (g : Globals) (k : nat) : Globals * nat :=
  if negb (bmeReady g) then
    let '(t, k) := millis k in
    if t >=? bmeRetryAt g then
      let '(ready, addr) := initBME g in
      let '(t', k) := millis k in
      if negb ready
      then (set_bme g false addr (wrap32 (t' + 10000)) (bmeWarmupUntil g), k)
      else (set_bme g true addr (bmeRetryAt g) t', k)
    else (g, k)
  else (g, k).

(** [loop], the environmental read; [readBME] is inlined. *)
Definition bme_read (g : Globals) (k : nat) : Globals * (Q * Q * Q * Q) * bool * nat :=
  let kept := (lastTempC g, lastHum g, lastPress g, lastGas g) in
  if bmeReady g then
    let '(t, k) := millis k in
    if t >=? bmeWarmupUntil g then
      match bme_sample ps with
      | Some (temperature, humidity, pressure, gas_resistance) =>
          let tempC := temperature in
          let hum := humidity in
          let press := (pressure / 100)%Q in
          let gas := gas_resistance in
          (set_last_bme g tempC hum press gas, (tempC, hum, press, gas), true, k)
      | None =>
          let '(_, k) := millis k in (g, kept, false, k)
      end
    else
      let '(_, k) := millis k in (g, kept, false, k)
  else (g, kept, false, k).

(** [loop], the particulate read. *)
Definition sds_step (g : Globals) (k : nat) : Globals * (Q * Q) * bool * nat :=
  let pm25 := lastPm25 g in
  let pm10 := lastPm10 g in
  let '(t, k) := millis k in
  let sdsWarming := t <? sdsWarmupUntil g in
  let r := SDS.readSDS (sds_window ps) (sds_rx ps) 0 0 in
  if SDS.sds_ok r then
    let pm25 := SDS.sds_pm25 r in
    let pm10 := SDS.sds_pm10 r in
    let '(t1, k) := millis k in
    let '(t2, k) := millis k in
    (set_sds g pm25 pm10 (wrap32 (t2 + SDS_NO_FRAME_HINT_GRACE_MS cfg)) t1 false,
     (pm25, pm10), true, k)
  else if sdsWarming then (g, (pm25, pm10), false, k)
  else if negb (sdsHintShown g) then
    let '(t1, k) := millis k in
    if t1 >? sdsNoFrameHintAt g
    then (set_sds g (lastPm25 g) (lastPm10 g) (sdsNoFrameHintAt g)
                  (sdsLastGoodFrameMs g) true,
          (pm25, pm10), false, k)
    else let '(_, k) := millis k in (g, (pm25, pm10), false, k)
  else let '(_, k) := millis k in (g, (pm25, pm10), false, k).

(** [loop], the pulse-counter block.  The handler's runs since the previous
    pass are applied to the counter first. *)
Definition geiger_step (g : Globals) (k : nat) : Globals * Q * bool * nat :=
  let counter := Geiger.edges (isr_edges ps) (geigerPulses g) in
  let radiationUsvh := lastRadiationUsvh g in
  let '(now, k) := millis k in
  if wrap32 (now - geigerWindowStart g) >=? GEIGER_WINDOW_MS cfg then
    let '(pulses, counter) := Geiger.read_and_reset counter in
    let cpm := (inject_Z pulses * 60000 / inject_Z (GEIGER_WINDOW_MS cfg))%Q in
    let radiationUsvh := (cpm / GEIGER_CPM_PER_USVH cfg)%Q in
    (set_geiger g radiationUsvh counter now, radiationUsvh, true, k)
  else
    (set_geiger g (lastRadiationUsvh g) counter (geigerWindowStart g),
     radiationUsvh, false, k).

(** [loop] up to the call of [postReading]. *)
Definition acquire (g : Globals) : Globals * Reading :=
  let k := rawSdsDebugWindow g 0 in
  let '(g, k) := bme_retry g k in
  let '(g, (tempC, hum, press, gas), gotBme, k) := bme_read g k in
  let '(g, (pm25, pm10), gotSds, k) := sds_step g k in
  let '(g, radiationUsvh, closed, k) := geiger_step g k in
  (g, mkReading radiationUsvh pm25 tempC hum press gas gotBme gotSds closed).

(** [setup], as far as the globals go. *)
Definition setup_globals (g : Globals) : Globals :=
  let '(boot, k) := millis 0 in
  let warmupUntil := wrap32 (boot + SDS_WARMUP_MS cfg) in
  let g := set_boot_times g boot warmupUntil
             (wrap32 (warmupUntil + SDS_RAW_DEBUG_WINDOW_MS cfg))
             (wrap32 (warmupUntil + SDS_NO_FRAME_HINT_GRACE_MS cfg)) in
  let '(ready, addr) := initBME g in
  let '(t, k) := millis k in
  if negb ready
  then set_bme g false addr (wrap32 (t + 10000)) (bmeWarmupUntil g)
  else set_bme g true addr (bmeRetryAt g) t.

End Acquisition.

Section Sketch.

Variable ncfg : Net.Config.
Variable env : Net.Env.
Variable cfg : Settings.

(** The arguments [loop] passes to [postReading]. *)
Definition post (fuel : nat) (rd : Reading) : Net.M R bool :=
  Net.postReading R ncfg env fuel
    (Q2R (r_radiation rd)) (Q2R (r_pm25 rd)) (Q2R (r_tempC rd))
    (Q2R (r_hum rd)) (Q2R (r_press rd))
    (Voc.gasToVoc (Q2R (r_gas rd))).

(** One pass of [loop]. *)
Definition loop (fuel : nat) (ps : Pass) (g : Globals) (w : Net.World R)
  : option (Globals * Net.World R) :=
  let '(g', rd) := acquire cfg ps g in
  match post fuel rd w with
  | Some (_, w1) =>
      match Net.delay R env Net.SendInterval (SEND_INTERVAL_MS cfg) w1 with
      | Some (_, w2) => Some (g', w2)
      | None => None
      end
  | None => None
  end.

(** [setup]. *)
Definition setup (fuel : nat) (ps : Pass) (w : Net.World R)
  : option (Globals * Net.World R) :=
  match Net.connectWiFi R ncfg env fuel w with
  | Some (_, w1) => Some (setup_globals cfg ps (boot_globals cfg), w1)
  | None => None
  end.

(** [setup] followed by passes of [loop]. *)
Fixpoint passes (fuel : nat) (pss : list Pass) (g : Globals) (w : Net.World R)
  : option (Globals * Net.World R) :=
  match pss with
  | [] => Some (g, w)
  | ps :: rest =>
      match loop fuel ps g w with
      | Some (g', w') => passes fuel rest g' w'
      | None => None
      end
  end.

End Sketch.

(** The readings of successive passes, and the globals after them. *)
Fixpoint acquire_all (cfg : Settings) (pss : list Pass) (g : Globals)
  : list Reading * Globals :=
  match pss with
  | [] => ([], g)
  | ps :: rest =>
      let '(g', rd) := acquire cfg ps g in
      let '(rds, g'') := acquire_all cfg rest g' in
      (rd :: rds, g'')
  end.

(** The dose rate of the latest window closed among [rds], if any. *)
Fixpoint last_closed (rds : list Reading) : option Q :=
  match rds with
  | [] => None
  | rd :: rest =>
      match last_closed rest with
      | Some r => Some r
      | None => if closed_window rd then Some (r_radiation rd) else None
      end
  end.

End Loop.

(** ** What a pass of the control loop guarantees *)

Module LoopObs.
Import Loop.

(** [keeps g g']: the last-known-good values and the pulse counter's state
    are the same in [g] and [g']. *)
Definition keeps (g g' : Globals) : Prop :=
  lastPm25 g' = lastPm25 g /\ lastPm10 g' = lastPm10 g
  /\ lastTempC g' = lastTempC g /\ lastHum g' = lastHum g
  /\ lastPress g' = lastPress g /\ lastGas g' = lastGas g
  /\ lastRadiationUsvh g' = lastRadiationUsvh g
  /\ geigerPulses g' = geigerPulses g
  /\ geigerWindowStart g' = geigerWindowStart g.

(** The dose rate [loop] computes from a pulse count. *)
Definition dose_rate (cfg : Settings) (pulses : Z) : Q :=
  (inject_Z pulses * 60000 / inject_Z (GEIGER_WINDOW_MS cfg))
  / GEIGER_CPM_PER_USVH cfg.

(** [acquired cfg ps g g' rd]: how the reading [rd] and the globals [g']
    after a pass relate to the globals [g] before it and to what the
    sensors answered. *)
Record acquired (cfg : Settings) (ps : Pass) (g g' : Globals) (rd : Reading)
  : Prop := mkAcquired {
  a_sds_flag : got_sds rd = SDS.sds_ok (SDS.readSDS (sds_window ps) (sds_rx ps) 0 0);
  a_pm25 : r_pm25 rd =
           if got_sds rd
           then SDS.sds_pm25 (SDS.readSDS (sds_window ps) (sds_rx ps) 0 0)
           else lastPm25 g;
  a_pm10 : lastPm10 g' =
           if got_sds rd
           then SDS.sds_pm10 (SDS.readSDS (sds_window ps) (sds_rx ps) 0 0)
           else lastPm10 g;
  a_pm25_last : lastPm25 g' = r_pm25 rd;
  a_bme_miss : got_bme rd = false ->
               r_tempC rd = lastTempC g /\ r_hum rd = lastHum g
               /\ r_press rd = lastPress g /\ r_gas rd = lastGas g;
  a_bme_hit : got_bme rd = true ->
              exists temperature humidity pressure gas_resistance,
                bme_sample ps = Some (temperature, humidity, pressure, gas_resistance)
                /\ r_tempC rd = temperature /\ r_hum rd = humidity
                /\ r_press rd = (pressure / 100)%Q /\ r_gas rd = gas_resistance;
  a_bme_last : lastTempC g' = r_tempC rd /\ lastHum g' = r_hum rd
               /\ lastPress g' = r_press rd /\ lastGas g' = r_gas rd;
  a_closed : closed_window rd = true ->
             r_radiation rd =
               dose_rate cfg (Geiger.edges (isr_edges ps) (geigerPulses g))
             /\ geigerPulses g' = 0;
  a_open : closed_window rd = false ->
           r_radiation rd = lastRadiationUsvh g
           /\ geigerPulses g' = Geiger.edges (isr_edges ps) (geigerPulses g);
  a_rad_last : lastRadiationUsvh g' = r_radiation rd
}.

(** No pass among [rds] had the given read succeed. *)
Definition none_yet (flag : Reading -> bool) (rds : list Reading) : bool :=
  forallb (fun rd => negb (flag rd)) rds.

End LoopObs.

(** ** A sample node *)

Module LoopDemo.
Import Loop.

Definition demo_settings : Settings :=
  mkSettings 30000 10000 60000 false 0x77 0x76 10000 153.8%Q 15000.

(** A pass at [t] ms in which the BME680 is absent, the SDS011 delivers
    [rx], and the handler ran [n] times. *)
Definition quiet_pass (t : Z) (rx : list byte) (n : N) : Pass :=
  mkPass (fun _ => t) (fun _ => false) None 50 rx n.

(** A pass at [t] ms in which the BME680 answers. *)
Definition bme_pass (t : Z) (n : N) : Pass :=
  mkPass (fun _ => t) (fun _ => true) (Some (21.5, 40, 101325, 250000)%Q) 50 [] n.

(** The globals after [setup] at 200 ms with no BME680 on the bus. *)
Definition after_setup : Globals :=
  setup_globals demo_settings (quiet_pass 200 [] 0) (boot_globals demo_settings).

(** A world of real-valued payloads right after reset. *)
Definition boot_world : Net.World R := Net.mkWorld 0 0 0 0 0 [].

End LoopDemo.


(** ** What a run may log, and in which order *)

Module TraceObs.
Import Net NetObs.

Section Alphabet.

Variable float : Type.
Variable cfg : Config.
Variable env : Env.

(** [logs P m]: whatever a returning run of [m] appends to the log
    satisfies [P]. *)
Definition logs {A : Type} (P : event float -> Prop) (m : M float A) : Prop :=
  forall (w : World float) (a : A) (w' : World float),
    m w = Some (a, w') ->
    exists evs, trace w' = trace w ++ evs /\ Forall P evs.

(** The actions of link association and time bootstrap: the station is
    started, the status polled, the two fixed waits, the name servers set,
    and the clock set to the build stamp when that is plausible. *)
Inductive link_action : event float -> Prop :=
| la_begin : link_action EvWifiBegin
| la_status (up : bool) : link_action (EvStatus up)
| la_poll_wait : link_action (EvDelay PollWait 250)
| la_reconnect_wait : link_action (EvDelay ReconnectWait 3000)
| la_dns : link_action EvDnsConfig
| la_set_time (c : Z) :
    plausible_stamp cfg env = Some c -> link_action (EvSetTime c).

(** The actions of one delivery of [body]: those of the link, POSTs of
    that body under the configured key, and back-off waits. *)
Inductive send_action (body : Payload float) : event float -> Prop :=
| sa_link (e : event float) : link_action e -> send_action body e
| sa_post (code : Z) : send_action body (EvPost (API_KEY cfg) body code)
| sa_backoff (ms : Z) : send_action body (EvDelay Backoff ms).

(** The epochs the clock was set to among [evs], in order. *)
Definition set_times (evs : list (event float)) : list Z :=
  flat_map (fun e => match e with EvSetTime t => [t] | _ => [] end) evs.

(** The [X-API-Key] header values of the POSTs among [evs], in order. *)
Definition post_keys (evs : list (event float)) : list string :=
  flat_map (fun e => match e with EvPost k _ _ => [k] | _ => [] end) evs.

(** The answer of the latest status poll among [evs]; [last] when there
    is none. *)
Fixpoint link_seen (last : bool) (evs : list (event float)) : bool :=
  match evs with
  | [] => last
  | EvStatus up :: rest => link_seen up rest
  | _ :: rest => link_seen last rest
  end.

(** Every POST among [evs] comes when the latest status poll before it
    found the link up; [last] stands for the polls before [evs]. *)
Fixpoint posts_on_link (last : bool) (evs : list (event float)) : bool :=
  match evs with
  | [] => true
  | EvStatus up :: rest => posts_on_link up rest
  | EvPost _ _ _ :: rest => last && posts_on_link last rest
  | _ :: rest => posts_on_link last rest
  end.

End Alphabet.

Arguments logs {float A}.
Arguments link_action {float}.
Arguments send_action {float}.
Arguments set_times {float}.
Arguments post_keys {float}.
Arguments link_seen {float}.
Arguments posts_on_link {float}.

(** A character that does not occur in a string. *)
Fixpoint no_char (c : ascii) (s : string) : bool :=
  match s with
  | EmptyString => true
  | String a s' => negb (Ascii.eqb a c) && no_char c s'
  end.

(** A position found in a suffix, as a position of the whole string. *)
Definition shift (n : nat) (o : option nat) : option nat :=
  match o with
  | Some k => Some (n + k)%nat
  | None => None
  end.

End TraceObs.


(** ** What the passes of the control loop keep *)

Module PassObs.
Import Loop.

(** The BME680 bookkeeping is the same in [g] and [g']. *)
Definition same_bme (g g' : Globals) : Prop :=
  bmeReady g' = bmeReady g /\ bmeAddrInUse g' = bmeAddrInUse g
  /\ bmeWarmupUntil g' = bmeWarmupUntil g /\ bmeRetryAt g' = bmeRetryAt g.

(** The address in use is one of the two configured ones, and not 0. *)
Definition configured_address (cfg : Settings) (g : Globals) : Prop :=
  bmeAddrInUse g <> 0
  /\ (bmeAddrInUse g = BME680_I2C_ADDR cfg
      \/ bmeAddrInUse g = BME680_I2C_ADDR_ALT cfg).

(** The last-known-good particulate and dose values and the pulse counter
    lie in the ranges their sources allow. *)
Definition in_range (g : Globals) : Prop :=
  (0 <= lastPm25 g <= 6553.5)%Q /\ (0 <= lastPm10 g <= 6553.5)%Q
  /\ (0 <= lastRadiationUsvh g)%Q
  /\ 0 <= geigerPulses g < 4294967296.

(** The runs of the interrupt handler during the passes [pss], in all. *)
Definition total_edges (pss : list Pass) : Z :=
  fold_right (fun ps acc => Z.of_N (isr_edges ps) + acc) 0 pss.

End PassObs.


(** ** More sample environments *)

Module MoreDemo.
Import Net NetDemo.

(** Name resolution fails; everything else is as in [env_lucky]. *)
Definition env_no_dns : Env :=
  mkEnv (always true) (fun _ => false) (fun _ => true)
        (fun _ => [None; Some 1793594999]) third_time_lucky
        (fun _ _ => true) (fun _ => 0)
        (fun _ => 1%N) (fun _ => 2%N) (fun _ => 1%N).

(** The link is down at the first status poll and up from the second on;
    the build stamp is plausible. *)
Definition env_link_flap : Env :=
  demo_env (fun n => Nat.leb 1 n) third_time_lucky 1793594760 [None].

(** A server URL with an empty host part. *)
Definition cfg_no_host : Config :=
  mkConfig "ground_1" "https:///api/telemetry" "secret"
           (Some ("Nov"%string, 2, 2026)) (Some (4, 46, 0)).

(** A server URL without a path. *)
Definition cfg_no_path : Config :=
  mkConfig "ground_1" "https://collector.example" "secret"
           (Some ("Nov"%string, 2, 2026)) (Some (4, 46, 0)).

(** A server URL without a scheme. *)
Definition cfg_no_scheme : Config :=
  mkConfig "ground_1" "collector.example/api/telemetry" "secret"
           (Some ("Nov"%string, 2, 2026)) (Some (4, 46, 0)).

(** An HTTP client that can only be set up for one host and two paths. *)
Definition env_strict_client : Env :=
  mkEnv (always true) (fun _ => true) (fun _ => true) (fun _ => [])
        third_time_lucky
        (fun host path =>
           String.eqb host "collector.example"
           && (String.eqb path "/api/telemetry" || String.eqb path "/"))
        (fun _ => 1793594760)
        (fun _ => 1%N) (fun _ => 2%N) (fun _ => 1%N).

(** Globals whose count window started 7296 ms before [millis()] wraps. *)
Definition near_wrap : Loop.Globals :=
  Loop.set_geiger LoopDemo.after_setup 0 0 4294960000.

(** A pass whose clock has wrapped: its true time is [2^32 + 2704] ms. *)
Definition wrapped_pass : Loop.Pass :=
  Loop.mkPass (fun _ => 4294970000) (fun _ => false) None 50 [] 3.

(** The globals after a pass that found the BME680. *)
Definition ready_globals : Loop.Globals :=
  fst (Loop.acquire LoopDemo.demo_settings (LoopDemo.bme_pass 21000 1)
         LoopDemo.after_setup).

(** The globals after a pass, long after the warm-up, that saw no frame. *)
Definition hinted_globals : Loop.Globals :=
  fst (Loop.acquire LoopDemo.demo_settings (LoopDemo.quiet_pass 100000 [] 1)
         LoopDemo.after_setup).

End MoreDemo.


(** ** I2C bus scan *)

Module Bus.

(** What [i2cScan] prints: the heading, one line per device found, and
    the closing line when there is none. *)
Inductive scan_line :=
| ScanStart                   (* "I2C scan..." *)
| ScanFound (addr : Z)        (* " - Found device at 0x%02X" *)
| ScanNone.                   (* " - No I2C devices found" *)

(** The loop [for (byte addr = 1; addr < 127; addr++)] from [addr] on;
    [todo] is [127 - addr], [count] the [byte] counter.
    [endTransmission addr] is what [Wire.endTransmission()] returns after
    [Wire.beginTransmission(addr)]. *)
Fixpoint scan_from (endTransmission : Z -> Z) (todo : nat) (addr count : Z)
  : list scan_line * Z :=
  match todo with
  | O => ([], count)
  | S todo' =>
      let err := endTransmission addr in
      if err =? 0 then
        let '(lines, count') :=
          scan_from endTransmission todo' (wrap8 (addr + 1)) (wrap8 (count + 1)) in
        (ScanFound addr :: lines, count')
      else scan_from endTransmission todo' (wrap8 (addr + 1)) count
  end.

(** [i2cScan]. *)
Definition i2cScan (endTransmission : Z -> Z) : list scan_line :=
  let '(lines, count) := scan_from endTransmission 126 1 0 in
  ScanStart :: lines ++ (if count =? 0 then [ScanNone] else []).

(** The 7-bit addresses the scan covers, in order. *)
Definition scanned : list Z := map Z.of_nat (seq 1 126).

(** The addresses among [l] that acknowledge. *)
Definition answering (endTransmission : Z -> Z) (l : list Z) : list Z :=
  filter (fun addr => endTransmission addr =? 0) l.

(** A bus with devices at 0x3C and 0x77. *)
Definition two_devices : Z -> Z :=
  fun addr => if (addr =? 0x3C) || (addr =? 0x77) then 0 else 2.

End Bus.

(** * Facts

    ** Machine integers *)

Lemma u8_range (b : byte) : 0 <= u8 b < 256.
Proof.
  unfold u8. pose proof (Byte.to_N_bounded b) as H.
  split; [apply N2Z.is_nonneg|].
  apply N.lt_succ_r in H.
  change 256 with (Z.of_N 256). apply N2Z.inj_lt. exact H.
Qed.


(** The cast to [long] keeps a value that fits in 32 bits and wraps every
    other one into that range. *)
Lemma to_long_fits (z : Z) : -2147483648 <= z < 2147483648 -> to_long z = z.
Proof.
  intros H. unfold to_long. rewrite Z.mod_small by lia. lia.
Qed.

Lemma to_long_range (z : Z) : -2147483648 <= to_long z < 2147483648.
Proof.
  unfold to_long.
  pose proof (Z.mod_pos_bound (z + 2147483648) 4294967296 ltac:(lia)). lia.
Qed.

(** ** Particulate frame decoder *)

Module SDSFacts.
Import SDS SDSDemo Byte.

Lemma lor_shift_byte (a b : Z) :
  0 <= a < 256 -> 0 <= b < 256 ->
  wrap16 (Z.lor a (Z.shiftl b 8)) = a + 256 * b.
Proof.
  intros Ha Hb. unfold wrap16.
  assert (Hl : Z.land a (Z.shiftl b 8) = 0).
  { apply Z.bits_inj'. intros n Hn. rewrite Z.land_spec, Z.bits_0.
    destruct (Z.ltb_spec n 8).
    - rewrite (Z.shiftl_spec_low b 8 n) by lia. apply andb_false_r.
    - destruct (Z.eq_dec a 0) as [->|Hne].
      + now rewrite Z.bits_0.
      + rewrite (Z.bits_above_log2 a n); [reflexivity | lia |].
        assert (Z.log2 a < 8); [|lia].
        apply Z.log2_lt_pow2; lia. }
  rewrite <- Z.lxor_lor by exact Hl.
  rewrite <- Z.add_nocarry_lxor by exact Hl.
  rewrite Z.shiftl_mul_pow2 by lia.
  change (2 ^ 8) with 256.
  rewrite Z.mod_small; lia.
Qed.

Lemma firstn_length_app {A} (a b : list A) :
  firstn (List.length a) (a ++ b) = a.
Proof. induction a as [|x a IH]; cbn; [reflexivity | now rewrite IH]. Qed.

Lemma skipn_length_app {A} (a b : list A) :
  skipn (List.length a) (a ++ b) = b.
Proof. induction a as [|x a IH]; cbn; [reflexivity | exact IH]. Qed.

Lemma readSDS_header (n : nat) (h : byte) (body rest : list byte) (p q : Q) :
  u8 h = SDS_HEADER1 -> List.length body = 9%nat ->
  readSDS (S n) (h :: body ++ rest) p q =
  if body_valid body
  then mkSds true (inject_Z (raw16 body 2 3) / 10) (inject_Z (raw16 body 4 5) / 10) rest
  else readSDS n rest p q.
Proof.
  intros Hh Hlen. cbn [readSDS]. rewrite Hh. cbn [negb Z.eqb SDS_HEADER1 Pos.eqb].
  unfold readBytes. rewrite <- Hlen.
  rewrite firstn_length_app, skipn_length_app, Hlen.
  unfold body_valid.
  change (Z.of_nat 9 =? SDS_FRAME_LEN - 1) with true. cbn [negb].
  destruct (buf_at body 1 =? SDS_HEADER2); cbn [negb orb andb]; [|reflexivity].
  destruct (buf_at body 9 =? SDS_TAIL); cbn [negb orb andb]; [|reflexivity].
  destruct (frame_checksum body =? buf_at body 8); reflexivity.
Qed.

Lemma readSDS_skip (n : nat) (b : byte) (rest : list byte) (p q : Q) :
  u8 b <> SDS_HEADER1 ->
  readSDS (S n) (b :: rest) p q = readSDS n rest p q.
Proof.
  intros Hb. cbn [readSDS].
  destruct (Z.eqb_spec (u8 b) SDS_HEADER1); [contradiction | reflexivity].
Qed.

Lemma checksum_sum (h2 d1 d2 d3 d4 d5 d6 cs tl : byte) :
  frame_checksum [h2; d1; d2; d3; d4; d5; d6; cs; tl] =
  (u8 d1 + u8 d2 + u8 d3 + u8 d4 + u8 d5 + u8 d6) mod 256.
Proof.
  assert (W : forall a b, wrap8 (wrap8 a + b) = wrap8 (a + b))
    by (intros; unfold wrap8; apply Zplus_mod_idemp_l).
  unfold frame_checksum. cbn [fold_left buf_at nth].
  rewrite (W (0 + u8 d1)), (W (0 + u8 d1 + u8 d2)),
    (W (0 + u8 d1 + u8 d2 + u8 d3)), (W (0 + u8 d1 + u8 d2 + u8 d3 + u8 d4)),
    (W (0 + u8 d1 + u8 d2 + u8 d3 + u8 d4 + u8 d5)).
  reflexivity.
Qed.

(** On ten bytes that start with the header, the decoder's checks are the
    protocol's. *)
Lemma body_valid_well_formed (h : byte) (body : list byte) :
  u8 h = SDS_HEADER1 -> List.length body = 9%nat ->
  body_valid body = well_formed_frame (h :: body).
Proof.
  intros Hh Hlen.
  do 9 (destruct body as [|? body]; [discriminate|]).
  destruct body; [|discriminate].
  unfold body_valid, well_formed_frame.
  rewrite checksum_sum, Hh. cbn [buf_at nth].
  change (SDS_HEADER1 =? 170) with true. cbn [andb].
  rewrite (Z.eqb_sym (_ mod 256)). reflexivity.
Qed.

Lemma well_formed_length (f : list byte) :
  well_formed_frame f = true -> List.length f = 10%nat.
Proof.
  intros H.
  do 10 (destruct f as [|? f]; [discriminate|]).
  destruct f; [reflexivity|discriminate].
Qed.

Lemma well_formed_header (h : byte) (body : list byte) :
  well_formed_frame (h :: body) = true -> u8 h = SDS_HEADER1.
Proof.
  intros H. pose proof (well_formed_length _ H) as Hlen.
  do 9 (destruct body as [|? body]; [discriminate|]).
  destruct body; [|discriminate].
  cbn [well_formed_frame] in H.
  apply andb_prop in H as [H _]. apply andb_prop in H as [H _].
  apply andb_prop in H as [H _]. now apply Z.eqb_eq in H.
Qed.

(** A well-formed frame at the head of the line is accepted. *)
Lemma readSDS_accepts (n : nat) (f rest : list byte) (p q : Q) :
  well_formed_frame f = true ->
  readSDS (S n) (f ++ rest) p q = mkSds true (frame_pm25 f) (frame_pm10 f) rest.
Proof.
  intros Hwf. pose proof (well_formed_length _ Hwf) as Hlen.
  destruct f as [|h body]; [discriminate|].
  pose proof (well_formed_header _ _ Hwf) as Hh.
  assert (Hb : List.length body = 9%nat) by (cbn in Hlen; lia).
  cbn [app]. rewrite readSDS_header by assumption.
  rewrite (body_valid_well_formed h) by assumption. rewrite Hwf.
  do 9 (destruct body as [|? body]; [discriminate|]).
  unfold frame_pm25, frame_pm10, raw16, le16. cbn [buf_at nth].
  rewrite !lor_shift_byte by apply u8_range.
  reflexivity.
Qed.

(** Both side conditions on a garbage prefix pass to its suffixes. *)
Lemma contains_frame_tail (b : byte) (l : list byte) :
  contains_frame (b :: l) = false -> contains_frame l = false.
Proof. cbn [contains_frame]. intros H. now apply orb_false_elim in H. Qed.

Lemma contains_frame_skipn (k : nat) (l : list byte) :
  contains_frame l = false -> contains_frame (skipn k l) = false.
Proof.
  revert l. induction k as [|k IH]; intros l H; [exact H|].
  destruct l as [|b l]; [exact H|].
  cbn [skipn]. apply IH. now apply contains_frame_tail in H.
Qed.

Lemma lastn_cons {A} (n : nat) (b : A) (l : list A) :
  lastn n (b :: l) = if Nat.leb n (List.length l) then lastn n l else b :: l.
Proof.
  unfold lastn. cbn [List.length].
  destruct (Nat.leb_spec n (List.length l)) as [Hle|Hlt].
  - replace (S (List.length l) - n)%nat with (S (List.length l - n)) by lia.
    reflexivity.
  - replace (S (List.length l) - n)%nat with 0%nat by lia. reflexivity.
Qed.

Lemma lastn_short {A} (n : nat) (l : list A) :
  (List.length l <= n)%nat -> lastn n l = l.
Proof.
  intros H. unfold lastn.
  replace (List.length l - n)%nat with 0%nat by lia. reflexivity.
Qed.

Lemma clean_tail_tail (b : byte) (l : list byte) :
  clean_tail (b :: l) = true -> clean_tail l = true.
Proof.
  unfold clean_tail. rewrite lastn_cons.
  destruct (Nat.leb_spec 9 (List.length l)) as [Hle|Hlt]; [trivial|].
  rewrite lastn_short by lia. cbn [forallb]. intros H.
  now apply andb_prop in H.
Qed.

Lemma clean_tail_skipn (k : nat) (l : list byte) :
  clean_tail l = true -> clean_tail (skipn k l) = true.
Proof.
  revert l. induction k as [|k IH]; intros l H; [exact H|].
  destruct l as [|b l]; [exact H|].
  cbn [skipn]. apply IH. now apply clean_tail_tail in H.
Qed.

(** A header byte in a clean-tailed prefix has its nine followers inside
    the prefix. *)
Lemma clean_tail_header_room (b : byte) (l : list byte) :
  clean_tail (b :: l) = true -> u8 b = SDS_HEADER1 -> (9 <= List.length l)%nat.
Proof.
  unfold clean_tail. rewrite lastn_cons.
  destruct (Nat.leb_spec 9 (List.length l)) as [Hle|Hlt]; [trivial|].
  cbn [forallb]. intros H Hb. rewrite Hb in H. discriminate.
Qed.

(** Resynchronisation: scanning such a prefix ends exactly at its end, after
    at most one loop iteration per byte. *)
Lemma readSDS_resync (m : nat) : forall prefix : list byte,
  (List.length prefix <= m)%nat ->
  contains_frame prefix = false -> clean_tail prefix = true ->
  exists k : nat, (k <= List.length prefix)%nat /\
    forall n tail p q,
      readSDS (k + n)%nat (prefix ++ tail) p q = readSDS n tail p q.
Proof.
  induction m as [|m IH]; intros prefix Hlen Hnf Hct.
  - destruct prefix; [|cbn in Hlen; lia]. exists 0%nat. split; [lia|reflexivity].
  - destruct prefix as [|b l]; [exists 0%nat; split; [cbn; lia|reflexivity]|].
    cbn [List.length] in Hlen.
    destruct (Z.eq_dec (u8 b) SDS_HEADER1) as [Hb|Hb].
    + pose proof (clean_tail_header_room _ _ Hct Hb) as Hroom.
      destruct (IH (skipn 9 l)) as (k & Hk & Hrun).
      * rewrite length_skipn. lia.
      * apply contains_frame_skipn. now apply contains_frame_tail in Hnf.
      * apply clean_tail_skipn. now apply clean_tail_tail in Hct.
      * rewrite length_skipn in Hk.
        exists (S k). split; [cbn [List.length]; lia|].
        intros n tail p q.
        assert (Hfl : List.length (firstn 9 l) = 9%nat)
          by (rewrite length_firstn; lia).
        rewrite <- (firstn_skipn 9 l) at 1.
        cbn [app Nat.add]. rewrite <- app_assoc.
        rewrite readSDS_header by assumption.
        rewrite (body_valid_well_formed b) by assumption.
        cbn [contains_frame] in Hnf. apply orb_false_elim in Hnf as [Hnf _].
        change (firstn 10 (b :: l)) with (b :: firstn 9 l) in Hnf.
        rewrite Hnf. apply Hrun.
    + apply contains_frame_tail in Hnf. apply clean_tail_tail in Hct.
      destruct (IH l) as (k & Hk & Hrun); [lia|assumption|assumption|].
      exists (S k). split; [cbn [List.length]; lia|].
      intros n tail p q. cbn [app Nat.add].
      rewrite readSDS_skip by assumption. apply Hrun.
Qed.

(** When the call fails the reference parameters are untouched. *)
Lemma readSDS_fail_keeps (window : nat) : forall (rx : list byte) (p q : Q),
  sds_ok (readSDS window rx p q) = false ->
  sds_pm25 (readSDS window rx p q) = p /\ sds_pm10 (readSDS window rx p q) = q.
Proof.
  induction window as [|w IH]; intros rx p q; [cbn; auto|].
  cbn [readSDS]. destruct rx as [|first rx1]; [apply IH|].
  destruct (negb (u8 first =? SDS_HEADER1)); [apply IH|].
  destruct (readBytes 9 rx1) as [body rx2].
  destruct (negb (Z.of_nat (List.length body) =? SDS_FRAME_LEN - 1)); [apply IH|].
  destruct (negb (buf_at body 1 =? SDS_HEADER2) || negb (buf_at body 9 =? SDS_TAIL));
    [apply IH|].
  destruct (negb (frame_checksum body =? buf_at body 8)); [apply IH|].
  cbn. discriminate.
Qed.

(** C2, as stated, fails: a header byte inside the garbage makes the decoder
    swallow the first bytes of the well-formed frame that follows, which is
    then never accepted, however long the read window; and a read window
    that closes while the garbage is being skipped ends the call before the
    frame is reached. *)
Lemma readSDS_header_in_garbage_loses_frame :
  contains_frame [x17; xaa; x05] = false /\
  well_formed_frame sample_frame = true /\
  readSDS 1000 ([x17; xaa; x05] ++ sample_frame) 0 0 = mkSds false 0 0 [] /\
  contains_frame [x17; x05; x01] = false /\
  sds_ok (readSDS 3 ([x17; x05; x01] ++ sample_frame) 0 0) = false.
Proof. vm_compute. repeat split; reflexivity. Qed.

(** C2 (amended): after a garbage prefix that holds no well-formed frame and
    no header byte among its last nine bytes, a well-formed frame is accepted
    as soon as the read window allows one loop iteration per garbage byte and
    one more; the call returns the little-endian PM values divided by ten and
    leaves exactly the bytes after the frame unread. *)
Theorem readSDS_garbage_then_frame :
  forall (prefix frame rest : list byte) (window : nat) (pm25 pm10 : Q),
    contains_frame prefix = false ->
    clean_tail prefix = true ->
    well_formed_frame frame = true ->
    (List.length prefix < window)%nat ->
    readSDS window (prefix ++ frame ++ rest) pm25 pm10 =
    mkSds true
      (inject_Z (le16 (nth 2 frame x00) (nth 3 frame x00)) / 10)
      (inject_Z (le16 (nth 4 frame x00) (nth 5 frame x00)) / 10)
      rest.
Proof.
  intros prefix frame rest window pm25 pm10 Hnf Hct Hwf Hwin.
  destruct (readSDS_resync (List.length prefix) prefix (le_n _) Hnf Hct)
    as (k & Hk & Hrun).
  replace window with (k + S (window - k - 1))%nat by lia.
  rewrite Hrun. now rewrite readSDS_accepts.
Qed.

Lemma readSDS_garbage_then_frame_witness :
  contains_frame [x17; x05] = false /\
  clean_tail [x17; x05] = true /\
  well_formed_frame sample_frame = true /\
  readSDS 3 ([x17; x05] ++ sample_frame ++ [x09]) 0 0 =
  mkSds true
    (inject_Z (le16 (nth 2 sample_frame x00) (nth 3 sample_frame x00)) / 10)
    (inject_Z (le16 (nth 4 sample_frame x00) (nth 5 sample_frame x00)) / 10)
    [x09].
Proof.
  assert (H1 : contains_frame [x17; x05] = false) by reflexivity.
  assert (H2 : clean_tail [x17; x05] = true) by reflexivity.
  assert (H3 : well_formed_frame sample_frame = true) by reflexivity.
  split; [exact H1|]. split; [exact H2|]. split; [exact H3|].
  apply (readSDS_garbage_then_frame [x17; x05] sample_frame [x09] 3 0 0 H1 H2 H3).
  cbn. lia.
Defined.

(** C3: ten bytes that start with the header but whose secondary header,
    tail or checksum is wrong are dropped as a whole: the call goes on as if
    it had started on the bytes after them with one iteration less, the
    reference parameters still holding what the caller passed; and whenever
    the call ends in failure the reference parameters are untouched. *)
Theorem readSDS_rejects_mismatch :
  forall (f rest : list byte) (window : nat) (pm25 pm10 : Q),
    List.length f = 10%nat ->
    u8 (nth 0 f x00) = 0xAA ->
    (u8 (nth 1 f x00) <> 0xC0 \/
     u8 (nth 9 f x00) <> 0xAB \/
     u8 (nth 8 f x00) <>
       (u8 (nth 2 f x00) + u8 (nth 3 f x00) + u8 (nth 4 f x00)
        + u8 (nth 5 f x00) + u8 (nth 6 f x00) + u8 (nth 7 f x00)) mod 256) ->
    readSDS (S window) (f ++ rest) pm25 pm10 = readSDS window rest pm25 pm10
    /\ (sds_ok (readSDS (S window) (f ++ rest) pm25 pm10) = false ->
        sds_pm25 (readSDS (S window) (f ++ rest) pm25 pm10) = pm25 /\
        sds_pm10 (readSDS (S window) (f ++ rest) pm25 pm10) = pm10).
Proof.
  intros f rest window pm25 pm10 Hlen Hh Hbad.
  split; [|apply readSDS_fail_keeps].
  destruct f as [|h body]; [discriminate|].
  assert (Hb : List.length body = 9%nat) by (cbn in Hlen; lia).
  cbn [nth] in Hh. cbn [app].
  rewrite readSDS_header by assumption.
  rewrite (body_valid_well_formed h) by assumption.
  do 9 (destruct body as [|? body]; [discriminate|]).
  destruct body; [|discriminate].
  cbn [nth] in Hbad. cbn [well_formed_frame].
  destruct Hbad as [H|[H|H]]; apply Z.eqb_neq in H; rewrite H;
    rewrite ?andb_false_r; reflexivity.
Qed.

Lemma readSDS_rejects_mismatch_witness :
  readSDS 2 (corrupt_frame ++ sample_frame) 7 9 = readSDS 1 sample_frame 7 9
  /\ (sds_ok (readSDS 2 (corrupt_frame ++ [x01]) 7 9) = false ->
      sds_pm25 (readSDS 2 (corrupt_frame ++ [x01]) 7 9) = 7%Q /\
      sds_pm10 (readSDS 2 (corrupt_frame ++ [x01]) 7 9) = 9%Q).
Proof.
  split.
  - apply (readSDS_rejects_mismatch corrupt_frame sample_frame 1 7 9);
      [reflexivity | reflexivity |].
    right. right. vm_compute. discriminate.
  - apply (readSDS_rejects_mismatch corrupt_frame [x01] 1 7 9);
      [reflexivity | reflexivity |].
    right. right. vm_compute. discriminate.
Defined.

(** A call of [readSDS] that fails leaves both reference parameters as
    the caller passed them, whatever the stream and the read window. *)
Theorem readSDS_failure_leaves_outputs :
  forall (window : nat) (rx : list byte) (pm25 pm10 : Q),
    sds_ok (readSDS window rx pm25 pm10) = false ->
    sds_pm25 (readSDS window rx pm25 pm10) = pm25
    /\ sds_pm10 (readSDS window rx pm25 pm10) = pm10.
Proof. intros window rx pm25 pm10. apply readSDS_fail_keeps. Qed.

Lemma readSDS_failure_leaves_outputs_witness :
  sds_pm25 (readSDS 40 (corrupt_frame ++ [x01; xaa; xc0]) 7 9) = 7%Q
  /\ sds_pm10 (readSDS 40 (corrupt_frame ++ [x01; xaa; xc0]) 7 9) = 9%Q.
Proof.
  apply (readSDS_failure_leaves_outputs 40 (corrupt_frame ++ [x01; xaa; xc0]) 7 9).
  reflexivity.
Defined.

End SDSFacts.

(** ** Gas resistance to pseudo-VOC *)

Module VocFacts.
Import Voc.

Local Open Scope R_scope.

Lemma ln_10_pos : 0 < ln 10.
Proof. rewrite <- ln_1. apply ln_increasing; lra. Qed.

Lemma log10_1 : log10 1 = 0.
Proof. unfold log10. rewrite ln_1. unfold Rdiv. apply Rmult_0_l. Qed.

Lemma log10_pow10 (n : nat) : log10 (10 ^ n) = INR n.
Proof.
  unfold log10. rewrite ln_pow by lra.
  field. apply Rgt_not_eq, ln_10_pos.
Qed.

Lemma gasToVoc_clamp (x : R) :
  gasToVoc x = if Rle_dec x 0 then 150 else clamp (50 + 80 * log10 x) 50 800.
Proof.
  unfold gasToVoc, clamp, Rmin, Rmax.
  destruct (Rle_dec x 0); [reflexivity|].
  cbv zeta.
  destruct (Rlt_dec (50 + log10 x * 80) 50);
    destruct (Rle_dec (50 + 80 * log10 x) 50);
    try lra;
    match goal with
    | |- (if Rgt_dec ?a ?b then _ else _) = (if Rle_dec ?c ?d then _ else _) =>
        destruct (Rgt_dec a b); destruct (Rle_dec c d); lra
    end.
Qed.

Lemma gasToVoc_100000 : gasToVoc 100000 = 450.
Proof.
  assert (H5 : log10 100000 = 5).
  { replace 100000 with (10 ^ 5) by (simpl; lra).
    rewrite log10_pow10. simpl. lra. }
  rewrite gasToVoc_clamp. unfold clamp, Rmin, Rmax. rewrite H5.
  destruct (Rle_dec 100000 0); [lra|].
  destruct (Rle_dec (50 + 80 * 5) 50); [lra|].
  destruct (Rle_dec (50 + 80 * 5) 800); lra.
Qed.

(** C7: [gasToVoc] maps 0, 1, 100000 and 10000000 to 150, 50, 450 and 610,
    and on every input it is 150 when the input is at most 0 and
    [clamp (50 + 80 * log10 gasOhms) 50 800] otherwise. *)
Theorem gasToVoc_values :
  gasToVoc 0 = 150 /\ gasToVoc 1 = 50 /\ gasToVoc 100000 = 450
  /\ gasToVoc 10000000 = 610
  /\ forall gasOhms : R,
       gasToVoc gasOhms =
       if Rle_dec gasOhms 0 then 150
       else clamp (50 + 80 * log10 gasOhms) 50 800.
Proof.
  assert (H5 : log10 100000 = 5).
  { replace 100000 with (10 ^ 5) by (simpl; lra).
    rewrite log10_pow10. simpl. lra. }
  assert (H7 : log10 10000000 = 7).
  { replace 10000000 with (10 ^ 7) by (simpl; lra).
    rewrite log10_pow10. simpl. lra. }
  repeat split; try apply gasToVoc_clamp;
    rewrite gasToVoc_clamp; unfold clamp, Rmin, Rmax.
  - destruct (Rle_dec 0 0); lra.
  - rewrite log10_1. destruct (Rle_dec 1 0); [lra|].
    destruct (Rle_dec (50 + 80 * 0) 50); [|lra].
    destruct (Rle_dec 50 800); lra.
  - rewrite H5. destruct (Rle_dec 100000 0); [lra|].
    destruct (Rle_dec (50 + 80 * 5) 50); [lra|].
    destruct (Rle_dec (50 + 80 * 5) 800); lra.
  - rewrite H7. destruct (Rle_dec 10000000 0); [lra|].
    destruct (Rle_dec (50 + 80 * 7) 50); [lra|].
    destruct (Rle_dec (50 + 80 * 7) 800); lra.
Qed.

End VocFacts.

(** ** Pulse counter *)

Module GeigerFacts.
Import Geiger.

Lemma wrap32_range (z : Z) : 0 <= wrap32 z < 4294967296.
Proof. unfold wrap32. apply Z.mod_pos_bound. lia. Qed.

Lemma edges_succ (n : N) (c : Z) :
  edges (N.succ n) c = onGeigerPulse (edges n c).
Proof. unfold edges. apply N.iter_succ. Qed.

(** [n] increments add [n] to the counter, modulo [2^32]. *)
Lemma edges_count (n : N) (c : Z) :
  0 <= c < 4294967296 ->
  edges n c = wrap32 (c + Z.of_N n).
Proof.
  intros Hc. induction n as [|n IH] using N.peano_ind.
  - cbn. unfold wrap32. rewrite Z.add_0_r. symmetry. now apply Z.mod_small.
  - rewrite edges_succ, IH. unfold onGeigerPulse, wrap32.
    rewrite Zplus_mod_idemp_l. f_equal. lia.
Qed.

Lemma edges_range (n : N) (c : Z) :
  0 <= c < 4294967296 -> 0 <= edges n c < 4294967296.
Proof. intros Hc. rewrite edges_count by exact Hc. apply wrap32_range. Qed.

(** The reads of a schedule and the counter it leaves add up to the number
    of edges: no pulse is lost and none is counted twice. *)
Lemma run_schedule_conserves (s : list step) : forall c : Z,
  0 <= c < 4294967296 ->
  wrap32 (fold_right Z.add 0 (fst (run_schedule s c)) + snd (run_schedule s c))
  = wrap32 (c + count_edges s).
Proof.
  induction s as [|[|] s IH]; intros c Hc.
  - cbn. now rewrite Z.add_0_r.
  - cbn [run_schedule count_edges]. rewrite IH by apply wrap32_range.
    unfold onGeigerPulse, wrap32. rewrite Zplus_mod_idemp_l. f_equal. lia.
  - cbn [run_schedule read_and_reset count_edges].
    destruct (run_schedule s 0) as [reads cf] eqn:E.
    cbn [fst snd fold_right].
    specialize (IH 0 ltac:(lia)). rewrite E in IH. cbn [fst snd] in IH.
    rewrite <- Z.add_assoc. unfold wrap32 in *.
    rewrite <- Zplus_mod_idemp_r, IH, Zplus_mod_idemp_r.
    f_equal.
Qed.

(** *** Interleavings *)

Lemma wrap32_succ (z : Z) : wrap32 (wrap32 z + 1) = wrap32 (z + 1).
Proof. unfold wrap32. apply Zplus_mod_idemp_l. Qed.

Lemma consistent0 : consistent machine0.
Proof.
  unfold consistent, machine0. cbn.
  repeat split; try discriminate; try lia; try congruence.
  intros [H|[H|H]]; discriminate.
Qed.

(** Every instruction of the guarded machine keeps it consistent. *)
Lemma instr_consistent (a : agent) (m : machine) :
  consistent m -> consistent (instr true a m).
Proof.
  destruct m as [c mx hp cp p h s].
  unfold consistent. cbn [counter mux hpc cpc pulses handled seen].
  intros (Hh & Hm1 & Hm2 & Ht & Hacc).
  destruct a.
  - (* the handler *)
    destruct hp as [| |tmp|]; cbn [instr hpc mux counter cpc pulses handled seen].
    + destruct mx; cbn [counter mux hpc cpc pulses handled seen].
      * split; [lia|]. split; [split; [discriminate|reflexivity]|].
        split; [split; [discriminate|]|].
        { intros Hc. apply Hm2 in Hc. discriminate. }
        split; [discriminate|exact Hacc].
      * exact (conj Hh (conj Hm1 (conj Hm2 (conj Ht Hacc)))).
      * exact (conj Hh (conj Hm1 (conj Hm2 (conj Ht Hacc)))).
    + assert (mx = ByHandler) by (apply Hm1; discriminate). subst mx.
      split; [lia|]. split; [split; [discriminate|reflexivity]|].
      split; [exact Hm2|]. split; [now intros t [= <-]|exact Hacc].
    + assert (mx = ByHandler) by (apply Hm1; discriminate). subst mx.
      specialize (Ht tmp eq_refl). subst tmp.
      split; [lia|]. split; [split; [discriminate|reflexivity]|].
      split; [exact Hm2|]. split; [discriminate|].
      destruct cp.
      * rewrite Hacc, wrap32_succ. reflexivity.
      * exfalso. assert (ByHandler = ByLoop) by (apply Hm2; now left). discriminate.
      * exfalso. assert (ByHandler = ByLoop) by (apply Hm2; right; now left).
        discriminate.
      * destruct Hacc as (Hp & Hc & Hs). split; [exact Hp|]. split; [|lia].
        rewrite Hc, wrap32_succ. f_equal. lia.
      * destruct Hacc as (Hp & Hc & Hs). split; [exact Hp|]. split; [|lia].
        rewrite Hc, wrap32_succ. f_equal. lia.
    + assert (mx = ByHandler) by (apply Hm1; discriminate). subst mx.
      split; [lia|]. split; [split; [discriminate|congruence]|].
      split; [split; [discriminate|]|].
      { intros Hc. apply Hm2 in Hc. discriminate. }
      split; [discriminate|exact Hacc].
  - (* the window close *)
    destruct cp; cbn [instr hpc mux counter cpc pulses handled seen].
    + destruct mx; cbn [counter mux hpc cpc pulses handled seen].
      * split; [lia|]. split; [split; [discriminate|]|].
        { intros Hc. apply Hm1 in Hc. discriminate. }
        split; [split; [now left|reflexivity]|]. split; [exact Ht|exact Hacc].
      * exact (conj Hh (conj Hm1 (conj Hm2 (conj Ht Hacc)))).
      * exact (conj Hh (conj Hm1 (conj Hm2 (conj Ht Hacc)))).
    + assert (mx = ByLoop) by (apply Hm2; now left). subst mx.
      split; [lia|]. split; [exact Hm1|].
      split; [split; [right; now left|reflexivity]|]. split; [exact Ht|].
      now repeat split.
    + assert (mx = ByLoop) by (apply Hm2; right; now left). subst mx.
      destruct Hacc as (Hc & Hp & Hs).
      assert (hp = HIdle).
      { destruct hp; try reflexivity;
          assert (ByLoop = ByHandler) by (apply Hm1; discriminate); discriminate. }
      subst hp.
      split; [lia|]. split; [exact Hm1|].
      split; [split; [right; now right|reflexivity]|]. split; [discriminate|].
      split; [congruence|]. split; [|lia].
      rewrite Hs, Z.sub_diag. reflexivity.
    + assert (mx = ByLoop) by (apply Hm2; right; now right). subst mx.
      split; [lia|]. split; [split; [discriminate|]|].
      { intros Hc. apply Hm1 in Hc. discriminate. }
      split; [split; [discriminate|]|].
      { intros [H|[H|H]]; discriminate. }
      split; [exact Ht|exact Hacc].
    + exact (conj Hh (conj Hm1 (conj Hm2 (conj Ht Hacc)))).
Qed.

(** Whatever the interleaving, the guarded machine stays consistent. *)
Lemma interleave_consistent (sched : list agent) : forall m : machine,
  consistent m -> consistent (interleave true sched m).
Proof.
  unfold interleave.
  induction sched as [|a sched IH]; intros m H; [exact H|].
  cbn [fold_left]. apply IH. now apply instr_consistent.
Qed.

(** Run without interruption, the handler is [onGeigerPulse] and the
    window close is [read_and_reset]. *)
Lemma handler_run_atomic (m : machine) :
  hpc m = HIdle -> mux m = Free ->
  interleave true handler_run m
  = mkMachine (onGeigerPulse (counter m)) Free HIdle (cpc m)
              (pulses m) (handled m + 1) (seen m).
Proof.
  destruct m as [c mx hp cp p h s]. cbn [hpc mux]. intros -> ->. reflexivity.
Qed.

Lemma close_run_atomic (m : machine) :
  cpc m = CBefore -> mux m = Free ->
  interleave true close_run m
  = mkMachine (snd (read_and_reset (counter m))) Free (hpc m) CDone
              (fst (read_and_reset (counter m))) (handled m) (handled m).
Proof.
  destruct m as [c mx hp cp p h s]. cbn [cpc mux]. intros -> ->. reflexivity.
Qed.

Lemma interleave_app (g : bool) (s1 s2 : list agent) (m : machine) :
  interleave g (s1 ++ s2) m = interleave g s2 (interleave g s1 m).
Proof. unfold interleave. apply fold_left_app. Qed.

(** [k] runs of the handler in a row. *)
Lemma handler_runs (k : nat) : forall m : machine,
  hpc m = HIdle -> mux m = Free ->
  interleave true (List.concat (repeat handler_run k)) m
  = mkMachine (edges (N.of_nat k) (counter m)) Free HIdle (cpc m)
              (pulses m) (handled m + Z.of_nat k) (seen m).
Proof.
  induction k as [|k IH]; intros m Hh Hm.
  - destruct m as [c mx hp cp p h s]. cbn in *. subst. now rewrite Z.add_0_r.
  - cbn [repeat List.concat]. rewrite interleave_app, handler_run_atomic by assumption.
    rewrite IH by reflexivity. cbn [counter cpc pulses handled seen].
    unfold edges. rewrite Nat2N.inj_succ, N.iter_succ_r.
    f_equal. lia.
Qed.

(** Without the critical sections an increment that falls between the read
    and the clear of the window close is lost. *)
Lemma lost_update_without_mutex :
  interleave false
    [Main; Main; Handler; Handler; Handler; Handler; Main; Main] machine0
  = mkMachine 0 Free HIdle CDone 0 1 0.
Proof. reflexivity. Qed.

(** C6, as stated, fails on a [uint32_t] counter: after [2^32] increments
    the window-close read observes 0. *)
Lemma read_after_2pow32_edges_is_0 :
  fst (read_and_reset (edges 4294967296 0)) = 0.
Proof. cbn [read_and_reset fst]. now rewrite edges_count. Qed.

(** C6 (amended): after [n] runs of the interrupt handler on a freshly
    reset counter the window-close read observes [n] modulo [2^32] (exactly
    [n] when [n < 2^32]) and resets the counter, so that a second read with
    no run of the handler in between observes 0; this holds of the atomic
    steps and of the instruction streams run one after the other.  And
    however the instructions of handler runs and of a window close are
    interleaved under the mutex, the two are never both inside their
    critical sections, the read returns the number of increments stored
    before it, and the counter then holds the number stored since (both
    modulo [2^32]). *)
Theorem pulses_read_and_reset (n : N) (sched : list agent) :
  fst (read_and_reset (edges n 0)) = Z.of_N n mod 4294967296
  /\ snd (read_and_reset (edges n 0)) = 0
  /\ fst (read_and_reset (snd (read_and_reset (edges n 0)))) = 0
  /\ (Z.of_N n < 4294967296 -> fst (read_and_reset (edges n 0)) = Z.of_N n)
  /\ run_schedule (repeat Edge (N.to_nat n) ++ [Close; Close]) 0
     = ([Z.of_N n mod 4294967296; 0], 0)
  /\ interleave true (List.concat (repeat handler_run (N.to_nat n)) ++ close_run) machine0
     = mkMachine 0 Free HIdle CDone (Z.of_N n mod 4294967296) (Z.of_N n) (Z.of_N n)
  /\ ~ (hpc (interleave true sched machine0) <> HIdle
        /\ (cpc (interleave true sched machine0) = CEntered
            \/ cpc (interleave true sched machine0) = CRead
            \/ cpc (interleave true sched machine0) = CCleared))
  /\ (cpc (interleave true sched machine0) = CDone ->
      pulses (interleave true sched machine0)
      = seen (interleave true sched machine0) mod 4294967296
      /\ counter (interleave true sched machine0)
         = (handled (interleave true sched machine0)
            - seen (interleave true sched machine0)) mod 4294967296
      /\ 0 <= seen (interleave true sched machine0)
              <= handled (interleave true sched machine0)).
Proof.
  cbn [read_and_reset fst snd].
  assert (E : edges n 0 = Z.of_N n mod 4294967296)
    by (rewrite edges_count by lia; reflexivity).
  split; [exact E|]. split; [reflexivity|]. split; [reflexivity|].
  split; [intros Hn; rewrite E; apply Z.mod_small; lia|].
  split.
  { assert (R : forall k c, run_schedule (repeat Edge k ++ [Close; Close]) c
                            = ([N.iter (N.of_nat k) onGeigerPulse c; 0], 0)).
    { induction k as [|k IH]; intros c; [reflexivity|].
      cbn [repeat app run_schedule]. rewrite IH.
      rewrite Nat2N.inj_succ, N.iter_succ_r. reflexivity. }
    rewrite R, N2Nat.id. fold (edges n 0). now rewrite E. }
  split.
  { rewrite interleave_app, handler_runs by reflexivity.
    rewrite close_run_atomic by reflexivity.
    cbn [counter hpc handled read_and_reset fst snd machine0].
    rewrite N2Nat.id, E, N_nat_Z. reflexivity. }
  pose proof (interleave_consistent sched machine0 consistent0) as C.
  destruct (interleave true sched machine0) as [c mx hp cp p h s].
  unfold consistent in C. cbn [counter mux hpc cpc pulses handled seen] in *.
  destruct C as (Hh & Hm1 & Hm2 & _ & Hacc).
  split.
  - intros [Hhp Hcp]. apply Hm1 in Hhp. apply Hm2 in Hcp. congruence.
  - intros ->. destruct Hacc as (Hp & Hc & Hs). unfold wrap32 in *.
    split; [exact Hp|]. split; [exact Hc|lia].
Qed.

Lemma pulses_read_and_reset_witness :
  fst (read_and_reset (edges 7 0)) = 7
  /\ run_schedule (repeat Edge 7 ++ [Close; Close]) 0 = ([7; 0], 0)
  /\ pulses (interleave true
               [Handler; Main; Handler; Handler; Main; Handler; Main; Main;
                Handler; Main; Main; Handler]
               machine0) = 1.
Proof.
  destruct (pulses_read_and_reset 7
              [Handler; Main; Handler; Handler; Main; Handler; Main; Main;
               Handler; Main; Main; Handler])
    as (_ & _ & _ & H & R & _ & _ & D).
  split; [apply H; reflexivity|]. split; [exact R|].
  destruct (D eq_refl) as (Hp & _). exact Hp.
Defined.


(** Over any sequence of handler runs and window closes, starting from a
    reset counter, the values the closes read and the final counter add up
    to the number of handler runs, modulo [2^32]. *)
Theorem pulses_conserved (s : list step) :
  (fold_right Z.add 0 (fst (run_schedule s 0)) + snd (run_schedule s 0))
    mod 4294967296
  = count_edges s mod 4294967296.
Proof.
  pose proof (run_schedule_conserves s 0 ltac:(lia)) as H.
  unfold wrap32 in H. exact H.
Qed.

End GeigerFacts.

(** ** Facts about the network and transport model *)

Module NetFacts.
Import Net NetObs.

Section Facts.

Variable float : Type.
Variable cfg : Net.Config.
Variable env : Net.Env.

Local Abbreviation World := (Net.World float).
Local Abbreviation event := (Net.event float).
Local Abbreviation M := (Net.M float).
Local Abbreviation ret := (Net.ret float).
Local Abbreviation bind := (Net.bind float).
Local Abbreviation emit := (Net.emit float).
Local Abbreviation delay := (Net.delay float env).
Local Abbreviation wifi_status := (Net.wifi_status float env).
Local Abbreviation time_now := (Net.time_now float).
Local Abbreviation set_clock := (Net.set_clock float).
Local Abbreviation settimeofday := (Net.settimeofday float).
Local Abbreviation http_POST := (Net.http_POST float cfg env).
Local Abbreviation compile_time := (Net.compile_time cfg env).
Local Abbreviation bootstrapTimeIfNeeded := (Net.bootstrapTimeIfNeeded float cfg env).
Local Abbreviation ntp_wait := (Net.ntp_wait float).
Local Abbreviation trySyncTimeNtp := (Net.trySyncTimeNtp float env).
Local Abbreviation ensureTimeSynced := (Net.ensureTimeSynced float cfg env).
Local Abbreviation poll_link := (Net.poll_link float env).
Local Abbreviation connectWiFi := (Net.connectWiFi float cfg env).
Local Abbreviation link_round := (Net.link_round float env).
Local Abbreviation link_established := (Net.link_established float cfg env).
Local Abbreviation reconnect_if_down := (Net.reconnect_if_down float cfg env).
Local Abbreviation plausible_stamp := (NetObs.plausible_stamp cfg env).
Local Abbreviation time_ok := (NetObs.time_ok cfg env).
Local Abbreviation Step := (NetObs.Step env).
Local Abbreviation Quiet := (NetObs.Quiet env).
Local Abbreviation delivery := (NetObs.delivery cfg env).
Local Abbreviation checkInternetReachable := (Net.checkInternetReachable float env).
Local Abbreviation beginHttps := (Net.beginHttps cfg env).
Local Abbreviation post_attempts := (Net.post_attempts float cfg env).
Local Abbreviation postReading := (Net.postReading float cfg env).
Local Abbreviation PLAUSIBLE_EPOCH := Net.PLAUSIBLE_EPOCH.

(** *** The monad *)

Lemma bind_Some {A B} (m : M A) (k : A -> M B) (w w2 : World) (b : B) :
  bind m k w = Some (b, w2) ->
  exists a w1, m w = Some (a, w1) /\ k a w1 = Some (b, w2).
Proof.
  unfold Net.bind. destruct (m w) as [[a w1]|]; [|discriminate].
  intros H. now exists a, w1.
Qed.

Lemma bind_None {A B} (m : M A) (k : A -> M B) (w : World) :
  m w = None -> bind m k w = None.
Proof. unfold Net.bind. now intros ->. Qed.

Lemma bind_step {A B} (m : M A) (k : A -> M B) (w w1 : World) (a : A) :
  m w = Some (a, w1) -> bind m k w = k a w1.
Proof. unfold Net.bind. now intros ->. Qed.

(** *** Consistent extensions of a world *)

Lemma Step_refl (w : World) : Step w w [].
Proof.
  constructor; cbn; rewrite ?app_nil_r, ?Nat.add_0_r; reflexivity.
Qed.

Lemma post_codes_app (a b : list event) :
  post_codes (a ++ b) = post_codes a ++ post_codes b.
Proof. apply flat_map_app. Qed.

Lemma status_polls_app (a b : list event) :
  status_polls (a ++ b) = status_polls a ++ status_polls b.
Proof. apply flat_map_app. Qed.

Lemma transport_log_app (a b : list event) :
  transport_log (a ++ b) = transport_log a ++ transport_log b.
Proof. apply flat_map_app. Qed.

Lemma post_bodies_app (a b : list event) :
  post_bodies (a ++ b) = post_bodies a ++ post_bodies b.
Proof. apply flat_map_app. Qed.

Lemma delays_at_app (s : site) (a b : list event) :
  delays_at s (a ++ b) = delays_at s a ++ delays_at s b.
Proof. apply flat_map_app. Qed.

Lemma Step_trans (w w1 w2 : World) (e1 e2 : list event) :
  Step w w1 e1 -> Step w1 w2 e2 -> Step w w2 (e1 ++ e2).
Proof.
  intros [T1 P1 L1 C1 S1] [T2 P2 L2 C2 S2].
  constructor.
  - now rewrite T2, T1, app_assoc.
  - rewrite post_codes_app, length_app. lia.
  - rewrite status_polls_app, length_app. lia.
  - rewrite post_codes_app, length_app, seq_app, map_app.
    rewrite <- C1. rewrite <- P1. now rewrite <- C2.
  - rewrite status_polls_app, length_app, seq_app, map_app.
    rewrite <- S1. rewrite <- L1. now rewrite <- S2.
Qed.

(** Quiet actions leave the transport's log empty. *)
Lemma quiet_no_posts (evs : list event) :
  forallb quiet evs = true -> post_codes evs = [].
Proof.
  induction evs as [|e evs IH]; [reflexivity|].
  cbn [forallb]. intros H. apply andb_prop in H as [He H].
  change (e :: evs) with ([e] ++ evs). rewrite post_codes_app.
  rewrite (IH H). destruct e; try discriminate; reflexivity.
Qed.

Lemma quiet_no_transport (evs : list event) :
  forallb quiet evs = true -> transport_log evs = [].
Proof.
  induction evs as [|e evs IH]; [reflexivity|].
  cbn [forallb]. intros H. apply andb_prop in H as [He H].
  change (e :: evs) with ([e] ++ evs). rewrite transport_log_app.
  rewrite (IH H). destruct e as [| | [] | | |]; try discriminate; reflexivity.
Qed.

Lemma quiet_no_bodies (evs : list event) :
  forallb quiet evs = true -> post_bodies evs = [].
Proof.
  induction evs as [|e evs IH]; [reflexivity|].
  cbn [forallb]. intros H. apply andb_prop in H as [He H].
  change (e :: evs) with ([e] ++ evs). rewrite post_bodies_app.
  rewrite (IH H). destruct e; try discriminate; reflexivity.
Qed.

Lemma Quiet_refl (w : World) : Quiet w w [].
Proof. split; [apply Step_refl | reflexivity]. Qed.

Lemma Quiet_trans (w w1 w2 : World) (e1 e2 : list event) :
  Quiet w w1 e1 -> Quiet w1 w2 e2 -> Quiet w w2 (e1 ++ e2).
Proof.
  intros [S1 Q1] [S2 Q2]. split; [now apply Step_trans with w1|].
  rewrite forallb_app, Q1, Q2. reflexivity.
Qed.

Lemma Quiet_posts (w w' : World) (evs : list event) :
  Quiet w w' evs -> posts w' = posts w.
Proof.
  intros [S Q]. rewrite (st_posts S), (quiet_no_posts _ Q). cbn. lia.
Qed.

(** *** Primitive operations *)

Lemma emit_Quiet (e : event) (w : World) :
  quiet e = true -> post_codes [e] = [] -> status_polls [e] = [] ->
  exists w', emit e w = Some (tt, w') /\ Quiet w w' [e] /\ rtc w' = rtc w.
Proof.
  intros Hq Hp Hs. eexists. split; [reflexivity|]. split; [|reflexivity].
  split; [|cbn; now rewrite Hq].
  constructor; cbn [trace posts polls]; rewrite ?Hp, ?Hs; cbn;
    rewrite ?Nat.add_0_r; reflexivity.
Qed.

(** A [delay] logs itself and lets the clock run on; nothing else moves. *)
Lemma delay_Step (s : site) (ms : Z) (w : World) :
  exists w', delay s ms w = Some (tt, w') /\ Step w w' [EvDelay s ms]
    /\ rtc w' = rtc w + Z.of_N (wait_secs env (List.length (trace w)))
    /\ polls w' = polls w /\ lookups w' = lookups w /\ syncs w' = syncs w.
Proof.
  eexists. split; [reflexivity|]. split; [|repeat split].
  constructor; cbn [trace posts polls]; cbn; rewrite ?Nat.add_0_r; reflexivity.
Qed.

Lemma delay_Quiet (s : site) (ms : Z) (w : World) :
  s <> Backoff ->
  exists w', delay s ms w = Some (tt, w') /\ Quiet w w' [EvDelay s ms]
    /\ rtc w <= rtc w'
    /\ polls w' = polls w /\ lookups w' = lookups w /\ syncs w' = syncs w.
Proof.
  intros Hs. destruct (delay_Step s ms w) as (w' & E & St & R & F).
  exists w'. split; [exact E|]. split; [|split; [lia|exact F]].
  split; [exact St|]. destruct s; try reflexivity. congruence.
Qed.

Lemma wifi_status_Quiet (w : World) :
  exists w', wifi_status w = Some (link_up env (polls w), w')
             /\ Quiet w w' [EvStatus (link_up env (polls w))]
             /\ rtc w' = rtc w /\ polls w' = S (polls w)
             /\ lookups w' = lookups w /\ syncs w' = syncs w.
Proof.
  eexists. split; [reflexivity|].
  repeat split; cbn; rewrite ?Nat.add_0_r, ?Nat.add_1_r; reflexivity.
Qed.

Lemma set_clock_Quiet (t : Z) (w : World) :
  exists w', set_clock t w = Some (tt, w') /\ Quiet w w' [] /\ rtc w' = t
             /\ lookups w' = lookups w /\ syncs w' = syncs w.
Proof.
  eexists. split; [reflexivity|].
  repeat split; cbn; rewrite ?app_nil_r, ?Nat.add_0_r; reflexivity.
Qed.

(** *** Time *)

Lemma clock_set_Quiet (t : Z) (w : World) : Quiet w (clock_set t w) [EvSetTime t].
Proof.
  repeat split; cbn; rewrite ?Nat.add_0_r; reflexivity.
Qed.

Lemma bootstrapTimeIfNeeded_eq (w : World) :
  bootstrapTimeIfNeeded w =
  Some (if rtc w >=? PLAUSIBLE_EPOCH then (true, w)
        else match plausible_stamp with
             | Some c => (true, clock_set c w)
             | None => (false, w)
             end).
Proof.
  unfold Net.bootstrapTimeIfNeeded, NetObs.plausible_stamp, Net.bind, Net.time_now.
  destruct (rtc w >=? PLAUSIBLE_EPOCH); [reflexivity|].
  destruct compile_time as [c|]; [|reflexivity].
  destruct (c <? PLAUSIBLE_EPOCH); reflexivity.
Qed.

Lemma plausible_stamp_ge (c : Z) :
  plausible_stamp = Some c -> PLAUSIBLE_EPOCH <= c.
Proof.
  unfold NetObs.plausible_stamp. destruct compile_time as [c'|]; [|discriminate].
  destruct (Z.ltb_spec c' PLAUSIBLE_EPOCH); [discriminate|].
  intros [= <-]. assumption.
Qed.

(** The time-sync loop logs nothing, touches only the clock, and succeeds
    exactly when some poll of its window is plausible. *)
Lemma ntp_wait_spec (window : list (option Z)) : forall w : World,
  exists w', ntp_wait window w = Some (existsb plausible_poll window, w')
    /\ trace w' = trace w /\ polls w' = polls w /\ posts w' = posts w
    /\ lookups w' = lookups w /\ syncs w' = syncs w
    /\ (existsb plausible_poll window = true -> PLAUSIBLE_EPOCH <= rtc w').
Proof.
  induction window as [|[now|] rest IH]; intros w.
  - exists w. cbn. repeat split; try reflexivity. discriminate.
  - cbn [Net.ntp_wait existsb plausible_poll].
    unfold Net.bind, Net.set_clock.
    destruct (Z.geb_spec now PLAUSIBLE_EPOCH) as [Hge|Hlt]; cbn [orb].
    + eexists. split; [reflexivity|]. cbn. repeat split; try reflexivity.
      intros _. lia.
    + destruct (IH (mkWorld now (polls w) (lookups w) (syncs w) (posts w) (trace w)))
        as (w' & E & Ht & Hp & Hq & Hl & Hs & Hr).
      exists w'. repeat split; assumption.
  - cbn [Net.ntp_wait existsb plausible_poll orb]. apply IH.
Qed.

(** From an implausible clock, the time-sync loop fails exactly when it
    leaves the clock implausible. *)
Lemma ntp_wait_clock (window : list (option Z)) : forall w : World,
  rtc w < PLAUSIBLE_EPOCH ->
  exists w', ntp_wait window w = Some (existsb plausible_poll window, w')
    /\ (existsb plausible_poll window = false <-> rtc w' < PLAUSIBLE_EPOCH).
Proof.
  induction window as [|[now|] rest IH]; intros w Hw.
  - exists w. cbn. split; [reflexivity|]. split; [now intros _|reflexivity].
  - cbn [Net.ntp_wait existsb plausible_poll].
    unfold Net.bind, Net.set_clock.
    destruct (Z.geb_spec now PLAUSIBLE_EPOCH) as [Hge|Hlt]; cbn [orb].
    + eexists. split; [reflexivity|]. cbn. split; [discriminate|lia].
    + apply IH. exact Hlt.
  - cbn [Net.ntp_wait existsb plausible_poll orb]. now apply IH.
Qed.

Lemma trySyncTimeNtp_spec (w : World) :
  exists w', trySyncTimeNtp w
             = Some (existsb plausible_poll (ntp_polls env (syncs w)), w')
    /\ trace w' = trace w /\ polls w' = polls w /\ posts w' = posts w
    /\ lookups w' = lookups w /\ syncs w' = S (syncs w)
    /\ (existsb plausible_poll (ntp_polls env (syncs w)) = true ->
        PLAUSIBLE_EPOCH <= rtc w').
Proof.
  unfold Net.trySyncTimeNtp.
  destruct (ntp_wait_spec (ntp_polls env (syncs w))
              (mkWorld (rtc w) (polls w) (lookups w) (S (syncs w)) (posts w) (trace w)))
    as (w' & E & Ht & Hp & Hq & Hl & Hs & Hr).
  exists w'. repeat split; assumption.
Qed.

(** A run that only moved the clock and the time-sync counter is quiet. *)
Lemma same_trace_Quiet (w w' : World) :
  trace w' = trace w -> polls w' = polls w -> posts w' = posts w -> Quiet w w' [].
Proof.
  intros Ht Hp Hq. repeat split; cbn; rewrite ?app_nil_r, ?Nat.add_0_r; assumption.
Qed.

Lemma ensureTimeSynced_spec (w : World) :
  exists w' evs, ensureTimeSynced w = Some (time_ok w, w')
    /\ Quiet w w' evs /\ status_polls evs = []
    /\ lookups w' = lookups w
    /\ (time_ok w = true -> PLAUSIBLE_EPOCH <= rtc w')
    /\ (rtc w < PLAUSIBLE_EPOCH -> forall c, plausible_stamp = Some c ->
        rtc w' = c /\ syncs w' = syncs w).
Proof.
  unfold Net.ensureTimeSynced, NetObs.time_ok, Net.bind, Net.time_now.
  destruct (Z.geb_spec (rtc w) PLAUSIBLE_EPOCH) as [Hge|Hlt]; cbn [orb].
  - exists w, []. split; [reflexivity|]. split; [apply Quiet_refl|].
    split; [reflexivity|]. split; [reflexivity|]. split; [intros _; lia|].
    intros Hlt. lia.
  - rewrite bootstrapTimeIfNeeded_eq.
    destruct (Z.geb_spec (rtc w) PLAUSIBLE_EPOCH) as [Hge|_]; [lia|].
    destruct plausible_stamp as [c|] eqn:Hst; cbn [orb].
    + exists (clock_set c w), [EvSetTime c].
      split; [reflexivity|]. split; [apply clock_set_Quiet|].
      split; [reflexivity|]. split; [reflexivity|].
      split; [intros _; cbn; now apply plausible_stamp_ge|].
      intros _ c' [= <-]. split; reflexivity.
    + destruct (trySyncTimeNtp_spec w) as (w' & E & Ht & Hp & Hq & Hl & Hs & Hr).
      exists w', []. split; [exact E|].
      split; [now apply same_trace_Quiet|].
      split; [reflexivity|]. split; [assumption|]. split; [assumption|].
      intros _ c' [=].
Qed.

(** [ensureTimeSynced] answers false exactly when it leaves the clock
    below the threshold. *)
Lemma time_ok_false_clock (w w' : World) :
  ensureTimeSynced w = Some (time_ok w, w') ->
  (time_ok w = false <-> rtc w' < PLAUSIBLE_EPOCH).
Proof.
  unfold Net.ensureTimeSynced, NetObs.time_ok, Net.bind, Net.time_now.
  destruct (Z.geb_spec (rtc w) PLAUSIBLE_EPOCH) as [Hge|Hlt]; cbn [orb].
  - intros [= <-]. split; [discriminate|lia].
  - rewrite bootstrapTimeIfNeeded_eq.
    destruct (Z.geb_spec (rtc w) PLAUSIBLE_EPOCH) as [Hge|_]; [lia|].
    destruct plausible_stamp as [c|] eqn:Hst; cbn [orb].
    + intros [= <-]. cbn. apply plausible_stamp_ge in Hst.
      split; [discriminate|lia].
    + intros E. destruct (ntp_wait_clock (ntp_polls env (syncs w))
          (mkWorld (rtc w) (polls w) (lookups w) (S (syncs w)) (posts w) (trace w))
          Hlt) as (w2 & E2 & Hiff).
      unfold Net.trySyncTimeNtp in E. rewrite E2 in E. injection E as <-.
      exact Hiff.
Qed.

Lemma checkInternetReachable_spec (w : World) :
  exists w', checkInternetReachable w
             = Some (dns_ok env (lookups w) && tcp_ok env (lookups w), w')
    /\ Quiet w w' []
    /\ rtc w' = rtc w + Z.of_N (lookup_secs env (lookups w))
    /\ syncs w' = syncs w.
Proof.
  unfold Net.checkInternetReachable.
  destruct (dns_ok env (lookups w)); [destruct (tcp_ok env (lookups w))|];
    cbn [negb andb]; eexists; (split; [reflexivity|]);
    (split; [apply same_trace_Quiet; reflexivity|]); split; reflexivity.
Qed.

(** *** Link association *)

(** The polling loop: [k <= left] polls find the link down, each followed
    by a 250 ms wait, then one last poll ends the loop, either because the
    link is up or because the retries are used up. *)
Lemma poll_link_spec (left : nat) : forall w : World,
  exists w' evs k b,
    poll_link left w = Some (tt, w') /\ Quiet w w' evs
    /\ rtc w <= rtc w' /\ lookups w' = lookups w /\ syncs w' = syncs w
    /\ status_polls evs = repeat false k ++ [b]
    /\ (k <= left)%nat /\ (b = false -> k = left)
    /\ delays_at PollWait evs = repeat 250 k
    /\ delays_at ReconnectWait evs = [].
Proof.
  induction left as [|left IH]; intros w;
    destruct (wifi_status_Quiet w) as (w1 & E1 & Q1 & R1 & P1 & L1 & S1).
  - exists w1, [EvStatus (link_up env (polls w))], 0%nat, (link_up env (polls w)).
    cbn [Net.poll_link]. rewrite (bind_step _ _ _ _ _ E1).
    repeat split; try assumption; try reflexivity; try apply Q1; lia.
  - cbn [Net.poll_link]. rewrite (bind_step _ _ _ _ _ E1).
    destruct (link_up env (polls w)) eqn:Hup; cbn [negb].
    + exists w1, [EvStatus true], 0%nat, true.
      repeat split; try assumption; try reflexivity; try apply Q1;
        try lia; discriminate.
    + destruct (delay_Quiet PollWait 250 w1 ltac:(discriminate))
        as (w2 & E2 & Q2 & R2 & _ & L2 & S2).
      rewrite (bind_step _ _ _ _ _ E2).
      destruct (IH w2) as (w3 & evs & k & b & E3 & Q3 & R3 & L3 & S3 & Hst & Hk & Hb & Hd & Hr).
      exists w3, ([EvStatus false] ++ [EvDelay PollWait 250] ++ evs), (S k), b.
      split; [exact E3|].
      split; [apply Quiet_trans with w1; [exact Q1|];
              apply Quiet_trans with w2; assumption|].
      split; [lia|]. split; [congruence|]. split; [congruence|].
      split; [rewrite !status_polls_app, Hst; reflexivity|].
      split; [lia|]. split; [intros Hf; f_equal; auto|].
      split; [rewrite !delays_at_app, Hd; reflexivity|].
      rewrite !delays_at_app, Hr. reflexivity.
Qed.

(** One round: the polling loop and the poll that decides. *)
Lemma link_round_spec (w : World) :
  exists w' evs k b up,
    link_round w = Some (up, w') /\ Quiet w w' (evs ++ [EvStatus up])
    /\ rtc w <= rtc w' /\ lookups w' = lookups w /\ syncs w' = syncs w
    /\ status_polls evs = repeat false k ++ [b]
    /\ (k <= 40)%nat /\ (b = false -> k = 40%nat)
    /\ delays_at PollWait evs = repeat 250 k
    /\ delays_at ReconnectWait evs = []
    /\ up = link_up env (polls w + k + 1).
Proof.
  unfold Net.link_round.
  destruct (emit_Quiet EvWifiBegin w eq_refl eq_refl eq_refl) as (w1 & E1 & Q1 & R1).
  assert (F1 : lookups w1 = lookups w /\ syncs w1 = syncs w /\ polls w1 = polls w).
  { unfold Net.emit in E1. injection E1 as <-. repeat split. }
  destruct F1 as (L1 & S1 & P1).
  rewrite (bind_step _ _ _ _ _ E1).
  destruct (poll_link_spec 40 w1)
    as (w2 & evs & k & b & E2 & Q2 & R2 & L2 & S2 & Hst & Hk & Hb & Hd & Hr).
  rewrite (bind_step _ _ _ _ _ E2).
  destruct (wifi_status_Quiet w2) as (w3 & E3 & Q3 & R3 & P3 & L3 & S3).
  exists w3, ([EvWifiBegin] ++ evs), k, b, (link_up env (polls w2)).
  split; [exact E3|].
  split; [rewrite <- app_assoc; apply Quiet_trans with w1; [exact Q1|];
          apply Quiet_trans with w2; assumption|].
  split; [lia|]. split; [congruence|]. split; [congruence|].
  split; [rewrite status_polls_app, Hst; reflexivity|].
  split; [exact Hk|]. split; [exact Hb|].
  split; [rewrite delays_at_app, Hd; reflexivity|].
  split; [rewrite delays_at_app, Hr; reflexivity|].
  f_equal. destruct Q2 as [St2 _]. rewrite (st_polls St2), Hst, P1.
  rewrite length_app, repeat_length. cbn. lia.
Qed.

Lemma bootstrapTimeIfNeeded_spec (w : World) :
  exists b w' evs, bootstrapTimeIfNeeded w = Some (b, w') /\ Quiet w w' evs
    /\ status_polls evs = [] /\ lookups w' = lookups w /\ syncs w' = syncs w
    /\ (forall s, delays_at s evs = []).
Proof.
  rewrite bootstrapTimeIfNeeded_eq.
  destruct (rtc w >=? PLAUSIBLE_EPOCH);
    [|destruct plausible_stamp as [c|]].
  - exists true, w, []. split; [reflexivity|]. split; [apply Quiet_refl|].
    repeat split.
  - exists true, (NetObs.clock_set c w), [EvSetTime c].
    split; [reflexivity|]. split; [apply clock_set_Quiet|]. repeat split.
  - exists false, w, []. split; [reflexivity|]. split; [apply Quiet_refl|].
    repeat split.
Qed.

Lemma link_established_spec (w : World) :
  exists w' evs, link_established w = Some (tt, w')
    /\ Quiet w w' ([EvDnsConfig] ++ evs)
    /\ status_polls evs = [] /\ lookups w' = lookups w
    /\ (forall s, delays_at s evs = []).
Proof.
  unfold Net.link_established.
  destruct (emit_Quiet EvDnsConfig w eq_refl eq_refl eq_refl) as (w1 & E1 & Q1 & R1).
  assert (L1 : lookups w1 = lookups w).
  { unfold Net.emit in E1. now injection E1 as <-. }
  rewrite (bind_step _ _ _ _ _ E1).
  destruct (bootstrapTimeIfNeeded_spec w1) as (b & w2 & evs & E2 & Q2 & Hs & L2 & S2 & Hd).
  rewrite (bind_step _ _ _ _ _ E2).
  destruct (trySyncTimeNtp_spec w2) as (w3 & E3 & Ht & Hp & Hq & L3 & S3 & _).
  rewrite (bind_step _ _ _ _ _ E3).
  exists w3, evs. split; [reflexivity|].
  split.
  - apply Quiet_trans with w1; [exact Q1|].
    rewrite <- (app_nil_r evs). apply Quiet_trans with w2; [exact Q2|].
    now apply same_trace_Quiet.
  - split; [exact Hs|]. split; [congruence|exact Hd].
Qed.

(** Unfolding [connectWiFi] by rounds. *)
Lemma connectWiFi_round (fuel : nat) (w : World) :
  connectWiFi (S fuel) w =
  match link_round w with
  | Some (true, w1) => link_established w1
  | Some (false, w1) => bind (delay ReconnectWait 3000) (fun _ => connectWiFi fuel) w1
  | None => None
  end.
Proof.
  cbn [Net.connectWiFi]. unfold Net.link_round, Net.link_established, Net.bind.
  destruct (emit EvWifiBegin w) as [[[] w1]|]; [|reflexivity].
  destruct (poll_link 40 w1) as [[[] w2]|]; [|reflexivity].
  destruct (wifi_status w2) as [[[] w3]|]; reflexivity.
Qed.

(** Whenever [connectWiFi] returns, its log is that of a successful
    connection after some number of rounds. *)
Lemma connectWiFi_spec (fuel : nat) : forall w w' : World,
  connectWiFi fuel w = Some (tt, w') ->
  exists evs rounds, Quiet w w' evs /\ lookups w' = lookups w
    /\ connect_log evs rounds /\ (rounds <= fuel)%nat.
Proof.
  induction fuel as [|fuel IH]; intros w w' H; [discriminate|].
  rewrite connectWiFi_round in H.
  destruct (link_round_spec w)
    as (w1 & evs1 & k & b & up & E1 & Q1 & R1 & L1 & S1 & Hst & Hk & Hb & Hd & Hr & Hup).
  rewrite E1 in H. destruct up.
  - destruct (link_established_spec w1) as (w2 & evs2 & E2 & Q2 & Hs2 & L2 & Hd2).
    rewrite E2 in H. injection H as <-.
    exists ((evs1 ++ [EvStatus true]) ++ [EvDnsConfig] ++ evs2), 1%nat.
    split; [now apply Quiet_trans with w1|]. split; [congruence|].
    split; [|lia]. constructor.
    + lia.
    + exists evs1, evs2. split; [|exact Hs2]. now rewrite <- !app_assoc.
    + rewrite !delays_at_app, Hr, Hd2. reflexivity.
    + exists k. split; [|lia]. rewrite !delays_at_app, Hd, Hd2. cbn.
      now rewrite !app_nil_r.
    + rewrite !status_polls_app, Hst, Hs2, !length_app, repeat_length. cbn. lia.
  - destruct (delay_Quiet ReconnectWait 3000 w1 ltac:(discriminate))
      as (w2 & E2 & Q2 & R2 & _ & L2 & _).
    rewrite (bind_step _ _ _ _ _ E2) in H.
    destruct (IH _ _ H) as (evs3 & rounds & Q3 & L3 & [Cr (pre & post & Hl & Hp) Cd (n & Hw & Hn) Cp] & Hf).
    exists ((evs1 ++ [EvStatus false]) ++ [EvDelay ReconnectWait 3000] ++ evs3), (S rounds).
    split; [apply Quiet_trans with w1; [exact Q1|];
            apply Quiet_trans with w2; assumption|].
    split; [congruence|]. split; [|lia]. constructor.
    + lia.
    + exists ((evs1 ++ [EvStatus false]) ++ [EvDelay ReconnectWait 3000] ++ pre), post.
      split; [|exact Hp]. rewrite Hl, <- !app_assoc. reflexivity.
    + rewrite !delays_at_app, Hr, Cd. cbn.
      destruct rounds as [|rounds]; [lia|]. cbn. now rewrite Nat.sub_0_r.
    + exists (k + n)%nat. split; [|lia].
      rewrite repeat_app, !delays_at_app, Hd, Hw.
      change (delays_at PollWait [EvStatus false]) with (@nil Z).
      change (delays_at PollWait [EvDelay ReconnectWait 3000]) with (@nil Z).
      now rewrite !app_nil_r.
    + rewrite !status_polls_app, Hst, !length_app, repeat_length. cbn. lia.
Qed.

(** *** The log of [connectWiFi], round by round *)

Lemma poll_log_S (k : nat) (b : bool) :
  @poll_log float (S k) b
  = [EvStatus false; EvDelay PollWait 250] ++ poll_log k b.
Proof. reflexivity. Qed.

Lemma poll_log_polls (k : nat) (b : bool) :
  status_polls (@poll_log float k b) = repeat false k ++ [b].
Proof.
  induction k as [|k IH]; [reflexivity|].
  rewrite poll_log_S, status_polls_app, IH. reflexivity.
Qed.

Lemma poll_log_delays (k : nat) (b : bool) :
  delays_at PollWait (@poll_log float k b) = repeat 250 k
  /\ delays_at ReconnectWait (@poll_log float k b) = [].
Proof.
  induction k as [|k [IH1 IH2]]; [now split|].
  rewrite poll_log_S, !delays_at_app, IH1, IH2. now split.
Qed.

(** The polling loop logs [k <= left] polls that found the link down, each
    followed by a 250 ms wait, and the poll that ended it; it ends before
    the last retry only on a poll that found the link up. *)
Lemma poll_link_log (left : nat) : forall w : World,
  exists w' k b,
    poll_link left w = Some (tt, w') /\ trace w' = trace w ++ poll_log k b
    /\ (k <= left)%nat /\ ((k < left)%nat -> b = true).
Proof.
  induction left as [|left IH]; intros w; cbn [Net.poll_link];
    unfold Net.bind, Net.wifi_status.
  - eexists _, 0%nat, _. split; [reflexivity|]. split; [reflexivity|]. split; lia.
  - destruct (link_up env (polls w)) eqn:Hup; cbn [negb].
    + eexists _, 0%nat, true. split; [reflexivity|]. cbn [trace].
      split; [reflexivity|]. split; [lia|reflexivity].
    + unfold Net.delay at 1. cbn [trace rtc polls lookups syncs posts].
      match goal with |- context [poll_link left ?w1] =>
        destruct (IH w1) as (w' & k & b & E & T & Hk & Hb) end.
      exists w', (S k), b. split; [exact E|].
      split; [rewrite T; cbn [trace]; rewrite poll_log_S, <- !app_assoc; reflexivity|].
      split; [lia|]. intros Hlt. apply Hb. lia.
Qed.

Lemma link_round_log (w : World) :
  exists w' k b up,
    link_round w = Some (up, w') /\ trace w' = trace w ++ round_log k b up
    /\ within_ceiling k b.
Proof.
  unfold Net.link_round, Net.bind. unfold Net.emit at 1.
  match goal with |- context [poll_link 40 ?w1] =>
    destruct (poll_link_log 40 w1) as (w2 & k & b & E & T & Hk & Hb) end.
  rewrite E. unfold Net.wifi_status.
  eexists _, k, b, _. split; [reflexivity|].
  split; [|split; assumption].
  cbn [trace] in *. rewrite T. unfold round_log. now rewrite <- !app_assoc.
Qed.

(** Whenever [connectWiFi] returns, its log is made of rounds. *)
Lemma connectWiFi_rounds (fuel : nat) : forall w w' : World,
  connectWiFi fuel w = Some (tt, w') ->
  exists evs rounds, trace w' = trace w ++ evs
    /\ connect_rounds evs rounds /\ (rounds <= fuel)%nat.
Proof.
  induction fuel as [|fuel IH]; intros w w' H; [discriminate|].
  rewrite connectWiFi_round in H.
  destruct (link_round_log w) as (w1 & k & b & up & E1 & T1 & Hc).
  rewrite E1 in H. destruct up.
  - destruct (link_established_spec w1) as (w2 & evs2 & E2 & [St2 _] & Hs2 & _ & Hd2).
    rewrite E2 in H. injection H as <-.
    exists (round_log k b true ++ [EvDnsConfig] ++ evs2), 1%nat.
    split; [rewrite (st_trace St2), T1, <- !app_assoc; reflexivity|].
    split; [now constructor|lia].
  - apply bind_Some in H as ([] & w2 & E2 & H). injection E2 as <-.
    destruct (IH _ _ H) as (evs3 & rounds & T3 & C3 & Hf).
    exists (round_log k b false ++ [EvDelay ReconnectWait 3000] ++ evs3), (S rounds).
    split; [rewrite T3; cbn [trace]; rewrite T1, <- !app_assoc; reflexivity|].
    split; [now constructor|lia].
Qed.

(** Counted over the whole call, a log made of rounds has the totals of
    [connect_log]. *)
Lemma connect_rounds_log (evs : list event) (rounds : nat) :
  connect_rounds evs rounds -> connect_log evs rounds.
Proof.
  induction 1 as [k b post [Hk Hb] Hs Hd | k b rest n [Hk Hb] Hr IH].
  - destruct (poll_log_delays k b) as [Dp Dr].
    constructor.
    + lia.
    + exists ([EvWifiBegin] ++ poll_log k b), post. split; [|exact Hs].
      unfold round_log. now rewrite <- !app_assoc.
    + unfold round_log. rewrite !delays_at_app, Dr, Hd. reflexivity.
    + exists k. split; [|lia]. unfold round_log.
      rewrite !delays_at_app, Dp, Hd. cbn. now rewrite !app_nil_r.
    + unfold round_log.
      rewrite !status_polls_app, poll_log_polls, Hs, !length_app, repeat_length.
      cbn. lia.
  - destruct (poll_log_delays k b) as [Dp Dr].
    destruct IH as [Cr (pre & post & Hl & Hp) Cd (m & Hw & Hm) Cp].
    constructor.
    + lia.
    + exists (round_log k b false ++ [EvDelay ReconnectWait 3000] ++ pre), post.
      split; [|exact Hp]. rewrite Hl, <- !app_assoc. reflexivity.
    + unfold round_log. rewrite !delays_at_app, Dr, Cd. cbn.
      destruct n as [|n]; [lia|]. cbn. now rewrite Nat.sub_0_r.
    + exists (k + m)%nat. split; [|lia]. unfold round_log.
      rewrite repeat_app, !delays_at_app, Dp, Hw.
      change (delays_at PollWait [@EvWifiBegin float]) with (@nil Z).
      change (delays_at PollWait [@EvStatus float false]) with (@nil Z).
      change (delays_at PollWait [@EvDelay float ReconnectWait 3000]) with (@nil Z).
      now rewrite !app_nil_r.
    + unfold round_log.
      rewrite !status_polls_app, poll_log_polls, !length_app, repeat_length.
      cbn. lia.
Qed.

(** While the link stays down [connectWiFi] never returns, whatever the
    number of rounds it is given. *)
Lemma connectWiFi_down (fuel : nat) : forall w : World,
  down_from env (polls w) -> connectWiFi fuel w = None.
Proof.
  induction fuel as [|fuel IH]; intros w Hdown; [reflexivity|].
  rewrite connectWiFi_round.
  destruct (link_round_spec w)
    as (w1 & evs1 & k & b & up & E1 & Q1 & R1 & L1 & S1 & Hst & Hk & Hb & Hd & Hr & Hup).
  rewrite E1. rewrite (Hdown (polls w + k + 1)%nat) in Hup by lia. subst up.
  unfold Net.bind, Net.delay. apply IH.
  intros i Hi. apply Hdown. cbn [polls] in Hi.
  destruct Q1 as [St _]. rewrite (st_polls St) in Hi. lia.
Qed.

(** Once the link is up for good [connectWiFi] returns, given enough
    rounds: each failed round uses up at least two polls. *)
Lemma connectWiFi_returns (N : nat) (fuel : nat) : forall w : World,
  up_from env N -> (N <= polls w + S fuel)%nat ->
  exists w', connectWiFi (S fuel) w = Some (tt, w').
Proof.
  induction fuel as [|fuel IH]; intros w Hup Hf;
    rewrite connectWiFi_round;
    destruct (link_round_spec w)
      as (w1 & evs1 & k & b & up & E1 & Q1 & R1 & L1 & S1 & Hst & Hk & Hb & Hd & Hr & Hu);
    rewrite E1.
  - rewrite (Hup (polls w + k + 1)%nat) in Hu by lia. subst up.
    destruct (link_established_spec w1) as (w2 & evs2 & E2 & _).
    now exists w2.
  - destruct up.
    + destruct (link_established_spec w1) as (w2 & evs2 & E2 & _).
      now exists w2.
    + unfold Net.bind, Net.delay. apply IH; [exact Hup|].
      cbn [polls]. destruct Q1 as [St _]. rewrite (st_polls St).
      rewrite status_polls_app, Hst, !length_app, repeat_length. cbn. lia.
Qed.

(** [if (WiFi.status() != WL_CONNECTED) connectWiFi();] *)
Lemma reconnect_up (fuel : nat) (w : World) :
  link_up env (polls w) = true ->
  exists w', reconnect_if_down fuel w = Some (tt, w')
    /\ Quiet w w' [EvStatus true]
    /\ rtc w' = rtc w /\ polls w' = S (polls w)
    /\ lookups w' = lookups w /\ syncs w' = syncs w.
Proof.
  intros Hup. unfold Net.reconnect_if_down.
  destruct (wifi_status_Quiet w) as (w1 & E1 & Q1 & F1).
  rewrite (bind_step _ _ _ _ _ E1), Hup in *. cbn [negb].
  exists w1. split; [reflexivity|]. split; assumption.
Qed.

Lemma reconnect_spec (fuel : nat) (w w' : World) :
  reconnect_if_down fuel w = Some (tt, w') ->
  exists evs, Quiet w w' evs /\ lookups w' = lookups w
    /\ exists l, status_polls evs = l ++ [true].
Proof.
  unfold Net.reconnect_if_down.
  destruct (wifi_status_Quiet w) as (w1 & E1 & Q1 & R1 & P1 & L1 & S1).
  rewrite (bind_step _ _ _ _ _ E1).
  destruct (link_up env (polls w)) eqn:Hup; cbn [negb].
  - intros [= <-]. exists [EvStatus true]. split; [exact Q1|].
    split; [exact L1|]. now exists [].
  - intros H. apply connectWiFi_spec in H
      as (evs & rounds & Q2 & L2 & [_ (pre & post & Hl & Hp) _ _ _] & _).
    exists ([EvStatus false] ++ evs). split; [now apply Quiet_trans with w1|].
    split; [congruence|].
    exists ([false] ++ status_polls pre). subst evs.
    rewrite !status_polls_app, Hp. reflexivity.
Qed.

Lemma reconnect_returns (N fuel : nat) (w : World) :
  up_from env N -> (N <= polls w + fuel)%nat ->
  exists w', reconnect_if_down fuel w = Some (tt, w').
Proof.
  intros Hup Hf. unfold Net.reconnect_if_down.
  destruct (wifi_status_Quiet w) as (w1 & E1 & Q1 & R1 & P1 & L1 & S1).
  rewrite (bind_step _ _ _ _ _ E1).
  destruct (link_up env (polls w)) eqn:Hl; cbn [negb]; [now exists w1|].
  assert (polls w < N)%nat.
  { destruct (Nat.lt_ge_cases (polls w) N) as [|Hge]; [assumption|].
    rewrite (Hup _ Hge) in Hl. discriminate. }
  destruct fuel as [|fuel]; [lia|].
  apply connectWiFi_returns with N; [exact Hup|lia].
Qed.

(** *** Delivery *)

Lemma http_POST_Step (body : Payload float) (w : World) :
  exists w', http_POST body w = Some (post_code env (posts w), w')
    /\ Step w w' [EvPost (API_KEY cfg) body (post_code env (posts w))]
    /\ lookups w' = lookups w
    /\ rtc w' = rtc w + Z.of_N (post_secs env (posts w)).
Proof.
  eexists. split; [reflexivity|]. split; [|split; reflexivity].
  constructor; cbn; rewrite ?Nat.add_0_r, ?Nat.add_1_r; reflexivity.
Qed.

Lemma retry_schedule_cons (c : Z) (cs : list Z) (backoff : Z) :
  cs <> [] ->
  retry_schedule (c :: cs) backoff =
  TPost c :: TDelay backoff :: retry_schedule cs (Z.min (backoff * 2) 8000).
Proof. destruct cs; [congruence|reflexivity]. Qed.

(** The attempt loop.  [attempt] and [left] move together. *)
Lemma post_attempts_spec (fuel : nat) (body : Payload float) (left : nat) :
  forall (attempt backoff : Z) (w w' : World) (b : bool),
    attempt + Z.of_nat left = maxAttempts + 1 ->
    post_attempts fuel body left attempt backoff w = Some (b, w') ->
    exists evs, Step w w' evs /\ lookups w' = lookups w
                /\ delivery body left backoff b evs.
Proof.
  induction left as [|left IH]; intros attempt backoff w w' b Hat H.
  - injection H as <- <-. exists []. split; [apply Step_refl|]. split; [reflexivity|].
    constructor; cbn; try reflexivity; try lia; try discriminate; auto.
  - cbn [Net.post_attempts] in H.
    apply bind_Some in H as ([] & w1 & E1 & H).
    apply reconnect_spec in E1 as (evs1 & [S1 Q1] & L1 & _).
    pose proof (quiet_no_posts _ Q1) as P1.
    pose proof (quiet_no_transport _ Q1) as T1.
    pose proof (quiet_no_bodies _ Q1) as B1.
    destruct beginHttps eqn:Hbegin; cbn [negb] in H.
    2:{ injection H as <- <-. exists evs1. split; [exact S1|]. split; [exact L1|].
        constructor; rewrite ?P1, ?T1, ?B1; cbn; try reflexivity; try lia;
          try discriminate; auto; try (intros; congruence).
        intros _. split; [reflexivity|congruence]. }
    destruct (http_POST_Step body w1) as (w2 & E2 & S2 & L2 & R2).
    rewrite (bind_step _ _ _ _ _ E2) in H.
    set (code := post_code env (posts w1)) in *.
    change ((code >=? 200) && (code <? 300)) with (is_2xx code) in H.
    pose proof (Step_trans _ _ _ _ _ S1 S2) as S12.
    destruct (is_2xx code) eqn:Hok.
    + injection H as <- <-.
      exists (evs1 ++ [EvPost (API_KEY cfg) body code]).
      split; [exact S12|]. split; [congruence|].
      constructor;
        rewrite ?post_codes_app, ?transport_log_app, ?post_bodies_app, ?P1, ?T1, ?B1;
        cbn; try reflexivity; try lia; try discriminate; auto;
        try (intros; congruence).
      intros _. exists [], code. now repeat split.
    + destruct (Z.ltb_spec attempt maxAttempts) as [Hlt|Hge].
      * apply bind_Some in H as ([] & w3 & E3 & H).
        destruct (delay_Step Backoff backoff w2)
          as (w3' & E3' & S3 & R3 & _ & L3 & _).
        rewrite E3' in E3. injection E3 as <-.
        apply IH in H as (evs4 & S4 & L4 & D4); [|lia].
        destruct D4 as [Dc Dl Db Dg Ds Dt Df].
        unfold maxAttempts in *.
        assert (Hne : post_codes evs4 <> []) by (apply Ds; [exact Hbegin|lia]).
        exists ((evs1 ++ [EvPost (API_KEY cfg) body code])
                ++ [EvDelay Backoff backoff] ++ evs4).
        split; [apply Step_trans with w2; [exact S12|];
                apply Step_trans with w3'; assumption|].
        split; [congruence|].
        constructor;
          rewrite ?post_codes_app, ?transport_log_app, ?post_bodies_app, ?P1, ?T1, ?B1;
          cbn [post_codes transport_log post_bodies flat_map app List.length].
        -- lia.
        -- rewrite retry_schedule_cons by exact Hne. now rewrite Dl.
        -- now constructor.
        -- intros; congruence.
        -- discriminate.
        -- intros Hb. destruct (Dt Hb) as (cs & c & Hcs & Hc & Hall).
           exists (code :: cs), c. rewrite Hcs. split; [reflexivity|].
           split; [exact Hc|]. cbn. now rewrite Hok, Hall.
        -- intros Hb. destruct (Df Hb) as [Hall Hlen]. split.
           ++ cbn. now rewrite Hok, Hall.
           ++ intros _. now rewrite Hlen.
      * unfold maxAttempts in *.
        assert (left = 0%nat) by lia. subst left.
        injection H as <- <-.
        exists (evs1 ++ [EvPost (API_KEY cfg) body code]).
        split; [exact S12|]. split; [congruence|].
        constructor;
          rewrite ?post_codes_app, ?transport_log_app, ?post_bodies_app, ?P1, ?T1, ?B1;
          cbn; try reflexivity; try lia; try discriminate; auto;
          try (intros; congruence).
        intros _. split; [now rewrite Hok|reflexivity].
Qed.

Lemma Step_polls_le (w w' : World) (evs : list event) :
  Step w w' evs -> (polls w <= polls w')%nat.
Proof. intros St. rewrite (st_polls St). lia. Qed.

(** With the link up for good and rounds enough to wait for it, the attempt
    loop returns. *)
Lemma post_attempts_returns (N fuel : nat) (body : Payload float) (left : nat) :
  forall (attempt backoff : Z) (w : World),
    up_from env N -> (N <= polls w + fuel)%nat ->
    exists b w', post_attempts fuel body left attempt backoff w = Some (b, w').
Proof.
  induction left as [|left IH]; intros attempt backoff w Hup Hf.
  - now exists false, w.
  - cbn [Net.post_attempts].
    destruct (reconnect_returns N fuel w Hup Hf) as (w1 & E1).
    rewrite (bind_step _ _ _ _ _ E1).
    apply reconnect_spec in E1 as (evs1 & [S1 _] & _).
    apply Step_polls_le in S1.
    destruct beginHttps; cbn [negb]; [|now exists false, w1].
    destruct (http_POST_Step body w1) as (w2 & E2 & S2 & _).
    rewrite (bind_step _ _ _ _ _ E2). apply Step_polls_le in S2.
    destruct ((post_code env (posts w1) >=? 200) && (post_code env (posts w1) <? 300));
      [now exists true, w2|].
    destruct (attempt <? maxAttempts).
    + unfold Net.delay, Net.bind. apply IH; [exact Hup|]. cbn [polls]. lia.
    + apply IH; [exact Hup|lia].
Qed.

(** [postReading] up to its attempt loop: the pre-flight checks in order. *)
Lemma postReading_preflight (fuel : nat) (radiation pm25 tempC hum press voc : float)
    (w w1 : World) :
  reconnect_if_down fuel w = Some (tt, w1) ->
  exists w2 w3 evs2,
    ensureTimeSynced w1 = Some (time_ok w1, w2)
    /\ Quiet w1 w2 evs2 /\ Quiet w2 w3 []
    /\ rtc w3 = rtc w2 + Z.of_N (lookup_secs env (lookups w))
    /\ lookups w1 = lookups w /\ lookups w3 = S (lookups w)
    /\ (time_ok w1 = true -> PLAUSIBLE_EPOCH <= rtc w2)
    /\ (rtc w1 < PLAUSIBLE_EPOCH -> forall c, plausible_stamp = Some c -> rtc w2 = c)
    /\ postReading fuel radiation pm25 tempC hum press voc w =
       if negb (dns_ok env (lookups w) && tcp_ok env (lookups w)) then Some (false, w3)
       else if negb (time_ok w1) then Some (false, w3)
       else post_attempts fuel
              (mkPayload (NODE_ID cfg) (to_long (rtc w3))
                         radiation pm25 tempC hum press voc)
              (Z.to_nat maxAttempts) 1 1000 w3.
Proof.
  intros E1. unfold Net.postReading. rewrite (bind_step _ _ _ _ _ E1).
  apply reconnect_spec in E1 as (evs1 & Q1 & L1 & _).
  destruct (ensureTimeSynced_spec w1) as (w2 & evs2 & E2 & Q2 & _ & L2 & Hok & Hst).
  rewrite (bind_step _ _ _ _ _ E2).
  destruct (checkInternetReachable_spec w2) as (w3 & E3 & Q3 & R3 & S3).
  rewrite (bind_step _ _ _ _ _ E3).
  assert (L3 : lookups w3 = S (lookups w2)).
  { unfold Net.checkInternetReachable in E3.
    destruct (dns_ok env (lookups w2)); [destruct (negb (tcp_ok env (lookups w2)))|];
      inversion E3; reflexivity. }
  exists w2, w3, evs2. split; [exact E2|].
  split; [exact Q2|]. split; [exact Q3|]. split; [now rewrite R3, L2, L1|].
  split; [exact L1|]. split; [congruence|]. split; [exact Hok|].
  split; [intros Hlt c Hc; now apply (Hst Hlt c)|].
  rewrite L2, L1.
  destruct (dns_ok env (lookups w) && tcp_ok env (lookups w)); cbn [negb];
    [|reflexivity].
  destruct (time_ok w1); cbn [negb]; reflexivity.
Qed.

Lemma post_bodies_length (evs : list event) :
  List.length (post_bodies evs) = List.length (post_codes evs).
Proof.
  induction evs as [|e evs IH]; [reflexivity|].
  change (e :: evs) with ([e] ++ evs).
  rewrite post_bodies_app, post_codes_app, !length_app, IH.
  destruct e; reflexivity.
Qed.

(** With the link up for good, the time trusted, the host reachable and the
    client usable, a call of [postReading] returns and it did send. *)
Lemma postReading_sends (fuel : nat) (radiation pm25 tempC hum press voc : float)
    (w : World) :
  up_from env (polls w) -> time_ok w = true ->
  dns_ok env (lookups w) = true -> tcp_ok env (lookups w) = true ->
  beginHttps = true ->
  exists b w' evs,
    postReading fuel radiation pm25 tempC hum press voc w = Some (b, w')
    /\ trace w' = trace w ++ evs /\ post_bodies evs <> [].
Proof.
  intros Hup Htime Hdns Htcp Hbegin.
  destruct (reconnect_up fuel w (Hup _ (le_n _))) as (w1 & E1 & Q1 & R1 & P1 & L1 & S1).
  destruct (postReading_preflight fuel radiation pm25 tempC hum press voc w w1 E1)
    as (w2 & w3 & evs2 & _ & Q2 & Q3 & _ & _ & _ & _ & _ & E).
  assert (Htime1 : time_ok w1 = true).
  { unfold NetObs.time_ok in *. now rewrite R1, S1. }
  rewrite Htime1, Hdns, Htcp in E. cbn [negb andb] in E.
  pose proof (Quiet_trans _ _ _ _ _ Q1 (Quiet_trans _ _ _ _ _ Q2 Q3)) as [St0 Hq].
  destruct (post_attempts_returns (polls w) fuel
              (mkPayload (NODE_ID cfg) (to_long (rtc w3))
                         radiation pm25 tempC hum press voc)
              (Z.to_nat maxAttempts) 1 1000 w3 Hup) as (b & w' & E4).
  { apply Step_polls_le in St0. lia. }
  pose proof E4 as H4.
  apply post_attempts_spec in H4 as (evs4 & S4 & _ & D4); [|reflexivity].
  destruct D4 as [_ _ _ _ Ds _ _].
  exists b, w', (([EvStatus true] ++ evs2 ++ []) ++ evs4).
  split; [now rewrite E|].
  split; [apply (Step_trans _ _ _ _ _ St0 S4)|].
  rewrite post_bodies_app, (quiet_no_bodies _ Hq). cbn [app].
  intros Hnil. apply (Ds Hbegin); [cbn; lia|].
  apply length_zero_iff_nil. rewrite <- post_bodies_length, Hnil. reflexivity.
Qed.

(** What a call of [postReading] that returned [b] leaves in the log:
    either a pre-flight check failed and nothing was sent, or the attempt
    loop ran on a payload built from the arguments and a plausible clock. *)
Lemma postReading_spec (fuel : nat) (radiation pm25 tempC hum press voc : float)
    (w w' : World) (b : bool) :
  postReading fuel radiation pm25 tempC hum press voc w = Some (b, w') ->
  exists evs, Step w w' evs /\
    ((b = false /\ forallb quiet evs = true)
     \/ exists now, PLAUSIBLE_EPOCH <= now /\
          delivery (mkPayload (NODE_ID cfg) (to_long now)
                              radiation pm25 tempC hum press voc)
                   4 1000 b evs).
Proof.
  intros H.
  assert (exists w1, reconnect_if_down fuel w = Some (tt, w1)) as (w1 & E1).
  { unfold Net.postReading in H. apply bind_Some in H as ([] & w1 & E1 & _).
    now exists w1. }
  destruct (postReading_preflight fuel radiation pm25 tempC hum press voc w w1 E1)
    as (w2 & w3 & evs2 & _ & Q2 & Q3 & R3 & L1 & L3 & Hok & _ & E).
  rewrite E in H. clear E.
  apply reconnect_spec in E1 as (evs1 & Q1 & _).
  pose proof (Quiet_trans _ _ _ _ _ Q1 (Quiet_trans _ _ _ _ _ Q2 Q3)) as Q.
  destruct (negb (dns_ok env (lookups w) && tcp_ok env (lookups w))).
  { injection H as <- <-. exists (evs1 ++ evs2 ++ []).
    split; [apply Q|]. left. split; [reflexivity|apply Q]. }
  destruct (time_ok w1) eqn:Htime; cbn [negb] in H.
  2:{ injection H as <- <-. exists (evs1 ++ evs2 ++ []).
      split; [apply Q|]. left. split; [reflexivity|apply Q]. }
  apply post_attempts_spec in H as (evs4 & S4 & _ & D4); [|reflexivity].
  destruct Q as [S Hq]. remember (evs1 ++ evs2 ++ []) as evs0.
  exists (evs0 ++ evs4).
  split; [now apply Step_trans with w3|].
  right. exists (rtc w3). split; [specialize (Hok eq_refl); lia|].
  pose proof (quiet_no_posts _ Hq) as P1.
  pose proof (quiet_no_transport _ Hq) as T1.
  pose proof (quiet_no_bodies _ Hq) as B1.
  destruct D4 as [Dc Dl Db Dg Ds Dt Df].
  constructor;
    rewrite ?post_codes_app, ?transport_log_app, ?post_bodies_app, ?P1, ?T1, ?B1;
    cbn [app]; assumption.
Qed.

(** *** The retry schedule *)

Lemma delays_at_Backoff_transport (evs : list event) :
  delays_at Backoff evs = tdelays (transport_log evs).
Proof.
  induction evs as [|e evs IH]; [reflexivity|].
  change (e :: evs) with ([e] ++ evs).
  rewrite delays_at_app, transport_log_app. unfold tdelays in *.
  rewrite flat_map_app, <- IH.
  destruct e as [| |[] ms| | |]; reflexivity.
Qed.

Lemma retry_schedule_delays (cs : list Z) :
  (List.length cs <= 4)%nat ->
  tdelays (retry_schedule cs 1000) = firstn (List.length cs - 1) [1000; 2000; 4000].
Proof.
  intros H.
  do 5 (destruct cs as [|? cs]; [reflexivity|]).
  cbn in H. lia.
Qed.

Lemma last_split_cases {A} (cs cs' rest : list A) (c c' : A) :
  cs ++ c :: rest = cs' ++ [c'] ->
  (rest = [] /\ c = c' /\ cs = cs') \/ In c cs'.
Proof.
  intros H. destruct (exists_last (l := c :: rest)) as (m & x & Hm); [discriminate|].
  rewrite Hm, app_assoc in H. apply app_inj_tail in H as [H1 H2].
  destruct m as [|y m].
  - left. injection Hm as <- ->. rewrite app_nil_r in H1. now repeat split.
  - right. injection Hm as <- _. subst cs'. apply in_or_app. right. now left.
Qed.

Lemma all_failed_not_2xx (cs : list Z) (c : Z) :
  forallb (fun c => negb (is_2xx c)) cs = true -> In c cs -> is_2xx c = false.
Proof.
  intros H Hin. rewrite forallb_forall in H. specialize (H c Hin).
  now destruct (is_2xx c).
Qed.

(** *** Main results *)

(** C1 (amended): a call of [postReading] makes at most 4 POSTs, and the
    delays it inserts between them are the first (number of POSTs - 1)
    entries of 1000, 2000, 4000 ms, one after each POST but the last; no
    delay follows the fourth attempt, so 8000 ms is never waited. *)
Theorem postReading_backoff_schedule
    (fuel : nat) (radiation pm25 tempC hum press voc : float)
    (w w' : World) (b : bool) :
  postReading fuel radiation pm25 tempC hum press voc w = Some (b, w') ->
  exists evs, trace w' = trace w ++ evs
    /\ (List.length (post_codes evs) <= 4)%nat
    /\ delays_at Backoff evs
       = firstn (List.length (post_codes evs) - 1) [1000; 2000; 4000]
    /\ transport_log evs = retry_schedule (post_codes evs) 1000.
Proof.
  intros H. apply postReading_spec in H as (evs & St & [[_ Hq]|(ts & _ & D)]);
    exists evs; (split; [apply St|]); rewrite delays_at_Backoff_transport.
  - rewrite (quiet_no_posts _ Hq), (quiet_no_transport _ Hq).
    repeat split. cbn. lia.
  - destruct D as [Dc Dl _ _ _ _ _]. split; [exact Dc|].
    split; [|exact Dl]. rewrite Dl. now apply retry_schedule_delays.
Qed.

(** C4: the time gate of [postReading].  A call that returns has
    reconnected if need be and then asked [ensureTimeSynced]; when that
    answers false, which is exactly when it leaves the clock still below the
    plausibility threshold of 1700000000, the call returns failure without
    any HTTP POST.  In particular this is so when the link is up, the clock
    is implausible, the build stamp is not plausible either and no time-sync
    poll succeeds.  When the build stamp alone is plausible (and the link is
    up, the host reachable and the client usable) the clock is set to the
    stamp's epoch, which is at or above the threshold, the call returns and
    it did send: every document carries the clock as read after the
    reachability check, cast to a 32-bit [long], that is the stamp's epoch
    plus the seconds the check took; this is at or above the threshold as
    long as it fits in 31 bits. *)
Theorem postReading_time_gate
    (fuel : nat) (radiation pm25 tempC hum press voc : float) (w : World) :
  (forall b w',
      postReading fuel radiation pm25 tempC hum press voc w = Some (b, w') ->
      exists w1 w2 evs,
        reconnect_if_down fuel w = Some (tt, w1)
        /\ ensureTimeSynced w1 = Some (time_ok w1, w2)
        /\ (time_ok w1 = false <-> rtc w2 < PLAUSIBLE_EPOCH)
        /\ trace w' = trace w ++ evs
        /\ (time_ok w1 = false ->
            b = false /\ post_codes evs = [] /\ posts w' = posts w))
  /\ (link_up env (polls w) = true ->
      rtc w < PLAUSIBLE_EPOCH ->
      plausible_stamp = None ->
      existsb plausible_poll (ntp_polls env (syncs w)) = false ->
      exists w' evs,
        postReading fuel radiation pm25 tempC hum press voc w = Some (false, w')
        /\ posts w' = posts w
        /\ trace w' = trace w ++ evs /\ post_codes evs = [])
  /\ (forall c,
      up_from env (polls w) ->
      rtc w < PLAUSIBLE_EPOCH ->
      plausible_stamp = Some c ->
      dns_ok env (lookups w) = true -> tcp_ok env (lookups w) = true ->
      beginHttps = true ->
      PLAUSIBLE_EPOCH <= c
      /\ exists b w' evs,
           postReading fuel radiation pm25 tempC hum press voc w = Some (b, w')
           /\ trace w' = trace w ++ evs
           /\ post_bodies evs <> []
           /\ Forall (fun body =>
                        timestamp body
                        = to_long (c + Z.of_N (lookup_secs env (lookups w))))
                     (post_bodies evs)
           /\ (c + Z.of_N (lookup_secs env (lookups w)) < 2147483648 ->
               Forall (fun body => PLAUSIBLE_EPOCH <= timestamp body)
                      (post_bodies evs))).
Proof.
  split; [|split].
  - intros b w' H.
    assert (exists w1, reconnect_if_down fuel w = Some (tt, w1)) as (w1 & E1).
    { unfold Net.postReading in H. apply bind_Some in H as ([] & w1 & E1 & _).
      now exists w1. }
    destruct (postReading_preflight fuel radiation pm25 tempC hum press voc w w1 E1)
      as (w2 & w3 & evs2 & E2 & Q2 & Q3 & R3 & L1 & L3 & Hok & _ & E).
    pose proof (time_ok_false_clock w1 w2 E2) as Hiff.
    pose proof H as H'. apply postReading_spec in H' as (evs & St & _).
    exists w1, w2, evs. split; [exact E1|]. split; [exact E2|].
    split; [exact Hiff|]. split; [apply St|].
    intros Htime. rewrite E, Htime in H. cbn [negb] in H.
    assert (Hw : b = false /\ w' = w3).
    { destruct (negb _) in H; injection H as <- <-; now split. }
    destruct Hw as [-> ->]. split; [reflexivity|].
    apply reconnect_spec in E1 as (evs1 & Q1 & _).
    pose proof (Quiet_trans _ _ _ _ _ Q1 (Quiet_trans _ _ _ _ _ Q2 Q3)) as Q.
    pose proof (Quiet_posts _ _ _ Q) as Hp. split; [|exact Hp].
    destruct Q as [St0 _].
    pose proof (st_posts St) as Hn. rewrite Hp in Hn.
    apply length_zero_iff_nil. lia.
  - intros Hup Hrtc Hst Hntp.
    destruct (reconnect_up fuel w Hup) as (w1 & E1 & Q1 & R1 & _ & L1 & S1).
    destruct (postReading_preflight fuel radiation pm25 tempC hum press voc w w1 E1)
      as (w2 & w3 & evs2 & _ & Q2 & Q3 & _ & _ & _ & _ & _ & E).
    assert (Htime : time_ok w1 = false).
    { unfold NetObs.time_ok. rewrite R1, S1, Hst, Hntp.
      destruct (Z.geb_spec (rtc w) PLAUSIBLE_EPOCH); [lia|reflexivity]. }
    rewrite Htime in E. cbn [negb] in E.
    pose proof (Quiet_trans _ _ _ _ _ Q1 (Quiet_trans _ _ _ _ _ Q2 Q3)) as Q.
    exists w3, ([EvStatus true] ++ evs2 ++ []).
    split; [rewrite E; now destruct (negb _)|].
    split; [now apply Quiet_posts in Q|].
    split; [apply Q|apply quiet_no_posts, Q].
  - intros c Hup Hrtc Hst Hdns Htcp Hbegin.
    pose proof (plausible_stamp_ge c Hst) as Hc0.
    split; [exact Hc0|].
    destruct (reconnect_up fuel w (Hup _ (le_n _))) as (w1 & E1 & Q1 & R1 & P1 & L1 & S1).
    destruct (postReading_preflight fuel radiation pm25 tempC hum press voc w w1 E1)
      as (w2 & w3 & evs2 & _ & Q2 & Q3 & R3 & _ & _ & _ & Hc & E).
    assert (Htime : time_ok w1 = true).
    { unfold NetObs.time_ok. rewrite Hst. now rewrite orb_true_r. }
    rewrite Htime, Hdns, Htcp in E. cbn [negb andb] in E.
    rewrite R3, (Hc ltac:(lia) c Hst) in E.
    pose proof (Quiet_trans _ _ _ _ _ Q1 (Quiet_trans _ _ _ _ _ Q2 Q3)) as [St0 Hq].
    set (now := c + Z.of_N (lookup_secs env (lookups w))) in *.
    destruct (post_attempts_returns (polls w) fuel
                (mkPayload (NODE_ID cfg) (to_long now) radiation pm25 tempC hum press voc)
                (Z.to_nat maxAttempts) 1 1000 w3 Hup) as (b & w' & E4).
    { apply Step_polls_le in St0. lia. }
    pose proof E4 as H4.
    apply post_attempts_spec in H4 as (evs4 & S4 & _ & D4); [|reflexivity].
    destruct D4 as [_ _ Db _ Ds _ _].
    exists b, w', (([EvStatus true] ++ evs2 ++ []) ++ evs4).
    split; [now rewrite E|].
    split; [apply (Step_trans _ _ _ _ _ St0 S4)|].
    rewrite post_bodies_app, (quiet_no_bodies _ Hq). cbn [app].
    split; [|split].
    + intros Hnil.
      apply (Ds Hbegin); [cbn; lia|].
      apply length_zero_iff_nil. rewrite <- post_bodies_length, Hnil. reflexivity.
    + eapply Forall_impl; [|exact Db]. now intros body <-.
    + intros Hfit. eapply Forall_impl; [|exact Db]. intros body <-.
      cbn [timestamp]. rewrite to_long_fits; unfold now, PLAUSIBLE_EPOCH in *; lia.
Qed.

(** C5: a call of [postReading] that returns reports success exactly when
    one of its POSTs was answered with a status in [200, 300); a POST
    answered otherwise is followed by another one unless it was the fourth;
    a POST answered 2xx is the last; the bodies sent are built from the
    arguments of this very call, whatever happened in earlier cycles; and
    the call does return once the link is up for good. *)
Theorem postReading_success_iff
    (fuel : nat) (radiation pm25 tempC hum press voc : float) (w : World) :
  (forall b w',
      postReading fuel radiation pm25 tempC hum press voc w = Some (b, w') ->
      exists evs, trace w' = trace w ++ evs
        /\ (List.length (post_codes evs) <= 4)%nat
        /\ (b = true <-> exists c, In c (post_codes evs) /\ is_2xx c = true)
        /\ (forall cs c rest, post_codes evs = cs ++ c :: rest ->
              is_2xx c = false ->
              rest <> [] \/ List.length (cs ++ [c]) = 4%nat)
        /\ (forall cs c rest, post_codes evs = cs ++ c :: rest ->
              is_2xx c = true -> rest = [])
        /\ Forall (fun body => exists ts,
                     body = mkPayload (NODE_ID cfg) ts
                                      radiation pm25 tempC hum press voc)
                  (post_bodies evs))
  /\ (forall N, up_from env N ->
        exists fuel' b w',
          postReading fuel' radiation pm25 tempC hum press voc w = Some (b, w')).
Proof.
  split.
  - intros b w' H.
    apply postReading_spec in H as (evs & St & [[Hb Hq]|(ts & Hts & D)]);
      exists evs; (split; [apply St|]).
    + rewrite (quiet_no_posts _ Hq), (quiet_no_bodies _ Hq). subst b.
      split; [cbn; lia|]. split.
      { split; [discriminate|]. now intros (c & [] & _). }
      split; [intros [|] ? ? ?; discriminate|].
      split; [intros [|] ? ? ?; discriminate|constructor].
    + destruct D as [Dc Dl Db Dg Ds Dt Df].
      split; [exact Dc|]. split; [|split; [|split]].
      * split.
        -- intros Hb. destruct (Dt Hb) as (cs & c & Hcs & Hc & _).
           exists c. split; [|exact Hc]. rewrite Hcs. apply in_or_app. right. now left.
        -- intros (c & Hin & Hc). destruct b; [reflexivity|].
           destruct (Df eq_refl) as [Hall _].
           rewrite (all_failed_not_2xx _ _ Hall Hin) in Hc. discriminate.
      * intros cs c rest Hsplit Hc.
        destruct rest as [|x rest]; [right|left; discriminate].
        destruct b.
        -- destruct (Dt eq_refl) as (cs' & c' & Hcs & Hc' & _).
           rewrite Hcs in Hsplit. apply app_inj_tail in Hsplit as [_ <-].
           congruence.
        -- destruct (Df eq_refl) as [_ Hlen].
           destruct beginHttps.
           ++ rewrite <- Hsplit. now apply Hlen.
           ++ rewrite (Dg eq_refl) in Hsplit. now destruct cs.
      * intros cs c rest Hsplit Hc. destruct b.
        -- destruct (Dt eq_refl) as (cs' & c' & Hcs & _ & Hall).
           rewrite Hcs in Hsplit.
           symmetry in Hsplit.
           apply last_split_cases in Hsplit as [(Hr & _)|Hin]; [exact Hr|].
           rewrite (all_failed_not_2xx _ _ Hall Hin) in Hc. discriminate.
        -- destruct (Df eq_refl) as [Hall _].
           assert (Hin : In c (post_codes evs))
             by (rewrite Hsplit; apply in_or_app; right; now left).
           rewrite (all_failed_not_2xx _ _ Hall Hin) in Hc. discriminate.
      * eapply Forall_impl; [|exact Db]. intros body <-. now exists (to_long ts).
  - intros N Hup.
    destruct (reconnect_returns N N w Hup ltac:(lia)) as (w1 & E1).
    destruct (postReading_preflight N radiation pm25 tempC hum press voc w w1 E1)
      as (w2 & w3 & evs2 & _ & Q2 & Q3 & _ & _ & _ & _ & _ & E).
    exists N. rewrite E.
    destruct (negb _); [now exists false, w3|].
    destruct (negb _); [now exists false, w3|].
    apply post_attempts_returns with N; [exact Hup|lia].
Qed.

(** C8 (amended): whenever [connectWiFi] returns, the last status poll
    found the link up and the DNS resolvers were set right after it.  Its
    log is made of rounds: each round requests the association, waits 250 ms
    at most 40 times, reading the link status before each wait and once
    after the last (at most 41 times in the polling loop), and reads it once
    more to decide; a round that finds the link down is followed by a
    3000 ms wait and another round, the round that finds it up by the DNS
    configuration and no further poll or wait.  There is no bound on the
    rounds: while the link stays down the call never returns, and once the
    link is up for good it does. *)
Theorem connectWiFi_returns_connected :
  (forall fuel (w w' : World),
      connectWiFi fuel w = Some (tt, w') ->
      exists evs rounds, trace w' = trace w ++ evs
        /\ connect_rounds evs rounds
        /\ connect_log evs rounds /\ (rounds <= fuel)%nat
        /\ link_up env (polls w' - 1) = true)
  /\ (forall fuel (w : World),
        down_from env (polls w) -> connectWiFi fuel w = None)
  /\ (forall N (w : World),
        up_from env N -> exists fuel w', connectWiFi fuel w = Some (tt, w')).
Proof.
  split; [|split].
  - intros fuel w w' H.
    destruct (connectWiFi_rounds _ _ _ H) as (evs & rounds & T & R & Hf).
    apply connectWiFi_spec in H as (evs' & rounds' & [St _] & _).
    assert (evs' = evs) as ->.
    { pose proof (st_trace St) as T'. rewrite T in T'. now apply app_inv_head in T'. }
    pose proof (connect_rounds_log _ _ R) as C.
    exists evs, rounds. split; [exact T|]. split; [exact R|].
    split; [exact C|]. split; [exact Hf|].
    destruct C as [_ (pre & post & Hl & Hp) _ _ _].
    pose proof (st_status St) as Hs.
    rewrite (st_polls St).
    assert (Hsp : status_polls evs = status_polls pre ++ [true]).
    { rewrite Hl, !status_polls_app, Hp. reflexivity. }
    rewrite Hsp in Hs |- *. rewrite length_app in Hs |- *. cbn [List.length] in Hs |- *.
    rewrite Nat.add_1_r in Hs. rewrite seq_S, map_app in Hs. cbn [map] in Hs.
    apply app_inj_tail in Hs as [_ Hs].
    replace (polls w + (List.length (status_polls pre) + 1) - 1)%nat
      with (polls w + List.length (status_polls pre))%nat by lia.
    now symmetry.
  - intros fuel w. apply connectWiFi_down.
  - intros N w Hup. exists (S N).
    apply connectWiFi_returns with N; [exact Hup|lia].
Qed.

End Facts.

Import NetDemo.

(** C1, as stated, fails: when all four attempts fail the delays are 1000,
    2000 and 4000 ms; no 8000 ms delay is ever inserted. *)
Lemma postReading_never_waits_8000 :
  cycle_summary
    (Net.postReading Q demo_cfg env_all_500 0 0.08%Q 12.3%Q 24%Q 55%Q 1010%Q 450%Q boot_world)
  = Some (false, [500; 500; 500; 500], [1000; 2000; 4000]).
Proof. vm_compute. reflexivity. Qed.

Lemma postReading_backoff_schedule_witness :
  exists w' evs,
    Net.postReading Q demo_cfg env_lucky 0 0.08%Q 12.3%Q 24%Q 55%Q 1010%Q 450%Q boot_world
    = Some (true, w')
    /\ trace w' = trace boot_world ++ evs
    /\ (List.length (post_codes evs) <= 4)%nat
    /\ delays_at Backoff evs
       = firstn (List.length (post_codes evs) - 1) [1000; 2000; 4000]
    /\ transport_log evs = retry_schedule (post_codes evs) 1000.
Proof.
  assert (E : exists w',
             Net.postReading Q demo_cfg env_lucky 0 0.08%Q 12.3%Q 24%Q 55%Q 1010%Q 450%Q boot_world
             = Some (true, w'))
    by (vm_compute; eexists; reflexivity).
  destruct E as (w' & E).
  destruct (postReading_backoff_schedule Q demo_cfg env_lucky 0
              0.08%Q 12.3%Q 24%Q 55%Q 1010%Q 450%Q boot_world w' true E) as (evs & H).
  exists w', evs. split; [exact E|exact H].
Defined.

Lemma postReading_time_gate_witness :
  (exists w' w1 w2 evs,
      Net.postReading Q demo_cfg env_no_time 0 0.08%Q 12.3%Q 24%Q 55%Q 1010%Q 450%Q boot_world
      = Some (false, w')
      /\ Net.reconnect_if_down Q demo_cfg env_no_time 0 boot_world = Some (tt, w1)
      /\ Net.ensureTimeSynced Q demo_cfg env_no_time w1
         = Some (time_ok demo_cfg env_no_time w1, w2)
      /\ (time_ok demo_cfg env_no_time w1 = false <-> rtc w2 < Net.PLAUSIBLE_EPOCH)
      /\ trace w' = trace boot_world ++ evs
      /\ (time_ok demo_cfg env_no_time w1 = false ->
          false = false /\ post_codes evs = [] /\ posts w' = posts boot_world))
  /\ (exists w' evs,
      Net.postReading Q demo_cfg env_no_time 0 0.08%Q 12.3%Q 24%Q 55%Q 1010%Q 450%Q boot_world
      = Some (false, w')
      /\ posts w' = posts boot_world
      /\ trace w' = trace boot_world ++ evs /\ post_codes evs = [])
  /\ (Net.PLAUSIBLE_EPOCH <= 1793594760
      /\ exists b w' evs,
          Net.postReading Q demo_cfg env_stamp_only 0 0.08%Q 12.3%Q 24%Q 55%Q 1010%Q 450%Q boot_world
          = Some (b, w')
          /\ trace w' = trace boot_world ++ evs
          /\ post_bodies evs <> []
          /\ Forall (fun body => timestamp body = 1793594762) (post_bodies evs)
          /\ Forall (fun body => Net.PLAUSIBLE_EPOCH <= timestamp body)
                    (post_bodies evs)).
Proof.
  split; [|split].
  - assert (E : exists w',
               Net.postReading Q demo_cfg env_no_time 0 0.08%Q 12.3%Q 24%Q 55%Q 1010%Q 450%Q boot_world
               = Some (false, w'))
      by (vm_compute; eexists; reflexivity).
    destruct E as (w' & E).
    destruct (proj1 (postReading_time_gate Q demo_cfg env_no_time 0
                       0.08%Q 12.3%Q 24%Q 55%Q 1010%Q 450%Q boot_world) false w' E)
      as (w1 & w2 & evs & H).
    exists w', w1, w2, evs. split; [exact E|exact H].
  - apply (proj1 (proj2 (postReading_time_gate Q demo_cfg env_no_time 0
                           0.08%Q 12.3%Q 24%Q 55%Q 1010%Q 450%Q boot_world)));
      reflexivity.
  - destruct (proj2 (proj2 (postReading_time_gate Q demo_cfg env_stamp_only 0
                              0.08%Q 12.3%Q 24%Q 55%Q 1010%Q 450%Q boot_world))
                1793594760)
      as (Hc & b & w' & evs & E & Ht & Hne & Hts & Hge);
      try reflexivity.
    { intros i _. reflexivity. }
    split; [exact Hc|]. exists b, w', evs.
    split; [exact E|]. split; [exact Ht|]. split; [exact Hne|].
    split; [exact Hts|]. apply Hge. reflexivity.
Defined.

(** Beyond [2^31 - 1] the cast wraps: with the clock at 2200000000 the
    documents carry a negative time stamp. *)
Lemma postReading_timestamp_wraps :
  option_map (fun r => map timestamp (post_bodies (trace (snd r))))
    (Net.postReading Q demo_cfg env_lucky 0 0.08%Q 12.3%Q 24%Q 55%Q 1010%Q 450%Q
       (mkWorld 2200000000 0 0 0 0 []))
  = Some [-2094967294; -2094967294; -2094967294].
Proof. vm_compute. reflexivity. Qed.

Lemma postReading_success_iff_witness :
  (exists w' evs,
      Net.postReading Q demo_cfg env_lucky 0 0.08%Q 12.3%Q 24%Q 55%Q 1010%Q 450%Q boot_world
      = Some (true, w')
      /\ trace w' = trace boot_world ++ evs
      /\ (true = true <-> exists c, In c (post_codes evs) /\ is_2xx c = true))
  /\ (exists fuel' b w',
        Net.postReading Q demo_cfg env_link_late fuel' 0.08%Q 12.3%Q 24%Q 55%Q 1010%Q 450%Q boot_world
        = Some (b, w')).
Proof.
  split.
  - assert (E : exists w',
               Net.postReading Q demo_cfg env_lucky 0 0.08%Q 12.3%Q 24%Q 55%Q 1010%Q 450%Q boot_world
               = Some (true, w'))
      by (vm_compute; eexists; reflexivity).
    destruct E as (w' & E).
    destruct (proj1 (postReading_success_iff Q demo_cfg env_lucky 0
                       0.08%Q 12.3%Q 24%Q 55%Q 1010%Q 450%Q boot_world) true w' E)
      as (evs & Ht & _ & Hiff & _).
    exists w', evs. split; [exact E|]. split; [exact Ht|exact Hiff].
  - apply (proj2 (postReading_success_iff Q demo_cfg env_link_late 0
                    0.08%Q 12.3%Q 24%Q 55%Q 1010%Q 450%Q boot_world) 50%nat).
    intros i Hi. change (Nat.leb 50 i = true). now apply Nat.leb_le.
Defined.

(** C8, as stated, fails: in a round in which the link stays down its
    status is read 42 times, 41 times in the polling loop (with 40 waits of
    250 ms in between) and once more to decide. *)
Lemma link_round_reads_status_42_times :
  round_summary (Net.link_round Q env_link_down boot_world)
  = Some (false, 42%nat, 40%nat).
Proof. vm_compute. reflexivity. Qed.

Lemma connectWiFi_returns_connected_witness :
  (exists w' evs rounds,
      Net.connectWiFi Q demo_cfg env_link_late 5 boot_world = Some (tt, w')
      /\ trace w' = trace boot_world ++ evs
      /\ connect_rounds evs rounds
      /\ connect_log evs rounds /\ (rounds <= 5)%nat
      /\ link_up env_link_late (polls w' - 1) = true)
  /\ Net.connectWiFi Q demo_cfg env_link_down 7 boot_world = None
  /\ (exists fuel w',
        Net.connectWiFi Q demo_cfg env_link_late fuel boot_world = Some (tt, w')).
Proof.
  pose proof (connectWiFi_returns_connected Q demo_cfg env_link_late) as (H1 & _ & H3).
  pose proof (connectWiFi_returns_connected Q demo_cfg env_link_down) as (_ & H2 & _).
  split; [|split].
  - assert (E : exists w',
               Net.connectWiFi Q demo_cfg env_link_late 5 boot_world = Some (tt, w'))
      by (vm_compute; eexists; reflexivity).
    destruct E as (w' & E).
    destruct (H1 5%nat boot_world w' E) as (evs & rounds & H).
    exists w', evs, rounds. split; [exact E|exact H].
  - apply H2. intros i _. reflexivity.
  - apply (H3 50%nat). intros i Hi. change (Nat.leb 50 i = true). now apply Nat.leb_le.
Defined.

End NetFacts.

(** ** Facts about the control loop *)

Module LoopFacts.
Import Loop LoopObs PassObs.

Lemma keeps_refl (g : Globals) : keeps g g.
Proof. repeat split. Qed.

Lemma keeps_trans (g g1 g2 : Globals) : keeps g g1 -> keeps g1 g2 -> keeps g g2.
Proof.
  unfold keeps. intros (A1 & A2 & A3 & A4 & A5 & A6 & A7 & A8 & A9)
                       (B1 & B2 & B3 & B4 & B5 & B6 & B7 & B8 & B9).
  repeat split; congruence.
Qed.

Section Steps.

Variable cfg : Settings.

Lemma bme_retry_keeps (ps : Pass) (g : Globals) (k : nat) :
  keeps g (fst (bme_retry cfg ps g k)).
Proof.
  unfold bme_retry, millis.
  destruct (negb (bmeReady g)); [|apply keeps_refl].
  destruct (_ >=? _); [|apply keeps_refl].
  destruct (initBME cfg ps g) as [ready addr].
  destruct (negb ready); repeat split.
Qed.

Lemma setup_globals_keeps (ps : Pass) (g : Globals) :
  lastPm25 (setup_globals cfg ps g) = lastPm25 g
  /\ lastPm10 (setup_globals cfg ps g) = lastPm10 g
  /\ lastTempC (setup_globals cfg ps g) = lastTempC g
  /\ lastHum (setup_globals cfg ps g) = lastHum g
  /\ lastPress (setup_globals cfg ps g) = lastPress g
  /\ lastGas (setup_globals cfg ps g) = lastGas g
  /\ lastRadiationUsvh (setup_globals cfg ps g) = lastRadiationUsvh g.
Proof.
  unfold setup_globals, millis.
  destruct (initBME cfg ps _) as [ready addr].
  destruct (negb ready); repeat split.
Qed.

Lemma bme_read_cases (ps : Pass) (g : Globals) (k : nat) :
  (exists k', bme_read ps g k
              = (g, (lastTempC g, lastHum g, lastPress g, lastGas g), false, k'))
  \/ (exists temperature humidity pressure gas_resistance k',
        bme_sample ps = Some (temperature, humidity, pressure, gas_resistance)
        /\ bme_read ps g k
           = (set_last_bme g temperature humidity (pressure / 100)%Q gas_resistance,
              (temperature, humidity, (pressure / 100)%Q, gas_resistance), true, k')).
Proof.
  unfold bme_read, millis.
  destruct (bmeReady g); [|left; eexists; reflexivity].
  destruct (_ >=? _); [|left; eexists; reflexivity].
  destruct (bme_sample ps) as [[[[te hu] pr] ga]|]; [|left; eexists; reflexivity].
  right. exists te, hu, pr, ga. eexists. split; reflexivity.
Qed.

Lemma sds_step_cases (ps : Pass) (g : Globals) (k : nat) :
  let r := SDS.readSDS (sds_window ps) (sds_rx ps) 0 0 in
  (SDS.sds_ok r = false /\
   exists g' k', sds_step cfg ps g k = (g', (lastPm25 g, lastPm10 g), false, k')
                 /\ keeps g g')
  \/ (SDS.sds_ok r = true /\
      exists g' k', sds_step cfg ps g k
                    = (g', (SDS.sds_pm25 r, SDS.sds_pm10 r), true, k')
        /\ lastPm25 g' = SDS.sds_pm25 r /\ lastPm10 g' = SDS.sds_pm10 r
        /\ lastTempC g' = lastTempC g /\ lastHum g' = lastHum g
        /\ lastPress g' = lastPress g /\ lastGas g' = lastGas g
        /\ lastRadiationUsvh g' = lastRadiationUsvh g
        /\ geigerPulses g' = geigerPulses g
        /\ geigerWindowStart g' = geigerWindowStart g).
Proof.
  intros r. unfold sds_step, millis. fold r.
  destruct (SDS.sds_ok r).
  - right. split; [reflexivity|]. do 2 eexists. split; [reflexivity|].
    repeat split.
  - left. split; [reflexivity|].
    destruct (_ <? _); [do 2 eexists; split; [reflexivity|apply keeps_refl]|].
    destruct (negb (sdsHintShown g));
      [|do 2 eexists; split; [reflexivity|apply keeps_refl]].
    destruct (_ >? _); do 2 eexists; (split; [reflexivity|]); repeat split.
Qed.

Lemma geiger_step_cases (ps : Pass) (g : Globals) (k : nat) :
  let counter := Geiger.edges (isr_edges ps) (geigerPulses g) in
  (exists now k',
      geiger_step cfg ps g k
      = (set_geiger g (dose_rate cfg counter) 0 now, dose_rate cfg counter, true, k'))
  \/ (exists k',
        geiger_step cfg ps g k
        = (set_geiger g (lastRadiationUsvh g) counter (geigerWindowStart g),
           lastRadiationUsvh g, false, k')).
Proof.
  intros counter. unfold geiger_step, millis. fold counter.
  destruct (_ >=? _).
  - left. do 2 eexists. reflexivity.
  - right. eexists. reflexivity.
Qed.

(** One pass: the reading, the flags and the globals afterwards. *)
Lemma acquire_acquired_at (ps : Pass) (g : Globals) :
  acquired cfg ps g (fst (acquire cfg ps g)) (snd (acquire cfg ps g)).
Proof.
  unfold acquire.
  pose proof (bme_retry_keeps ps g (rawSdsDebugWindow cfg ps g 0)) as K1.
  destruct (bme_retry cfg ps g _) as [g1 k1]. cbn [fst] in K1.
  destruct K1 as (A1 & A2 & A3 & A4 & A5 & A6 & A7 & A8 & A9).
  destruct (bme_read_cases ps g1 k1) as [(k2 & E2)|(te & hu & pr & ga & k2 & Hs & E2)];
    rewrite E2; clear E2;
    match goal with
    | |- context [sds_step cfg ps ?g2 k2] =>
        destruct (sds_step_cases ps g2 k2)
          as [(Hok & g3 & k3 & E3 & K3)
             |(Hok & g3 & k3 & E3 & B1 & B2 & B3 & B4 & B5 & B6 & B7 & B8 & B9)];
        [destruct K3 as (B1 & B2 & B3 & B4 & B5 & B6 & B7 & B8 & B9)|];
        rewrite E3; clear E3
    end;
    (destruct (geiger_step_cases ps g3 k3) as [(now & k4 & E4)|(k4 & E4)];
     rewrite E4; clear E4;
     cbn [fst snd] in *;
     constructor; cbn [got_sds got_bme closed_window r_pm25 r_tempC r_hum r_press
                       r_gas r_radiation set_geiger set_last_bme
                       lastPm25 lastPm10 lastTempC lastHum lastPress lastGas
                       lastRadiationUsvh geigerPulses geigerWindowStart] in *;
     rewrite ?Hok;
     try discriminate; try congruence;
     try (intros _; repeat split; congruence);
     try (repeat split; congruence);
     try (intros _; exists te, hu, pr, ga; repeat split; assumption)).
Qed.

(** The last-known-good values after a run of passes. *)
Lemma acquire_all_radiation (pss : list Pass) : forall g : Globals,
  lastRadiationUsvh (snd (acquire_all cfg pss g))
  = match last_closed (fst (acquire_all cfg pss g)) with
    | Some r => r
    | None => lastRadiationUsvh g
    end.
Proof.
  induction pss as [|p pss IH]; intros g; [reflexivity|].
  cbn [acquire_all].
  pose proof (acquire_acquired_at p g) as A.
  destruct (acquire cfg p g) as [g' rd]. cbn [fst snd] in A.
  specialize (IH g').
  destruct (acquire_all cfg pss g') as [rds g'']. cbn [fst snd last_closed] in *.
  destruct (last_closed rds); [exact IH|].
  rewrite IH, (a_rad_last _ _ _ _ _ A).
  destruct (closed_window rd) eqn:Hc; [reflexivity|].
  now apply (a_open _ _ _ _ _ A).
Qed.

Lemma acquire_all_none_sds (pss : list Pass) : forall g : Globals,
  none_yet got_sds (fst (acquire_all cfg pss g)) = true ->
  lastPm25 (snd (acquire_all cfg pss g)) = lastPm25 g
  /\ lastPm10 (snd (acquire_all cfg pss g)) = lastPm10 g.
Proof.
  induction pss as [|p pss IH]; intros g; [now split|].
  cbn [acquire_all].
  pose proof (acquire_acquired_at p g) as A.
  destruct (acquire cfg p g) as [g' rd]. cbn [fst snd] in A.
  specialize (IH g').
  destruct (acquire_all cfg pss g') as [rds g'']. cbn [fst snd] in *.
  unfold none_yet in *. cbn [forallb]. intros H. apply andb_prop in H as [Hrd H].
  destruct (IH H) as [I1 I2]. rewrite I1, I2.
  rewrite (a_pm25_last _ _ _ _ _ A), (a_pm25 _ _ _ _ _ A), (a_pm10 _ _ _ _ _ A).
  destruct (got_sds rd); [discriminate|now split].
Qed.

Lemma acquire_all_none_bme (pss : list Pass) : forall g : Globals,
  none_yet got_bme (fst (acquire_all cfg pss g)) = true ->
  lastTempC (snd (acquire_all cfg pss g)) = lastTempC g
  /\ lastHum (snd (acquire_all cfg pss g)) = lastHum g
  /\ lastPress (snd (acquire_all cfg pss g)) = lastPress g
  /\ lastGas (snd (acquire_all cfg pss g)) = lastGas g.
Proof.
  induction pss as [|p pss IH]; intros g; [now repeat split|].
  cbn [acquire_all].
  pose proof (acquire_acquired_at p g) as A.
  destruct (acquire cfg p g) as [g' rd]. cbn [fst snd] in A.
  specialize (IH g').
  destruct (acquire_all cfg pss g') as [rds g'']. cbn [fst snd] in *.
  unfold none_yet in *. cbn [forallb]. intros H. apply andb_prop in H as [Hrd H].
  destruct (IH H) as (I1 & I2 & I3 & I4). rewrite I1, I2, I3, I4.
  destruct (a_bme_last _ _ _ _ _ A) as (L1 & L2 & L3 & L4).
  destruct (got_bme rd) eqn:Hb; [discriminate|].
  destruct (a_bme_miss _ _ _ _ _ A Hb) as (M1 & M2 & M3 & M4).
  repeat split; congruence.
Qed.

Lemma acquire_all_none_closed (pss : list Pass) : forall g : Globals,
  none_yet closed_window (fst (acquire_all cfg pss g)) = true ->
  last_closed (fst (acquire_all cfg pss g)) = None.
Proof.
  induction pss as [|p pss IH]; intros g; [reflexivity|].
  cbn [acquire_all].
  destruct (acquire cfg p g) as [g' rd].
  specialize (IH g').
  destruct (acquire_all cfg pss g') as [rds g'']. cbn [fst snd] in *.
  unfold none_yet in *. cbn [forallb last_closed]. intros H.
  apply andb_prop in H as [Hrd H]. rewrite (IH H).
  now destruct (closed_window rd).
Qed.

(** *** Pulses between window closes *)

Lemma wrap32_add_l (a b : Z) : wrap32 (wrap32 a + b) = wrap32 (a + b).
Proof. unfold wrap32. apply Zplus_mod_idemp_l. Qed.

Lemma total_edges_app (a b : list Pass) :
  total_edges (a ++ b) = total_edges a + total_edges b.
Proof.
  unfold total_edges.
  induction a as [|p a IH]; cbn [app fold_right]; [reflexivity|rewrite IH; lia].
Qed.

Lemma acquire_all_open_pulses (pss : list Pass) : forall g : Globals,
  0 <= geigerPulses g < 4294967296 ->
  none_yet closed_window (fst (acquire_all cfg pss g)) = true ->
  geigerPulses (snd (acquire_all cfg pss g))
  = wrap32 (geigerPulses g + total_edges pss).
Proof.
  induction pss as [|ps pss IH]; intros g Hr.
  - intros _. cbn. unfold wrap32. rewrite Z.add_0_r. symmetry. now apply Z.mod_small.
  - cbn [acquire_all].
    pose proof (acquire_acquired_at ps g) as A.
    destruct (acquire cfg ps g) as [g1 rd]. cbn [fst snd] in A.
    specialize (IH g1).
    destruct (acquire_all cfg pss g1) as [rds g2]. cbn [fst snd] in *.
    unfold none_yet in *. cbn [forallb]. intros H. apply andb_prop in H as [Hrd H].
    apply negb_true_iff in Hrd.
    destruct (a_open _ _ _ _ _ A Hrd) as [_ Hp].
    rewrite GeigerFacts.edges_count in Hp by assumption.
    rewrite IH; [|rewrite Hp; apply GeigerFacts.wrap32_range|exact H].
    rewrite Hp, wrap32_add_l.
    change (total_edges (ps :: pss)) with (Z.of_N (isr_edges ps) + total_edges pss).
    f_equal. lia.
Qed.

End Steps.

Section Sketch.

Variable ncfg : Net.Config.
Variable env : Net.Env.
Variable cfg : Settings.

(** What a pass sends is what it acquired. *)
Lemma loop_sends (fuel : nat) (ps : Pass) (g g' : Globals) (w w' : Net.World R) :
  loop ncfg env cfg fuel ps g w = Some (g', w') ->
  g' = fst (acquire cfg ps g)
  /\ exists evs, Net.trace w' = Net.trace w ++ evs
       /\ Forall (fun body => exists ts,
                    body = Net.mkPayload (Net.NODE_ID ncfg) ts
                             (Q2R (r_radiation (snd (acquire cfg ps g))))
                             (Q2R (r_pm25 (snd (acquire cfg ps g))))
                             (Q2R (r_tempC (snd (acquire cfg ps g))))
                             (Q2R (r_hum (snd (acquire cfg ps g))))
                             (Q2R (r_press (snd (acquire cfg ps g))))
                             (Voc.gasToVoc (Q2R (r_gas (snd (acquire cfg ps g))))))
                 (NetObs.post_bodies evs).
Proof.
  unfold loop, post. destruct (acquire cfg ps g) as [g1 rd]. cbn [fst snd].
  destruct (Net.postReading R ncfg env fuel _ _ _ _ _ _ w) as [[b w1]|] eqn:E;
    [|discriminate].
  cbn. intros [= <- <-]. split; [reflexivity|].
  apply NetFacts.postReading_spec in E as (evs & St & H).
  exists (evs ++ [Net.EvDelay Net.SendInterval (SEND_INTERVAL_MS cfg)]).
  cbn [Net.trace]. rewrite (NetObs.st_trace St), <- app_assoc.
  split; [reflexivity|].
  rewrite NetFacts.post_bodies_app. cbn [NetObs.post_bodies flat_map app].
  rewrite app_nil_r.
  destruct H as [[_ Hq]|(ts & _ & D)].
  - rewrite (NetFacts.quiet_no_bodies _ _ Hq). constructor.
  - destruct D as [_ _ Db _ _ _ _].
    eapply Forall_impl; [|exact Db]. intros body <-. now exists (to_long ts).
Qed.



(** What a pass hands to [postReading] is what it leaves in the
    last-known-good variables: the dose rate, the PM2.5 figure, the
    temperature, the humidity and the pressure are passed as they stand in
    [lastRadiationUsvh], [lastPm25], [lastTempC], [lastHum] and [lastPress]
    after the acquisition, and the VOC figure is [gasToVoc] of [lastGas];
    the gas resistance itself is not passed. *)
Theorem globals_hold_last_reading
    (fuel : nat) (ps : Pass) (g : Globals) (w : Net.World R) :
  exists g1,
    g1 = fst (acquire cfg ps g)
    /\ loop ncfg env cfg fuel ps g w
       = match Net.postReading R ncfg env fuel
                 (Q2R (lastRadiationUsvh g1)) (Q2R (lastPm25 g1))
                 (Q2R (lastTempC g1)) (Q2R (lastHum g1)) (Q2R (lastPress g1))
                 (Voc.gasToVoc (Q2R (lastGas g1))) w with
         | Some (_, w1) =>
             match Net.delay R env Net.SendInterval (SEND_INTERVAL_MS cfg) w1 with
             | Some (_, w2) => Some (g1, w2)
             | None => None
             end
         | None => None
         end.
Proof.
  exists (fst (acquire cfg ps g)). split; [reflexivity|].
  pose proof (acquire_acquired_at cfg ps g) as A.
  destruct (a_bme_last _ _ _ _ _ A) as (L1 & L2 & L3 & L4).
  pose proof (a_pm25_last _ _ _ _ _ A) as L5.
  pose proof (a_rad_last _ _ _ _ _ A) as L6.
  unfold loop, post. destruct (acquire cfg ps g) as [g1 rd]. cbn [fst snd] in *.
  now rewrite L1, L2, L3, L4, L5, L6.
Qed.

(** C9: the [radiation_cpm] field of every payload a pass sends is the
    pass's dose rate, not a count rate.  When the pass closes the pulse-count
    window it is the counter's content in counts per minute,
    [pulses * 60000 / GEIGER_WINDOW_MS], divided by [GEIGER_CPM_PER_USVH];
    when it does not, it is the dose rate of the latest window closed by an
    earlier pass (and the initial value of [lastRadiationUsvh] when none has
    been closed yet).  The counter holds the window's counts: it is 0 after
    [setup] and after every close, so the pulses of a closed window are the
    handler's runs since the previous close, those of the passes that left
    the window open included (modulo [2^32]).  And the field is sent: with
    the link up for good, the time trusted, the host reachable and the
    client usable, the pass returns having made at least one POST, each with
    the pass's dose rate in that field. *)
Theorem radiation_field_is_dose_rate :
  (forall (ps : Pass) (g : Globals),
      (closed_window (snd (acquire cfg ps g)) = true ->
       r_radiation (snd (acquire cfg ps g))
       = ((inject_Z (Geiger.edges (isr_edges ps) (geigerPulses g)) * 60000
           / inject_Z (GEIGER_WINDOW_MS cfg))
          / GEIGER_CPM_PER_USVH cfg)%Q)
      /\ (closed_window (snd (acquire cfg ps g)) = false ->
          r_radiation (snd (acquire cfg ps g)) = lastRadiationUsvh g))
  /\ (forall (pss : list Pass) (ps : Pass) (g0 : Globals),
        closed_window (snd (acquire cfg ps (snd (acquire_all cfg pss g0)))) = false ->
        r_radiation (snd (acquire cfg ps (snd (acquire_all cfg pss g0))))
        = match last_closed (fst (acquire_all cfg pss g0)) with
          | Some rate => rate
          | None => lastRadiationUsvh g0
          end)
  /\ (forall (fuel : nat) (ps : Pass) (g g' : Globals) (w w' : Net.World R),
        loop ncfg env cfg fuel ps g w = Some (g', w') ->
        exists evs, Net.trace w' = Net.trace w ++ evs
          /\ Forall (fun body =>
                       Net.radiation_cpm body
                       = Q2R (r_radiation (snd (acquire cfg ps g))))
                    (NetObs.post_bodies evs))
  /\ (forall ps0 : Pass, geigerPulses (setup_globals cfg ps0 (boot_globals cfg)) = 0)
  /\ (forall (pss : list Pass) (ps : Pass) (g : Globals),
        geigerPulses g = 0 ->
        none_yet closed_window (fst (acquire_all cfg pss g)) = true ->
        closed_window (snd (acquire cfg ps (snd (acquire_all cfg pss g)))) = true ->
        r_radiation (snd (acquire cfg ps (snd (acquire_all cfg pss g))))
        = ((inject_Z (wrap32 (total_edges (pss ++ [ps]))) * 60000
            / inject_Z (GEIGER_WINDOW_MS cfg))
           / GEIGER_CPM_PER_USVH cfg)%Q
        /\ geigerPulses (fst (acquire cfg ps (snd (acquire_all cfg pss g)))) = 0)
  /\ (forall (fuel : nat) (ps : Pass) (g : Globals) (w : Net.World R),
        NetObs.up_from env (Net.polls w) ->
        NetObs.time_ok ncfg env w = true ->
        Net.dns_ok env (Net.lookups w) = true ->
        Net.tcp_ok env (Net.lookups w) = true ->
        Net.beginHttps ncfg env = true ->
        exists g' w' evs,
          loop ncfg env cfg fuel ps g w = Some (g', w')
          /\ Net.trace w' = Net.trace w ++ evs
          /\ NetObs.post_bodies evs <> []
          /\ Forall (fun body =>
                       Net.radiation_cpm body
                       = Q2R (r_radiation (snd (acquire cfg ps g))))
                    (NetObs.post_bodies evs)).
Proof.
  split; [|split; [|split; [|split; [|split]]]].
  - intros ps g. pose proof (acquire_acquired_at cfg ps g) as A. split.
    + intros H. now apply (a_closed _ _ _ _ _ A).
    + intros H. now apply (a_open _ _ _ _ _ A).
  - intros pss ps g0 H.
    pose proof (acquire_acquired_at cfg ps (snd (acquire_all cfg pss g0))) as A.
    destruct (a_open _ _ _ _ _ A H) as [-> _].
    apply acquire_all_radiation.
  - intros fuel ps g g' w w' H.
    apply loop_sends in H as (_ & evs & Ht & Hb).
    exists evs. split; [exact Ht|].
    eapply Forall_impl; [|exact Hb]. intros body (ts & ->). reflexivity.
  - intros ps0.
    unfold setup_globals, millis.
    destruct (initBME cfg ps0 _) as [ready addr].
    destruct (negb ready); reflexivity.
  - intros pss ps g Hz Hopen Hclosed.
    assert (Hr : 0 <= geigerPulses g < 4294967296) by (rewrite Hz; lia).
    pose proof (acquire_all_open_pulses cfg pss g Hr Hopen) as Hp.
    pose proof (acquire_acquired_at cfg ps (snd (acquire_all cfg pss g))) as A.
    destruct (a_closed _ _ _ _ _ A Hclosed) as [Hrad Hzero].
    split; [|exact Hzero].
    rewrite Hrad, Hp, Hz. unfold dose_rate.
    rewrite GeigerFacts.edges_count by apply GeigerFacts.wrap32_range.
    rewrite wrap32_add_l, total_edges_app.
    change (total_edges [ps]) with (Z.of_N (isr_edges ps) + 0).
    do 5 f_equal. lia.
  - intros fuel ps g w Hup Htime Hdns Htcp Hbegin.
    destruct (NetFacts.postReading_sends R ncfg env fuel
                (Q2R (r_radiation (snd (acquire cfg ps g))))
                (Q2R (r_pm25 (snd (acquire cfg ps g))))
                (Q2R (r_tempC (snd (acquire cfg ps g))))
                (Q2R (r_hum (snd (acquire cfg ps g))))
                (Q2R (r_press (snd (acquire cfg ps g))))
                (Voc.gasToVoc (Q2R (r_gas (snd (acquire cfg ps g)))))
                w Hup Htime Hdns Htcp Hbegin) as (b & w1 & evs & E & T & Hne).
    assert (El : exists w',
               loop ncfg env cfg fuel ps g w = Some (fst (acquire cfg ps g), w')
               /\ Net.trace w'
                  = Net.trace w1
                    ++ [Net.EvDelay Net.SendInterval (SEND_INTERVAL_MS cfg)]).
    { unfold loop, post. destruct (acquire cfg ps g) as [g1 rd]. cbn [fst snd] in *.
      rewrite E. cbn. eexists. split; reflexivity. }
    destruct El as (w' & El & T').
    pose proof El as H. apply loop_sends in H as (_ & evs' & Ht & Hb).
    assert (evs' = evs ++ [Net.EvDelay Net.SendInterval (SEND_INTERVAL_MS cfg)])
      as ->.
    { rewrite T', T, <- app_assoc in Ht. now apply app_inv_head in Ht. }
    rewrite NetFacts.post_bodies_app in Hb.
    cbn [NetObs.post_bodies flat_map app] in Hb. rewrite app_nil_r in Hb.
    exists (fst (acquire cfg ps g)), w',
      (evs ++ [Net.EvDelay Net.SendInterval (SEND_INTERVAL_MS cfg)]).
    split; [exact El|]. split; [now rewrite T', T, <- app_assoc|].
    rewrite NetFacts.post_bodies_app.
    cbn [NetObs.post_bodies flat_map app]. rewrite app_nil_r.
    split; [exact Hne|].
    eapply Forall_impl; [|exact Hb]. intros body (ts & ->). reflexivity.
Qed.

(** C10: the last-known-good variables start from 12.0, 0.0, 24.0, 55,
    1010.0, 100000 and 0.0, and [setup] leaves them alone; a pass changes
    those of a sensor only when its own read succeeded (a frame accepted by
    [readSDS], a successful [readBME], a closed pulse-count window); hence
    as long as no read of a sensor has succeeded the reading handed to
    [postReading] carries that sensor's initial constant (and 450 for the
    VOC figure derived from the gas resistance), and that reading is what
    the payload reports. *)
Theorem boot_constants_until_first_read :
  (lastPm25 (boot_globals cfg) = 12%Q /\ lastPm10 (boot_globals cfg) = 0%Q
   /\ lastTempC (boot_globals cfg) = 24%Q /\ lastHum (boot_globals cfg) = 55%Q
   /\ lastPress (boot_globals cfg) = 1010%Q /\ lastGas (boot_globals cfg) = 100000%Q
   /\ lastRadiationUsvh (boot_globals cfg) = 0%Q)
  /\ (forall (ps : Pass) (g : Globals),
        (got_sds (snd (acquire cfg ps g)) = false ->
         lastPm25 (fst (acquire cfg ps g)) = lastPm25 g
         /\ lastPm10 (fst (acquire cfg ps g)) = lastPm10 g)
        /\ (got_sds (snd (acquire cfg ps g)) = true ->
            SDS.sds_ok (SDS.readSDS (sds_window ps) (sds_rx ps) 0 0) = true
            /\ lastPm25 (fst (acquire cfg ps g))
               = SDS.sds_pm25 (SDS.readSDS (sds_window ps) (sds_rx ps) 0 0)
            /\ lastPm10 (fst (acquire cfg ps g))
               = SDS.sds_pm10 (SDS.readSDS (sds_window ps) (sds_rx ps) 0 0))
        /\ (got_bme (snd (acquire cfg ps g)) = false ->
            lastTempC (fst (acquire cfg ps g)) = lastTempC g
            /\ lastHum (fst (acquire cfg ps g)) = lastHum g
            /\ lastPress (fst (acquire cfg ps g)) = lastPress g
            /\ lastGas (fst (acquire cfg ps g)) = lastGas g)
        /\ (got_bme (snd (acquire cfg ps g)) = true ->
            exists temperature humidity pressure gas_resistance,
              bme_sample ps = Some (temperature, humidity, pressure, gas_resistance)
              /\ lastTempC (fst (acquire cfg ps g)) = temperature
              /\ lastHum (fst (acquire cfg ps g)) = humidity
              /\ lastPress (fst (acquire cfg ps g)) = (pressure / 100)%Q
              /\ lastGas (fst (acquire cfg ps g)) = gas_resistance)
        /\ (closed_window (snd (acquire cfg ps g)) = false ->
            lastRadiationUsvh (fst (acquire cfg ps g)) = lastRadiationUsvh g))
  /\ (forall (ps0 : Pass) (pss : list Pass) (ps : Pass),
        (none_yet got_sds
           (fst (acquire_all cfg pss (setup_globals cfg ps0 (boot_globals cfg)))
            ++ [snd (acquire cfg ps
                       (snd (acquire_all cfg pss
                               (setup_globals cfg ps0 (boot_globals cfg)))))])
         = true ->
         r_pm25 (snd (acquire cfg ps
                        (snd (acquire_all cfg pss
                                (setup_globals cfg ps0 (boot_globals cfg))))))
         = 12%Q)
        /\ (none_yet got_bme
              (fst (acquire_all cfg pss (setup_globals cfg ps0 (boot_globals cfg)))
               ++ [snd (acquire cfg ps
                          (snd (acquire_all cfg pss
                                  (setup_globals cfg ps0 (boot_globals cfg)))))])
            = true ->
            r_tempC (snd (acquire cfg ps
                            (snd (acquire_all cfg pss
                                    (setup_globals cfg ps0 (boot_globals cfg))))))
            = 24%Q
            /\ r_hum (snd (acquire cfg ps
                             (snd (acquire_all cfg pss
                                     (setup_globals cfg ps0 (boot_globals cfg))))))
               = 55%Q
            /\ r_press (snd (acquire cfg ps
                               (snd (acquire_all cfg pss
                                       (setup_globals cfg ps0 (boot_globals cfg))))))
               = 1010%Q
            /\ Voc.gasToVoc
                 (Q2R (r_gas (snd (acquire cfg ps
                                     (snd (acquire_all cfg pss
                                             (setup_globals cfg ps0
                                                (boot_globals cfg))))))))
               = 450%R)
        /\ (none_yet closed_window
              (fst (acquire_all cfg pss (setup_globals cfg ps0 (boot_globals cfg)))
               ++ [snd (acquire cfg ps
                          (snd (acquire_all cfg pss
                                  (setup_globals cfg ps0 (boot_globals cfg)))))])
            = true ->
            r_radiation (snd (acquire cfg ps
                                (snd (acquire_all cfg pss
                                        (setup_globals cfg ps0 (boot_globals cfg))))))
            = 0%Q))
  /\ (forall (fuel : nat) (ps : Pass) (g g' : Globals) (w w' : Net.World R),
        loop ncfg env cfg fuel ps g w = Some (g', w') ->
        exists evs, Net.trace w' = Net.trace w ++ evs
          /\ Forall (fun body =>
                       Net.radiation_cpm body = Q2R (r_radiation (snd (acquire cfg ps g)))
                       /\ Net.pm25 body = Q2R (r_pm25 (snd (acquire cfg ps g)))
                       /\ Net.air_temp_c body = Q2R (r_tempC (snd (acquire cfg ps g)))
                       /\ Net.humidity body = Q2R (r_hum (snd (acquire cfg ps g)))
                       /\ Net.pressure_hpa body = Q2R (r_press (snd (acquire cfg ps g)))
                       /\ Net.voc body
                          = Voc.gasToVoc (Q2R (r_gas (snd (acquire cfg ps g)))))
                    (NetObs.post_bodies evs)).
Proof.
  split; [repeat split|]. split; [|split].
  - intros ps g. pose proof (acquire_acquired_at cfg ps g) as A.
    destruct (a_bme_last _ _ _ _ _ A) as (L1 & L2 & L3 & L4).
    split; [|split; [|split; [|split]]].
    + intros H. rewrite (a_pm25_last _ _ _ _ _ A), (a_pm25 _ _ _ _ _ A),
        (a_pm10 _ _ _ _ _ A), H. now split.
    + intros H. rewrite (a_pm25_last _ _ _ _ _ A), (a_pm25 _ _ _ _ _ A),
        (a_pm10 _ _ _ _ _ A), <- (a_sds_flag _ _ _ _ _ A), H. now repeat split.
    + intros H. destruct (a_bme_miss _ _ _ _ _ A H) as (M1 & M2 & M3 & M4).
      repeat split; congruence.
    + intros H.
      destruct (a_bme_hit _ _ _ _ _ A H) as (te & hu & pr & ga & Hs & M1 & M2 & M3 & M4).
      exists te, hu, pr, ga. repeat split; congruence.
    + intros H. rewrite (a_rad_last _ _ _ _ _ A). now apply (a_open _ _ _ _ _ A).
  - intros ps0 pss ps.
    set (g0 := setup_globals cfg ps0 (boot_globals cfg)).
    destruct (setup_globals_keeps cfg ps0 (boot_globals cfg))
      as (S1 & S2 & S3 & S4 & S5 & S6 & S7). fold g0 in S1, S2, S3, S4, S5, S6, S7.
    pose proof (acquire_acquired_at cfg ps (snd (acquire_all cfg pss g0))) as A.
    unfold none_yet. rewrite !forallb_app. cbn [forallb].
    split; [|split].
    + intros H. apply andb_prop in H as [H Hrd]. rewrite andb_true_r in Hrd.
      destruct (acquire_all_none_sds cfg pss g0 H) as [I1 _].
      rewrite (a_pm25 _ _ _ _ _ A).
      destruct (got_sds _); [discriminate|]. now rewrite I1, S1.
    + intros H. apply andb_prop in H as [H Hrd]. rewrite andb_true_r in Hrd.
      destruct (acquire_all_none_bme cfg pss g0 H) as (I1 & I2 & I3 & I4).
      destruct (got_bme _) eqn:Hb; [discriminate|].
      destruct (a_bme_miss _ _ _ _ _ A Hb) as (M1 & M2 & M3 & M4).
      rewrite M1, M2, M3, M4, I1, I2, I3, I4, S3, S4, S5, S6.
      repeat split.
      replace (Q2R (lastGas (boot_globals cfg))) with 100000%R
        by (cbn; unfold Q2R; cbn; lra).
      apply VocFacts.gasToVoc_100000.
    + intros H. apply andb_prop in H as [H Hrd]. rewrite andb_true_r in Hrd.
      destruct (closed_window _) eqn:Hc; [discriminate|].
      destruct (a_open _ _ _ _ _ A Hc) as [-> _].
      rewrite acquire_all_radiation, (acquire_all_none_closed cfg pss g0 H).
      exact S7.
  - intros fuel ps g g' w w' H.
    apply loop_sends in H as (_ & evs & Ht & Hb).
    exists evs. split; [exact Ht|].
    eapply Forall_impl; [|exact Hb]. intros body (ts & ->). now repeat split.
Qed.

End Sketch.

Import LoopDemo.

Lemma radiation_field_is_dose_rate_witness :
  r_radiation (snd (acquire demo_settings (quiet_pass 21000 [] 3) after_setup))
  = ((inject_Z 3 * 60000 / inject_Z 10000) / 153.8)%Q
  /\ r_radiation (snd (acquire demo_settings (quiet_pass 5000 [] 3) after_setup))
     = 0%Q
  /\ r_radiation
       (snd (acquire demo_settings (quiet_pass 25000 [] 1)
               (snd (acquire_all demo_settings [quiet_pass 21000 [] 3] after_setup))))
     = ((inject_Z 3 * 60000 / inject_Z 10000) / 153.8)%Q
  /\ (r_radiation
        (snd (acquire demo_settings (quiet_pass 32000 [] 4)
                (snd (acquire_all demo_settings [quiet_pass 25000 [] 2]
                        (snd (acquire_all demo_settings [quiet_pass 21000 [] 3]
                                after_setup))))))
      = ((inject_Z 6 * 60000 / inject_Z 10000) / 153.8)%Q
      /\ geigerPulses
           (fst (acquire demo_settings (quiet_pass 32000 [] 4)
                   (snd (acquire_all demo_settings [quiet_pass 25000 [] 2]
                           (snd (acquire_all demo_settings [quiet_pass 21000 [] 3]
                                   after_setup)))))) = 0)
  /\ (exists g' w' evs,
       loop NetDemo.demo_cfg NetDemo.env_lucky demo_settings 0
            (quiet_pass 21000 [] 3) after_setup boot_world = Some (g', w')
       /\ Net.trace w' = Net.trace boot_world ++ evs
       /\ Forall (fun body =>
                    Net.radiation_cpm body
                    = Q2R (r_radiation
                             (snd (acquire demo_settings (quiet_pass 21000 [] 3)
                                     after_setup))))
                 (NetObs.post_bodies evs))
  /\ (exists g' w' evs,
       loop NetDemo.demo_cfg NetDemo.env_lucky demo_settings 0
            (quiet_pass 21000 [] 3) after_setup boot_world = Some (g', w')
       /\ Net.trace w' = Net.trace boot_world ++ evs
       /\ NetObs.post_bodies evs <> []
       /\ Forall (fun body =>
                    Net.radiation_cpm body
                    = Q2R (r_radiation
                             (snd (acquire demo_settings (quiet_pass 21000 [] 3)
                                     after_setup))))
                 (NetObs.post_bodies evs)).
Proof.
  destruct (radiation_field_is_dose_rate NetDemo.demo_cfg NetDemo.env_lucky demo_settings)
    as (H1 & H2 & H3 & _ & H5 & H6).
  split; [|split; [|split; [|split; [|split]]]].
  - exact (proj1 (H1 (quiet_pass 21000 [] 3) after_setup) eq_refl).
  - exact (proj2 (H1 (quiet_pass 5000 [] 3) after_setup) eq_refl).
  - exact (H2 [quiet_pass 21000 [] 3] (quiet_pass 25000 [] 1) after_setup eq_refl).
  - exact (H5 [quiet_pass 25000 [] 2] (quiet_pass 32000 [] 4)
              (snd (acquire_all demo_settings [quiet_pass 21000 [] 3] after_setup))
              eq_refl eq_refl eq_refl).
  - assert (E : exists g' w',
               loop NetDemo.demo_cfg NetDemo.env_lucky demo_settings 0
                    (quiet_pass 21000 [] 3) after_setup boot_world = Some (g', w'))
      by (vm_compute; do 2 eexists; reflexivity).
    destruct E as (g' & w' & E).
    destruct (H3 0%nat (quiet_pass 21000 [] 3) after_setup g' boot_world w' E)
      as (evs & H).
    exists g', w', evs. split; [exact E|exact H].
  - apply (H6 0%nat (quiet_pass 21000 [] 3) after_setup boot_world);
      try reflexivity.
    intros i _. reflexivity.
Defined.

Lemma boot_constants_until_first_read_witness :
  r_pm25 (snd (acquire demo_settings (quiet_pass 21000 SDSDemo.corrupt_frame 1)
                 (snd (acquire_all demo_settings [quiet_pass 5000 [] 2]
                         (setup_globals demo_settings (quiet_pass 200 [] 0)
                            (boot_globals demo_settings))))))
  = 12%Q
  /\ r_tempC (snd (acquire demo_settings (quiet_pass 21000 SDSDemo.corrupt_frame 1)
                     (snd (acquire_all demo_settings [quiet_pass 5000 [] 2]
                             (setup_globals demo_settings (quiet_pass 200 [] 0)
                                (boot_globals demo_settings))))))
     = 24%Q
  /\ r_radiation (snd (acquire demo_settings (quiet_pass 7000 [] 1)
                         (snd (acquire_all demo_settings [quiet_pass 5000 [] 2]
                                 (setup_globals demo_settings (quiet_pass 200 [] 0)
                                    (boot_globals demo_settings))))))
     = 0%Q
  /\ lastPm25 (fst (acquire demo_settings (quiet_pass 21000 SDSDemo.sample_frame 1)
                      after_setup))
     = 12.3%Q
  /\ lastTempC (fst (acquire demo_settings (bme_pass 21000 1) after_setup)) = 21.5%Q.
Proof.
  destruct (boot_constants_until_first_read
              NetDemo.demo_cfg NetDemo.env_lucky demo_settings)
    as (_ & H2 & H3 & _).
  split; [|split; [|split; [|split]]].
  - exact (proj1 (H3 (quiet_pass 200 [] 0) [quiet_pass 5000 [] 2]
                     (quiet_pass 21000 SDSDemo.corrupt_frame 1)) eq_refl).
  - exact (proj1 (proj1 (proj2 (H3 (quiet_pass 200 [] 0) [quiet_pass 5000 [] 2]
                                   (quiet_pass 21000 SDSDemo.corrupt_frame 1)))
                   eq_refl)).
  - exact (proj2 (proj2 (H3 (quiet_pass 200 [] 0) [quiet_pass 5000 [] 2]
                            (quiet_pass 7000 [] 1))) eq_refl).
  - destruct (proj1 (proj2 (H2 (quiet_pass 21000 SDSDemo.sample_frame 1) after_setup))
                eq_refl) as (_ & H & _).
    exact H.
  - destruct (proj1 (proj2 (proj2 (proj2 (H2 (bme_pass 21000 1) after_setup))))
                eq_refl) as (te & hu & pr & ga & Hs & H & _).
    injection Hs as <- _ _ _. exact H.
Defined.

End LoopFacts.

(** ** The frame decoder: what an accepted frame was *)

Module DecoderFacts.
Import SDS SDSDemo Byte.

(** An idle line: the window runs out and nothing changes. *)
Lemma readSDS_idle (window : nat) (p q : Q) :
  readSDS window [] p q = mkSds false p q [].
Proof. induction window as [|w IH]; [reflexivity | exact IH]. Qed.

(** A header with fewer than nine bytes behind it: [readBytes] times out
    short, the bytes it got are dropped. *)
Lemma readSDS_truncated (n : nat) (h : byte) (rx1 : list byte) (p q : Q) :
  u8 h = SDS_HEADER1 -> (List.length rx1 < 9)%nat ->
  readSDS (S n) (h :: rx1) p q = mkSds false p q [].
Proof.
  intros Hh Hlen. cbn [readSDS]. rewrite Hh.
  cbn [negb Z.eqb SDS_HEADER1 Pos.eqb]. unfold readBytes.
  rewrite firstn_all2 by lia. rewrite skipn_all2 by lia.
  replace (Z.of_nat (List.length rx1) =? SDS_FRAME_LEN - 1) with false.
  - cbn [negb]. apply readSDS_idle.
  - symmetry. apply Z.eqb_neq. unfold SDS_FRAME_LEN. lia.
Qed.

(** Whatever the decoder accepts is a well-formed frame of the stream, and
    what it leaves unread is what follows that frame. *)
Lemma readSDS_sound (window : nat) : forall (rx : list byte) (p q : Q),
  sds_ok (readSDS window rx p q) = true ->
  exists pre frame,
    rx = pre ++ frame ++ sds_rest (readSDS window rx p q)
    /\ well_formed_frame frame = true
    /\ sds_pm25 (readSDS window rx p q) = frame_pm25 frame
    /\ sds_pm10 (readSDS window rx p q) = frame_pm10 frame.
Proof.
  induction window as [|w IH]; intros rx p q Hok; [discriminate|].
  destruct rx as [|b rx1].
  - rewrite readSDS_idle in Hok. discriminate.
  - destruct (Z.eq_dec (u8 b) SDS_HEADER1) as [Hb|Hb].
    + destruct (Nat.lt_ge_cases (List.length rx1) 9) as [Hshort|Hlong].
      * rewrite readSDS_truncated in Hok by assumption. discriminate.
      * assert (Hfl : List.length (firstn 9 rx1) = 9%nat)
          by (rewrite length_firstn; lia).
        revert Hok. rewrite <- (firstn_skipn 9 rx1).
        rewrite (SDSFacts.readSDS_header w b (firstn 9 rx1) (skipn 9 rx1) p q Hb Hfl).
        rewrite (SDSFacts.body_valid_well_formed b) by assumption.
        destruct (well_formed_frame (b :: firstn 9 rx1)) eqn:Hwf.
        -- intros _. exists [], (b :: firstn 9 rx1).
           pose proof (SDSFacts.readSDS_accepts w (b :: firstn 9 rx1)
                         (skipn 9 rx1) p q Hwf) as Hacc.
           cbn [app] in Hacc.
           rewrite (SDSFacts.readSDS_header w b (firstn 9 rx1) (skipn 9 rx1) p q Hb Hfl)
             in Hacc.
           rewrite (SDSFacts.body_valid_well_formed b) in Hacc by assumption.
           rewrite Hwf in Hacc.
           pose proof (f_equal sds_pm25 Hacc) as E25.
           pose proof (f_equal sds_pm10 Hacc) as E10.
           cbn [sds_pm25 sds_pm10] in E25, E10.
           cbn [sds_rest sds_pm25 sds_pm10 app].
           split; [reflexivity|]. split; [exact Hwf|]. now split.
        -- intros Hok. destruct (IH _ _ _ Hok) as (pre & frame & Hrx & Hf & H25 & H10).
           exists (b :: firstn 9 rx1 ++ pre), frame.
           repeat split; try assumption.
           cbn [app]. rewrite <- app_assoc. now rewrite <- Hrx.
    + rewrite SDSFacts.readSDS_skip in * by assumption.
      destruct (IH _ _ _ Hok) as (pre & frame & Hrx & Hf & H25 & H10).
      exists (b :: pre), frame. repeat split; try assumption.
      cbn [app]. now rewrite <- Hrx.
Qed.

Lemma le16_range (lo hi : byte) : 0 <= le16 lo hi <= 65535.
Proof.
  unfold le16. pose proof (u8_range lo). pose proof (u8_range hi). lia.
Qed.

Lemma tenth_range (z : Z) :
  0 <= z <= 65535 -> (0 <= inject_Z z / 10 /\ inject_Z z / 10 <= 6553.5)%Q.
Proof.
  intros Hz. unfold Qle, Qdiv, Qmult, Qinv, inject_Z. cbn. lia.
Qed.

(** Soundness of the decoder: when [readSDS] returns true, the stream holds
    a well-formed frame whose two little-endian values, divided by ten, are
    what the call wrote, and the bytes left unread are exactly those that
    follow this frame. *)
Theorem readSDS_accepts_only_valid_frames :
  forall (window : nat) (rx : list byte) (pm25 pm10 : Q),
    sds_ok (readSDS window rx pm25 pm10) = true ->
    exists pre frame,
      rx = pre ++ frame ++ sds_rest (readSDS window rx pm25 pm10)
      /\ well_formed_frame frame = true
      /\ sds_pm25 (readSDS window rx pm25 pm10)
         = (inject_Z (le16 (nth 2 frame x00) (nth 3 frame x00)) / 10)%Q
      /\ sds_pm10 (readSDS window rx pm25 pm10)
         = (inject_Z (le16 (nth 4 frame x00) (nth 5 frame x00)) / 10)%Q.
Proof. intros window rx pm25 pm10. apply readSDS_sound. Qed.

Lemma readSDS_accepts_only_valid_frames_witness :
  exists pre frame,
    [x17; xaa; x05] ++ corrupt_frame ++ sample_frame ++ [x09]
    = pre ++ frame
      ++ sds_rest (readSDS 9 ([x17; xaa; x05] ++ corrupt_frame ++ sample_frame ++ [x09]) 0 0)
    /\ well_formed_frame frame = true
    /\ sds_pm25 (readSDS 9 ([x17; xaa; x05] ++ corrupt_frame ++ sample_frame ++ [x09]) 0 0)
       = (inject_Z (le16 (nth 2 frame x00) (nth 3 frame x00)) / 10)%Q
    /\ sds_pm10 (readSDS 9 ([x17; xaa; x05] ++ corrupt_frame ++ sample_frame ++ [x09]) 0 0)
       = (inject_Z (le16 (nth 4 frame x00) (nth 5 frame x00)) / 10)%Q.
Proof.
  apply (readSDS_accepts_only_valid_frames 9
           ([x17; xaa; x05] ++ corrupt_frame ++ sample_frame ++ [x09]) 0 0).
  reflexivity.
Defined.

(** The values of an accepted frame: a number of tenths between 0 and
    65535, so a concentration between 0 and 6553.5. *)
Theorem readSDS_values_in_range :
  forall (window : nat) (rx : list byte) (pm25 pm10 : Q),
    sds_ok (readSDS window rx pm25 pm10) = true ->
    (exists a b : Z,
        0 <= a <= 65535 /\ 0 <= b <= 65535
        /\ sds_pm25 (readSDS window rx pm25 pm10) = (inject_Z a / 10)%Q
        /\ sds_pm10 (readSDS window rx pm25 pm10) = (inject_Z b / 10)%Q)
    /\ (0 <= sds_pm25 (readSDS window rx pm25 pm10) <= 6553.5)%Q
    /\ (0 <= sds_pm10 (readSDS window rx pm25 pm10) <= 6553.5)%Q.
Proof.
  intros window rx pm25 pm10 Hok.
  destruct (readSDS_sound _ _ _ _ Hok) as (pre & frame & _ & _ & H25 & H10).
  rewrite H25, H10. unfold frame_pm25, frame_pm10.
  split; [|split; apply tenth_range, le16_range].
  eexists _, _. repeat split; try apply le16_range.
Qed.

Lemma readSDS_values_in_range_witness :
  (exists a b : Z,
      0 <= a <= 65535 /\ 0 <= b <= 65535
      /\ sds_pm25 (readSDS 5 ([x17] ++ sample_frame) 0 0) = (inject_Z a / 10)%Q
      /\ sds_pm10 (readSDS 5 ([x17] ++ sample_frame) 0 0) = (inject_Z b / 10)%Q)
  /\ (0 <= sds_pm25 (readSDS 5 ([x17] ++ sample_frame) 0 0) <= 6553.5)%Q
  /\ (0 <= sds_pm10 (readSDS 5 ([x17] ++ sample_frame) 0 0) <= 6553.5)%Q.
Proof.
  apply (readSDS_values_in_range 5 ([x17] ++ sample_frame) 0 0). reflexivity.
Defined.

(** Fewer than ten bytes on the line are never a reading: the call returns
    false with both reference parameters untouched, however long the read
    window; this covers the idle line and the frame cut short. *)
Theorem readSDS_needs_ten_bytes :
  forall (window : nat) (rx : list byte) (pm25 pm10 : Q),
    (List.length rx < 10)%nat ->
    sds_ok (readSDS window rx pm25 pm10) = false
    /\ sds_pm25 (readSDS window rx pm25 pm10) = pm25
    /\ sds_pm10 (readSDS window rx pm25 pm10) = pm10.
Proof.
  intros window rx pm25 pm10 Hlen.
  assert (Hok : sds_ok (readSDS window rx pm25 pm10) = false).
  { destruct (sds_ok (readSDS window rx pm25 pm10)) eqn:Hok; [|reflexivity].
    destruct (readSDS_sound _ _ _ _ Hok) as (pre & frame & Hrx & Hwf & _).
    apply SDSFacts.well_formed_length in Hwf.
    apply (f_equal (@List.length byte)) in Hrx.
    rewrite !length_app in Hrx. lia. }
  split; [exact Hok|]. now apply SDSFacts.readSDS_fail_keeps.
Qed.

Lemma readSDS_needs_ten_bytes_witness :
  sds_ok (readSDS 100 [xaa; xc0; x7b; x00; xc8; x00; x01; x02; x46] 7 9) = false
  /\ sds_pm25 (readSDS 100 [xaa; xc0; x7b; x00; xc8; x00; x01; x02; x46] 7 9) = 7%Q
  /\ sds_pm10 (readSDS 100 [xaa; xc0; x7b; x00; xc8; x00; x01; x02; x46] 7 9) = 9%Q.
Proof.
  apply (readSDS_needs_ten_bytes 100 [xaa; xc0; x7b; x00; xc8; x00; x01; x02; x46] 7 9).
  cbn. lia.
Defined.

End DecoderFacts.


(** ** The shape of the gas-to-VOC mapping *)

Module VocShape.
Import Voc.

Local Open Scope R_scope.

Lemma clamp_bounds (x lo hi : R) : lo <= hi -> lo <= clamp x lo hi <= hi.
Proof.
  intros H. unfold clamp, Rmin, Rmax.
  destruct (Rle_dec x lo); destruct (Rle_dec _ hi); lra.
Qed.

Lemma clamp_monotone (x y lo hi : R) : x <= y -> clamp x lo hi <= clamp y lo hi.
Proof.
  intros H. unfold clamp, Rmin, Rmax.
  destruct (Rle_dec x lo); destruct (Rle_dec y lo);
    repeat match goal with
           | |- context [Rle_dec ?a ?b] => destruct (Rle_dec a b)
           end; lra.
Qed.

Lemma log10_monotone (a b : R) : 0 < a -> a <= b -> log10 a <= log10 b.
Proof.
  intros Ha Hab. unfold log10, Rdiv.
  apply Rmult_le_compat_r.
  - left. apply Rinv_0_lt_compat, VocFacts.ln_10_pos.
  - destruct Hab as [Hlt| ->]; [|lra]. left. now apply ln_increasing.
Qed.

(** Whatever the gas resistance, the mapped value lies between 50 and 800;
    resistances of at most 1 Ohm (but above 0) map to the floor and those of
    at least 10^10 Ohm to the cap. *)
Theorem gasToVoc_bounded :
  (forall gasOhms : R, 50 <= gasToVoc gasOhms <= 800)
  /\ (forall gasOhms : R, 0 < gasOhms <= 1 -> gasToVoc gasOhms = 50)
  /\ (forall gasOhms : R, 10 ^ 10 <= gasOhms -> gasToVoc gasOhms = 800).
Proof.
  split; [|split].
  - intros x. rewrite VocFacts.gasToVoc_clamp.
    destruct (Rle_dec x 0); [lra|]. apply clamp_bounds. lra.
  - intros x [Hpos Hle]. rewrite VocFacts.gasToVoc_clamp.
    destruct (Rle_dec x 0); [lra|].
    pose proof (log10_monotone x 1 Hpos Hle) as Hl.
    rewrite VocFacts.log10_1 in Hl.
    unfold clamp, Rmin, Rmax.
    destruct (Rle_dec (50 + 80 * log10 x) 50); [|lra].
    destruct (Rle_dec 50 800); lra.
  - intros x Hx. rewrite VocFacts.gasToVoc_clamp.
    assert (Hp : 0 < 10 ^ 10) by (apply pow_lt; lra).
    destruct (Rle_dec x 0); [lra|].
    pose proof (log10_monotone (10 ^ 10) x Hp Hx) as Hl.
    rewrite VocFacts.log10_pow10 in Hl. simpl INR in Hl.
    unfold clamp, Rmin, Rmax.
    destruct (Rle_dec (50 + 80 * log10 x) 50); [lra|].
    destruct (Rle_dec (50 + 80 * log10 x) 800); lra.
Qed.

Lemma gasToVoc_bounded_witness :
  50 <= gasToVoc 250000 <= 800 /\ gasToVoc (1 / 2) = 50 /\ gasToVoc (10 ^ 11) = 800.
Proof.
  destruct gasToVoc_bounded as (H1 & H2 & H3).
  split; [apply H1|]. split; [apply H2; lra|].
  apply H3. simpl. lra.
Defined.

(** Over positive resistances the mapping is monotone: a larger resistance
    never maps to a smaller value. *)
Theorem gasToVoc_monotone :
  forall a b : R, 0 < a -> a <= b -> gasToVoc a <= gasToVoc b.
Proof.
  intros a b Ha Hab. rewrite !VocFacts.gasToVoc_clamp.
  destruct (Rle_dec a 0); [lra|]. destruct (Rle_dec b 0); [lra|].
  apply clamp_monotone.
  pose proof (log10_monotone a b Ha Hab). lra.
Qed.

Lemma gasToVoc_monotone_witness : gasToVoc 100000 <= gasToVoc 250000.
Proof. apply (gasToVoc_monotone 100000 250000); lra. Defined.

End VocShape.


(** ** The transport: what it logs, and what it never does *)

Module TransportFacts.
Import Net NetObs TraceObs.

Section Logs.

Variable float : Type.
Variable cfg : Net.Config.
Variable env : Net.Env.

Local Abbreviation World := (Net.World float).
Local Abbreviation event := (Net.event float).
Local Abbreviation M := (Net.M float).
Local Abbreviation bind := (Net.bind float).
Local Abbreviation emit := (Net.emit float).
Local Abbreviation delay := (Net.delay float env).
Local Abbreviation wifi_status := (Net.wifi_status float env).
Local Abbreviation http_POST := (Net.http_POST float cfg env).
Local Abbreviation bootstrapTimeIfNeeded := (Net.bootstrapTimeIfNeeded float cfg env).
Local Abbreviation trySyncTimeNtp := (Net.trySyncTimeNtp float env).
Local Abbreviation ensureTimeSynced := (Net.ensureTimeSynced float cfg env).
Local Abbreviation poll_link := (Net.poll_link float env).
Local Abbreviation connectWiFi := (Net.connectWiFi float cfg env).
Local Abbreviation reconnect_if_down := (Net.reconnect_if_down float cfg env).
Local Abbreviation checkInternetReachable := (Net.checkInternetReachable float env).
Local Abbreviation beginHttps := (Net.beginHttps cfg env).
Local Abbreviation post_attempts := (Net.post_attempts float cfg env).
Local Abbreviation postReading := (Net.postReading float cfg env).
Local Abbreviation plausible_stamp := (NetObs.plausible_stamp cfg env).
Local Abbreviation time_ok := (NetObs.time_ok cfg env).
Local Abbreviation link_action := (TraceObs.link_action cfg env).
Local Abbreviation send_action := (TraceObs.send_action cfg env).
Local Abbreviation PLAUSIBLE_EPOCH := Net.PLAUSIBLE_EPOCH.

(** *** How [logs] composes *)

Lemma logs_ret {A} (P : event -> Prop) (a : A) : logs P (Net.ret float a).
Proof.
  intros w a' w' [= <- <-]. exists []. split; [now rewrite app_nil_r|constructor].
Qed.

Lemma logs_bind {A B} (P : event -> Prop) (m : M A) (k : A -> M B) :
  logs P m -> (forall a, logs P (k a)) -> logs P (bind m k).
Proof.
  intros Hm Hk w b w2 E.
  apply NetFacts.bind_Some in E as (a & w1 & E1 & E2).
  destruct (Hm _ _ _ E1) as (e1 & T1 & F1).
  destruct (Hk a _ _ _ E2) as (e2 & T2 & F2).
  exists (e1 ++ e2). split; [now rewrite T2, T1, app_assoc|].
  apply Forall_app. now split.
Qed.

Lemma logs_weaken {A} (P Q : event -> Prop) (m : M A) :
  (forall e, P e -> Q e) -> logs P m -> logs Q m.
Proof.
  intros HPQ Hm w a w' E. destruct (Hm _ _ _ E) as (evs & T & F).
  exists evs. split; [exact T|]. eapply Forall_impl; eauto.
Qed.

Lemma logs_silent {A} (P : event -> Prop) (m : M A) :
  (forall w a w', m w = Some (a, w') -> trace w' = trace w) -> logs P m.
Proof.
  intros H w a w' E. exists []. rewrite app_nil_r. split; [eauto|constructor].
Qed.

Lemma logs_emit (P : event -> Prop) (e : event) : P e -> logs P (emit e).
Proof.
  intros He w [] w' [= <-]. exists [e]. split; [reflexivity|]. now repeat constructor.
Qed.

Lemma logs_delay (P : event -> Prop) (s : site) (ms : Z) :
  P (EvDelay s ms) -> logs P (delay s ms).
Proof.
  intros He w [] w' [= <-]. exists [EvDelay s ms]. split; [reflexivity|].
  now repeat constructor.
Qed.

Lemma logs_wifi_status (P : event -> Prop) :
  (forall up, P (EvStatus up)) -> logs P wifi_status.
Proof.
  intros He w a w' [= <- <-]. eexists [_]. split; [reflexivity|].
  now repeat constructor.
Qed.

Lemma logs_http_POST (P : event -> Prop) (body : Payload float) :
  (forall code, P (EvPost (API_KEY cfg) body code)) -> logs P (http_POST body).
Proof.
  intros He w a w' [= <- <-]. eexists [_]. split; [reflexivity|].
  now repeat constructor.
Qed.

(** *** Link association and time bootstrap *)

Lemma logs_bootstrapTimeIfNeeded : logs link_action bootstrapTimeIfNeeded.
Proof.
  intros w b w'. rewrite NetFacts.bootstrapTimeIfNeeded_eq.
  destruct (rtc w >=? PLAUSIBLE_EPOCH).
  - intros [= <- <-]. exists []. split; [now rewrite app_nil_r|constructor].
  - destruct plausible_stamp as [c|] eqn:Hc.
    + intros [= <- <-]. exists [EvSetTime c]. split; [reflexivity|].
      repeat constructor. exact Hc.
    + intros [= <- <-]. exists []. split; [now rewrite app_nil_r|constructor].
Qed.

Lemma logs_trySyncTimeNtp (P : event -> Prop) : logs P trySyncTimeNtp.
Proof.
  apply logs_silent. intros w a w' E.
  destruct (NetFacts.trySyncTimeNtp_spec float env w) as (w1 & E1 & T & _).
  rewrite E1 in E. now injection E as _ <-.
Qed.

Lemma logs_ensureTimeSynced : logs link_action ensureTimeSynced.
Proof.
  unfold Net.ensureTimeSynced.
  apply logs_bind; [apply logs_silent; now intros w a w' [= _ <-]|].
  intros now. destruct (now >=? PLAUSIBLE_EPOCH); [apply logs_ret|].
  apply logs_bind; [apply logs_bootstrapTimeIfNeeded|].
  intros [|]; [apply logs_ret | apply logs_trySyncTimeNtp].
Qed.

Lemma logs_poll_link (left : nat) : logs link_action (poll_link left).
Proof.
  induction left as [|left IH]; cbn [Net.poll_link];
    (apply logs_bind; [apply logs_wifi_status; constructor|]);
    intros up; [apply logs_ret|].
  destruct (negb up); [|apply logs_ret].
  apply logs_bind; [apply logs_delay; constructor | intros _; exact IH].
Qed.

Lemma logs_connectWiFi (fuel : nat) : logs link_action (connectWiFi fuel).
Proof.
  induction fuel as [|fuel IH]; [intros w a w' [=]|].
  cbn [Net.connectWiFi].
  apply logs_bind; [apply logs_emit; constructor | intros _].
  apply logs_bind; [apply logs_poll_link | intros _].
  apply logs_bind; [apply logs_wifi_status; constructor | intros up].
  destruct up.
  - apply logs_bind; [apply logs_emit; constructor | intros _].
    apply logs_bind; [apply logs_bootstrapTimeIfNeeded | intros _].
    apply logs_bind; [apply logs_trySyncTimeNtp | intros _]. apply logs_ret.
  - apply logs_bind; [apply logs_delay; constructor | intros _; exact IH].
Qed.

Lemma logs_reconnect_if_down (fuel : nat) :
  logs link_action (reconnect_if_down fuel).
Proof.
  unfold Net.reconnect_if_down.
  apply logs_bind; [apply logs_wifi_status; constructor | intros up].
  destruct (negb up); [apply logs_connectWiFi | apply logs_ret].
Qed.

Lemma logs_checkInternetReachable (P : event -> Prop) :
  logs P checkInternetReachable.
Proof.
  apply logs_silent. intros w a w'. unfold Net.checkInternetReachable.
  destruct (dns_ok env (lookups w)); [destruct (negb (tcp_ok env (lookups w)))|];
    now intros [= _ <-].
Qed.

(** *** Delivery *)

Lemma logs_post_attempts (fuel : nat) (body : Payload float) (left : nat) :
  forall attempt backoff : Z,
    logs (send_action body) (post_attempts fuel body left attempt backoff).
Proof.
  induction left as [|left IH]; intros attempt backoff; cbn [Net.post_attempts];
    [apply logs_ret|].
  apply logs_bind.
  { eapply logs_weaken; [|apply logs_reconnect_if_down]. now constructor. }
  intros _. destruct (negb beginHttps); [apply logs_ret|].
  apply logs_bind; [apply logs_http_POST; intros; apply sa_post | intros code].
  destruct ((code >=? 200) && (code <? 300)); [apply logs_ret|].
  destruct (attempt <? maxAttempts); [|apply IH].
  apply logs_bind; [apply logs_delay, sa_backoff | intros _; apply IH].
Qed.

(** *** The stages of [postReading] *)

Lemma postReading_stages (fuel : nat) (radiation pm25 tempC hum press voc : float)
    (w w' : World) (b : bool) :
  postReading fuel radiation pm25 tempC hum press voc w = Some (b, w') ->
  exists w1 w2 w3 reachable,
    reconnect_if_down fuel w = Some (tt, w1)
    /\ ensureTimeSynced w1 = Some (time_ok w1, w2)
    /\ checkInternetReachable w2 = Some (reachable, w3)
    /\ reachable = dns_ok env (lookups w) && tcp_ok env (lookups w)
    /\ trace w3 = trace w2 /\ rtc w2 <= rtc w3 /\ posts w3 = posts w2
    /\ (time_ok w1 = true -> PLAUSIBLE_EPOCH <= rtc w2)
    /\ (if negb reachable || negb (time_ok w1) then b = false /\ w' = w3
        else post_attempts fuel
               (mkPayload (NODE_ID cfg) (to_long (rtc w3))
                          radiation pm25 tempC hum press voc)
               (Z.to_nat maxAttempts) 1 1000 w3 = Some (b, w')).
Proof.
  unfold Net.postReading. intros E.
  apply NetFacts.bind_Some in E as ([] & w1 & E1 & E).
  apply NetFacts.bind_Some in E as (timeOk & w2 & E2 & E).
  apply NetFacts.bind_Some in E as (reachable & w3 & E3 & E).
  destruct (NetFacts.ensureTimeSynced_spec float cfg env w1)
    as (w2' & evs2 & E2' & _ & _ & L2 & Hok & _).
  rewrite E2' in E2. injection E2 as <- <-.
  destruct (NetFacts.checkInternetReachable_spec float env w2')
    as (w3' & E3' & [S3 _] & R3 & _).
  rewrite E3' in E3. injection E3 as <- <-.
  pose proof (NetFacts.reconnect_spec float cfg env fuel w w1 E1) as (evs1 & _ & L1 & _).
  exists w1, w2', w3', (dns_ok env (lookups w2') && tcp_ok env (lookups w2')).
  split; [exact E1|]. split; [exact E2'|]. split; [exact E3'|].
  split; [now rewrite L2, L1|].
  split; [rewrite (st_trace S3); apply app_nil_r|].
  split; [lia|].
  split; [rewrite (st_posts S3); cbn; lia|].
  split; [exact Hok|].
  destruct (negb (dns_ok env (lookups w2') && tcp_ok env (lookups w2'))); cbn [orb].
  - now injection E as <- <-.
  - destruct (time_ok w1) eqn:Hto; cbn [negb] in *.
    + exact E.
    + now injection E as <- <-.
Qed.

Lemma link_actions_no_bodies (evs : list event) :
  Forall link_action evs -> post_bodies evs = [].
Proof.
  induction 1 as [|e evs He _ IH]; [reflexivity|].
  change (e :: evs) with ([e] ++ evs).
  rewrite NetFacts.post_bodies_app, IH. now destruct He.
Qed.

(** Everything a call of [postReading] logs is an action of the link or
    of the delivery of one document, stamped with the clock as it read
    after the reachability check. *)
Lemma postReading_alphabet (fuel : nat) (radiation pm25 tempC hum press voc : float)
    (w w' : World) (b : bool) :
  postReading fuel radiation pm25 tempC hum press voc w = Some (b, w') ->
  exists w1 w2 w3 reachable evs,
    reconnect_if_down fuel w = Some (tt, w1)
    /\ ensureTimeSynced w1 = Some (time_ok w1, w2)
    /\ checkInternetReachable w2 = Some (reachable, w3)
    /\ trace w' = trace w ++ evs
    /\ Forall (send_action
                 (mkPayload (NODE_ID cfg) (to_long (rtc w3))
                            radiation pm25 tempC hum press voc))
              evs
    /\ (post_bodies evs <> [] -> PLAUSIBLE_EPOCH <= rtc w3).
Proof.
  intros E.
  destruct (postReading_stages _ _ _ _ _ _ _ _ _ _ E)
    as (w1 & w2 & w3 & reachable & E1 & E2 & E3 & _ & T3 & R3 & _ & Hok & E4).
  exists w1, w2, w3, reachable.
  destruct (logs_reconnect_if_down fuel _ _ _ E1) as (e1 & T1 & F1).
  destruct (logs_ensureTimeSynced _ _ _ E2) as (e2 & T2 & F2).
  assert (Hlink : forall body, Forall (send_action body) (e1 ++ e2)).
  { intros body. apply Forall_app.
    split; (eapply Forall_impl; [|eassumption]); intros e He; now constructor. }
  destruct (negb reachable || negb (time_ok w1)) eqn:Hgate.
  - destruct E4 as [_ ->]. exists (e1 ++ e2).
    split; [exact E1|]. split; [exact E2|]. split; [exact E3|].
    split; [now rewrite T3, T2, T1, app_assoc|]. split; [apply Hlink|].
    intros Hne. exfalso. apply Hne. apply link_actions_no_bodies.
    apply Forall_app. now split.
  - apply orb_false_elim in Hgate as [_ Hto]. apply negb_false_iff in Hto.
    destruct (logs_post_attempts fuel _ _ _ _ _ _ _ E4) as (e4 & T4 & F4).
    exists ((e1 ++ e2) ++ e4).
    split; [exact E1|]. split; [exact E2|]. split; [exact E3|].
    split; [now rewrite T4, T3, T2, T1, !app_assoc|].
    split; [apply Forall_app; split; [apply Hlink | exact F4]|].
    intros _. specialize (Hok Hto). lia.
Qed.

(** *** What the logged actions say *)

Lemma link_actions_log (evs : list event) :
  Forall link_action evs ->
  Forall (fun t => plausible_stamp = Some t /\ PLAUSIBLE_EPOCH <= t) (set_times evs)
  /\ post_codes evs = [] /\ post_keys evs = []
  /\ delays_at SendInterval evs = [] /\ delays_at Backoff evs = [].
Proof.
  induction 1 as [|e evs He _ IH]; [now repeat split|].
  destruct IH as (I1 & I2 & I3 & I4 & I5).
  change (e :: evs) with ([e] ++ evs).
  unfold set_times, post_keys in *.
  rewrite NetFacts.post_codes_app, !NetFacts.delays_at_app, !flat_map_app.
  rewrite I2, I3, I4, I5.
  destruct He; cbn; repeat split; try assumption; try reflexivity.
  constructor; [|assumption].
  split; [assumption|]. now apply (NetFacts.plausible_stamp_ge cfg env).
Qed.

Lemma send_actions_log (body : Payload float) (evs : list event) :
  Forall (send_action body) evs ->
  Forall (fun t => plausible_stamp = Some t /\ PLAUSIBLE_EPOCH <= t) (set_times evs)
  /\ Forall (eq body) (post_bodies evs)
  /\ Forall (eq (API_KEY cfg)) (post_keys evs)
  /\ delays_at SendInterval evs = [].
Proof.
  induction 1 as [|e evs He _ IH]; [now repeat split|].
  destruct IH as (I1 & I2 & I3 & I4).
  change (e :: evs) with ([e] ++ evs).
  unfold set_times, post_keys in *.
  rewrite NetFacts.post_bodies_app, NetFacts.delays_at_app, !flat_map_app.
  rewrite I4.
  destruct He as [e He| |].
  - destruct (link_actions_log [e]) as (L1 & _ & L3 & L4 & _);
      [now repeat constructor|].
    unfold set_times, post_keys in *.
    split; [apply Forall_app; now split|].
    assert (Hb : post_bodies [e] = []) by (destruct He; reflexivity).
    rewrite Hb, L3, L4. now repeat split.
  - cbn. repeat split; try assumption; now constructor.
  - cbn. repeat split; assumption.
Qed.

(** *** The order of polls and POSTs *)

Lemma link_seen_app (last : bool) (a b : list event) :
  link_seen last (a ++ b) = link_seen (link_seen last a) b.
Proof.
  revert last. induction a as [|e a IH]; intros last; [reflexivity|].
  destruct e; cbn; apply IH.
Qed.

Lemma posts_on_link_app (last : bool) (a b : list event) :
  posts_on_link last (a ++ b)
  = posts_on_link last a && posts_on_link (link_seen last a) b.
Proof.
  revert last. induction a as [|e a IH]; intros last; [reflexivity|].
  destruct e; cbn; rewrite ?IH; try reflexivity.
  now rewrite andb_assoc.
Qed.

Lemma quiet_posts_on_link (last : bool) (evs : list event) :
  forallb quiet evs = true -> posts_on_link last evs = true.
Proof.
  revert last. induction evs as [|e evs IH]; intros last; [reflexivity|].
  cbn [forallb]. intros H. apply andb_prop in H as [He H].
  destruct e; cbn; try discriminate; now apply IH.
Qed.

Lemma link_seen_polls (last : bool) (evs : list event) :
  link_seen last evs = fold_left (fun _ up => up) (status_polls evs) last.
Proof.
  revert last. induction evs as [|e evs IH]; intros last; [reflexivity|].
  change (e :: evs) with ([e] ++ evs).
  rewrite NetFacts.status_polls_app, fold_left_app.
  destruct e; cbn [app link_seen status_polls flat_map fold_left]; apply IH.
Qed.

Lemma link_seen_up (last : bool) (evs : list event) (l : list bool) :
  status_polls evs = l ++ [true] -> link_seen last evs = true.
Proof. intros H. rewrite link_seen_polls, H, fold_left_app. reflexivity. Qed.

Lemma post_attempts_on_link (fuel : nat) (body : Payload float) (left : nat) :
  forall (attempt backoff : Z) (w w' : World) (b : bool),
    post_attempts fuel body left attempt backoff w = Some (b, w') ->
    exists evs, trace w' = trace w ++ evs
                /\ forall last, posts_on_link last evs = true.
Proof.
  induction left as [|left IH]; intros attempt backoff w w' b; cbn [Net.post_attempts].
  - intros [= _ <-]. exists []. split; [now rewrite app_nil_r|reflexivity].
  - intros E. apply NetFacts.bind_Some in E as ([] & w1 & E1 & E).
    destruct (NetFacts.reconnect_spec float cfg env fuel w w1 E1)
      as (e1 & [S1 Q1] & _ & l & Hl).
    destruct (negb beginHttps).
    { injection E as _ <-. exists e1. split; [apply (st_trace S1)|].
      intros last. now apply quiet_posts_on_link. }
    apply NetFacts.bind_Some in E as (code & w2 & E2 & E).
    assert (T2 : trace w2 = trace w1 ++ [EvPost (API_KEY cfg) body code])
      by (now injection E2 as <- <-).
    assert (Hhead : forall last,
               posts_on_link last (e1 ++ [EvPost (API_KEY cfg) body code]) = true).
    { intros last. rewrite posts_on_link_app, (quiet_posts_on_link _ _ Q1).
      rewrite (link_seen_up _ _ _ Hl). reflexivity. }
    destruct ((code >=? 200) && (code <? 300)).
    { injection E as _ <-. exists (e1 ++ [EvPost (API_KEY cfg) body code]).
      split; [now rewrite T2, (st_trace S1), app_assoc | exact Hhead]. }
    destruct (attempt <? maxAttempts).
    + apply NetFacts.bind_Some in E as ([] & w3 & E3 & E).
      assert (T3 : trace w3 = trace w2 ++ [EvDelay Backoff backoff])
        by (now injection E3 as <-).
      destruct (IH _ _ _ _ _ E) as (e4 & T4 & H4).
      exists ((e1 ++ [EvPost (API_KEY cfg) body code])
              ++ [EvDelay Backoff backoff] ++ e4).
      split; [now rewrite T4, T3, T2, (st_trace S1), !app_assoc|].
      intros last. rewrite posts_on_link_app, Hhead. cbn. apply H4.
    + destruct (IH _ _ _ _ _ E) as (e4 & T4 & H4).
      exists ((e1 ++ [EvPost (API_KEY cfg) body code]) ++ e4).
      split; [now rewrite T4, T2, (st_trace S1), !app_assoc|].
      intros last. rewrite posts_on_link_app, Hhead. apply H4.
Qed.

(** *** Time *)

Lemma ntp_wait_fail (window : list (option Z)) : forall (w w' : World) (b : bool),
  Net.ntp_wait float window w = Some (b, w') ->
  existsb plausible_poll window = false ->
  rtc w < PLAUSIBLE_EPOCH -> rtc w' < PLAUSIBLE_EPOCH.
Proof.
  induction window as [|[now|] rest IH]; intros w w' b.
  - now intros [= _ <-].
  - cbn [Net.ntp_wait existsb plausible_poll].
    unfold Net.bind, Net.set_clock.
    destruct (Z.geb_spec now PLAUSIBLE_EPOCH) as [Hge|Hlt]; cbn [orb]; [discriminate|].
    intros E Hex _. apply (IH _ _ _ E Hex). exact Hlt.
  - cbn [Net.ntp_wait existsb plausible_poll orb]. apply IH.
Qed.

Lemma link_established_counts (w w' : World) :
  Net.link_established float cfg env w = Some (tt, w') ->
  syncs w' = S (syncs w).
Proof.
  unfold Net.link_established. intros E.
  apply NetFacts.bind_Some in E as ([] & w1 & E1 & E).
  apply NetFacts.bind_Some in E as (b & w2 & E2 & E).
  apply NetFacts.bind_Some in E as (b' & w3 & E3 & E).
  injection E as <-. injection E1 as <-.
  destruct (NetFacts.bootstrapTimeIfNeeded_spec float cfg env
              (mkWorld (rtc w) (polls w) (lookups w) (syncs w) (posts w)
                       (trace w ++ [EvDnsConfig])))
    as (b0 & w2' & evs & E2' & _ & _ & _ & S2 & _).
  rewrite E2' in E2. injection E2 as _ <-.
  destruct (NetFacts.trySyncTimeNtp_spec float env w2')
    as (w3' & E3' & _ & _ & _ & _ & S3 & _).
  rewrite E3' in E3. injection E3 as _ <-.
  rewrite S3, S2. reflexivity.
Qed.

(** With the link up for good, a call of [postReading] returns. *)
Lemma postReading_returns (N : nat)
    (radiation pm25 tempC hum press voc : float) (w : World) :
  up_from env N ->
  exists b w', postReading N radiation pm25 tempC hum press voc w = Some (b, w').
Proof.
  intros Hup.
  destruct (NetFacts.reconnect_returns float cfg env N N w Hup ltac:(lia)) as (w1 & E1).
  destruct (NetFacts.postReading_preflight float cfg env N
              radiation pm25 tempC hum press voc w w1 E1)
    as (w2 & w3 & evs2 & _ & Q2 & Q3 & _ & _ & _ & _ & _ & E).
  rewrite E.
  destruct (negb _); [now exists false, w3|].
  destruct (negb _); [now exists false, w3|].
  apply NetFacts.post_attempts_returns with N; [exact Hup|lia].
Qed.

(** *** Properties of the transport *)

(** [ensureTimeSynced] returns true exactly when the clock it leaves behind
    is plausible; its three tiers are tried in order and a tier that
    succeeds ends the call: a plausible clock is left alone, a plausible
    build stamp is written to the clock without any time-sync attempt, and
    only otherwise one time-sync attempt is made. *)
Theorem ensureTimeSynced_true_iff_clock_plausible (w : World) :
  exists b w',
    ensureTimeSynced w = Some (b, w')
    /\ (b = true <-> PLAUSIBLE_EPOCH <= rtc w')
    /\ (PLAUSIBLE_EPOCH <= rtc w -> w' = w)
    /\ (rtc w < PLAUSIBLE_EPOCH ->
        forall c, plausible_stamp = Some c -> w' = clock_set c w /\ PLAUSIBLE_EPOCH <= c)
    /\ (rtc w < PLAUSIBLE_EPOCH -> plausible_stamp = None ->
        syncs w' = S (syncs w) /\ trace w' = trace w).
Proof.
  unfold Net.ensureTimeSynced, Net.bind, Net.time_now.
  destruct (Z.geb_spec (rtc w) PLAUSIBLE_EPOCH) as [Hge|Hlt].
  - exists true, w. split; [reflexivity|].
    split; [split; [intros _; lia|reflexivity]|].
    split; [reflexivity|]. split; intros; lia.
  - rewrite NetFacts.bootstrapTimeIfNeeded_eq.
    destruct (Z.geb_spec (rtc w) PLAUSIBLE_EPOCH) as [Hge|_]; [lia|].
    destruct plausible_stamp as [c|] eqn:Hst.
    + pose proof (NetFacts.plausible_stamp_ge cfg env c Hst) as Hc.
      exists true, (clock_set c w). split; [reflexivity|].
      split; [split; [intros _; exact Hc|reflexivity]|].
      split; [intros; lia|].
      split; [intros _ c' [= <-]; now split|discriminate].
    + destruct (NetFacts.trySyncTimeNtp_spec float env w)
        as (w' & E & Ht & _ & _ & _ & Hs & Hr).
      exists (existsb plausible_poll (ntp_polls env (syncs w))), w'.
      split; [exact E|].
      split; [|split; [intros; lia|split; [discriminate|now split]]].
      split; [exact Hr|].
      intros Hp. destruct (existsb plausible_poll (ntp_polls env (syncs w))) eqn:Hex;
        [reflexivity|].
      unfold Net.trySyncTimeNtp in E.
      pose proof (ntp_wait_fail _ _ _ _ E Hex Hlt). lia.
Qed.

(** A call of [connectWiFi] that returns made exactly one time-sync
    attempt (in the round that found the link up, whatever the clock read),
    no POST and no reachability check. *)
Theorem connectWiFi_syncs_once (fuel : nat) : forall w w' : World,
  connectWiFi fuel w = Some (tt, w') ->
  syncs w' = S (syncs w) /\ posts w' = posts w /\ lookups w' = lookups w.
Proof.
  induction fuel as [|fuel IH]; intros w w' E; [discriminate|].
  destruct (NetFacts.connectWiFi_spec float cfg env _ _ _ E)
    as (evs & rounds & Q & L & _).
  split; [|split; [exact (NetFacts.Quiet_posts float env _ _ _ Q) | exact L]].
  rewrite NetFacts.connectWiFi_round in E.
  destruct (NetFacts.link_round_spec float env w)
    as (w1 & e1 & k & b & up & E1 & _ & _ & _ & S1 & _).
  rewrite E1 in E. destruct up.
  - rewrite (link_established_counts _ _ E). now rewrite S1.
  - apply NetFacts.bind_Some in E as ([] & w2 & E2 & E).
    injection E2 as <-. destruct (IH _ _ E) as (S2 & _). rewrite S2. cbn. now rewrite S1.
Qed.

(** The sketch's own [settimeofday] writes nothing but the build stamp:
    every [settimeofday] logged by a call of [connectWiFi] or of
    [postReading] passed the epoch computed from the build stamp, and that
    epoch is at least 1700000000.  (The time-sync service and the running
    clock move the clock by other means; this is about the calls of
    [settimeofday] only.) *)
Theorem settimeofday_writes_only_build_stamp :
  (forall (fuel : nat) (w w' : World),
      connectWiFi fuel w = Some (tt, w') ->
      exists evs, trace w' = trace w ++ evs
        /\ Forall (fun t => plausible_stamp = Some t /\ PLAUSIBLE_EPOCH <= t)
                  (set_times evs))
  /\ (forall (fuel : nat) (radiation pm25 tempC hum press voc : float)
             (w w' : World) (b : bool),
        postReading fuel radiation pm25 tempC hum press voc w = Some (b, w') ->
        exists evs, trace w' = trace w ++ evs
          /\ Forall (fun t => plausible_stamp = Some t /\ PLAUSIBLE_EPOCH <= t)
                    (set_times evs)).
Proof.
  split.
  - intros fuel w w' E. destruct (logs_connectWiFi fuel _ _ _ E) as (evs & T & F).
    exists evs. split; [exact T|]. now apply link_actions_log.
  - intros fuel radiation pm25 tempC hum press voc w w' b E.
    destruct (postReading_alphabet _ _ _ _ _ _ _ _ _ _ E)
      as (w1 & w2 & w3 & reachable & evs & _ & _ & _ & T & F & _).
    exists evs. split; [exact T|]. now apply (send_actions_log _ _ F).
Qed.

(** Every POST of one call of [postReading] carries the configured API key
    and one and the same document: retries resend the body built before the
    first attempt.  Its device id is that of the node, its six values are
    the arguments of the call, and its time stamp is the clock as read once,
    after the reachability check and before the first attempt, cast to a
    32-bit [long]; the clock then read at least 1700000000, and the stamp is
    not refreshed between attempts. *)
Theorem postReading_resends_same_document
    (fuel : nat) (radiation pm25 tempC hum press voc : float)
    (w w' : World) (b : bool) :
  postReading fuel radiation pm25 tempC hum press voc w = Some (b, w') ->
  exists w1 w2 w3 reachable evs,
    reconnect_if_down fuel w = Some (tt, w1)
    /\ ensureTimeSynced w1 = Some (time_ok w1, w2)
    /\ checkInternetReachable w2 = Some (reachable, w3)
    /\ trace w' = trace w ++ evs
    /\ Forall (eq (mkPayload (NODE_ID cfg) (to_long (rtc w3))
                             radiation pm25 tempC hum press voc))
              (post_bodies evs)
    /\ Forall (eq (API_KEY cfg)) (post_keys evs)
    /\ (post_bodies evs <> [] -> PLAUSIBLE_EPOCH <= rtc w3).
Proof.
  intros E.
  destruct (postReading_alphabet _ _ _ _ _ _ _ _ _ _ E)
    as (w1 & w2 & w3 & reachable & evs & E1 & E2 & E3 & T & F & Hts).
  exists w1, w2, w3, reachable, evs.
  split; [exact E1|]. split; [exact E2|]. split; [exact E3|]. split; [exact T|].
  destruct (send_actions_log _ _ F) as (_ & Hb & Hk & _). now split.
Qed.

(** No POST is made on a link last seen down: within a call of
    [postReading] every POST is preceded by a status poll of the same call,
    and the latest poll before it found the link connected. *)
Theorem postReading_posts_only_on_link
    (fuel : nat) (radiation pm25 tempC hum press voc : float)
    (w w' : World) (b : bool) :
  postReading fuel radiation pm25 tempC hum press voc w = Some (b, w') ->
  exists evs, trace w' = trace w ++ evs /\ posts_on_link false evs = true.
Proof.
  intros E.
  destruct (postReading_stages _ _ _ _ _ _ _ _ _ _ E)
    as (w1 & w2 & w3 & reachable & E1 & E2 & E3 & _ & T3 & _ & _ & _ & E4).
  destruct (NetFacts.reconnect_spec float cfg env fuel w w1 E1)
    as (e1 & [S1 Q1] & _ & _).
  destruct (NetFacts.ensureTimeSynced_spec float cfg env w1)
    as (w2' & e2 & E2' & [S2 Q2] & _).
  rewrite E2' in E2. injection E2 as ->.
  assert (Hq : forallb quiet (e1 ++ e2) = true) by (now rewrite forallb_app, Q1, Q2).
  assert (T2 : trace w3 = trace w ++ e1 ++ e2)
    by (now rewrite T3, (st_trace S2), (st_trace S1), app_assoc).
  destruct (negb reachable || negb (time_ok w1)).
  - destruct E4 as [_ ->]. exists (e1 ++ e2). split; [exact T2|].
    now apply quiet_posts_on_link.
  - destruct (post_attempts_on_link _ _ _ _ _ _ _ _ E4) as (e4 & T4 & H4).
    exists ((e1 ++ e2) ++ e4). split; [now rewrite T4, T2, !app_assoc|].
    rewrite posts_on_link_app, (quiet_posts_on_link _ _ Hq). apply H4.
Qed.

(** The reachability gate: when the name of the collector does not resolve
    or its port 443 cannot be reached, a call that returns returns false
    without any POST and without any back-off wait, whatever the state of
    the clock; and the call does return false once the link is up for
    good. *)
Theorem postReading_needs_reachable_host
    (fuel : nat) (radiation pm25 tempC hum press voc : float) (w : World) :
  dns_ok env (lookups w) && tcp_ok env (lookups w) = false ->
  (forall b w',
      postReading fuel radiation pm25 tempC hum press voc w = Some (b, w') ->
      b = false /\ posts w' = posts w
      /\ exists evs, trace w' = trace w ++ evs
           /\ post_codes evs = [] /\ delays_at Backoff evs = [])
  /\ (forall N, up_from env N ->
        exists fuel' w',
          postReading fuel' radiation pm25 tempC hum press voc w = Some (false, w')).
Proof.
  intros Hdown.
  assert (Hgate : forall fuel b w',
             postReading fuel radiation pm25 tempC hum press voc w = Some (b, w') ->
             b = false /\ posts w' = posts w
             /\ exists evs, trace w' = trace w ++ evs
                  /\ post_codes evs = [] /\ delays_at Backoff evs = []).
  { clear fuel. intros fuel b w' E.
    destruct (postReading_stages _ _ _ _ _ _ _ _ _ _ E)
      as (w1 & w2 & w3 & reachable & E1 & E2 & E3 & Hr & T3 & _ & P3 & _ & E4).
    rewrite Hdown in Hr. subst reachable. cbn [negb orb] in E4. destruct E4 as [-> ->].
    destruct (NetFacts.reconnect_spec float cfg env fuel w w1 E1) as (e1 & Q1 & _).
    destruct (NetFacts.ensureTimeSynced_spec float cfg env w1)
      as (w2' & e2 & E2' & Q2 & _).
    rewrite E2' in E2. injection E2 as ->.
    pose proof (NetFacts.Quiet_trans float env _ _ _ _ _ Q1 Q2) as [S Q].
    split; [reflexivity|].
    split; [rewrite P3; exact (NetFacts.Quiet_posts float env _ _ _ (conj S Q))|].
    exists (e1 ++ e2). split; [rewrite T3; apply (st_trace S)|].
    split; [now apply NetFacts.quiet_no_posts|].
    rewrite NetFacts.delays_at_Backoff_transport.
    now rewrite (NetFacts.quiet_no_transport float _ Q). }
  split; [apply Hgate|].
  intros N Hup.
  destruct (postReading_returns N radiation pm25 tempC hum press voc w Hup)
    as (b & w' & E).
  exists N, w'. destruct (Hgate _ _ _ E) as [-> _]. exact E.
Qed.

(** When the HTTP client cannot be set up ([beginHttps] returns false, as it
    does for a server URL without a host), the call gives up at its first
    attempt: a call that returns returns false, having made no POST and
    waited for no back-off; and the call does return false once the link is
    up for good. *)
Theorem postReading_gives_up_without_client
    (fuel : nat) (radiation pm25 tempC hum press voc : float) (w : World) :
  beginHttps = false ->
  (forall b w',
      postReading fuel radiation pm25 tempC hum press voc w = Some (b, w') ->
      b = false /\ posts w' = posts w
      /\ exists evs, trace w' = trace w ++ evs
           /\ post_codes evs = [] /\ delays_at Backoff evs = [])
  /\ (forall N, up_from env N ->
        exists fuel' w',
          postReading fuel' radiation pm25 tempC hum press voc w = Some (false, w')).
Proof.
  intros Hno.
  assert (Hgate : forall fuel b w',
             postReading fuel radiation pm25 tempC hum press voc w = Some (b, w') ->
             b = false /\ posts w' = posts w
             /\ exists evs, trace w' = trace w ++ evs
                  /\ post_codes evs = [] /\ delays_at Backoff evs = []).
  { clear fuel. intros fuel b w' E.
    destruct (NetFacts.postReading_spec float cfg env _ _ _ _ _ _ _ _ _ _ E)
      as (evs & S & [[-> Q]|(ts & _ & D)]).
    - split; [reflexivity|].
      split; [exact (NetFacts.Quiet_posts float env _ _ _ (conj S Q))|].
      exists evs. split; [apply (st_trace S)|].
      split; [now apply NetFacts.quiet_no_posts|].
      rewrite NetFacts.delays_at_Backoff_transport.
      now rewrite (NetFacts.quiet_no_transport float _ Q).
    - destruct D as [_ Hlog _ Hbegin _ Htrue _].
      pose proof (Hbegin Hno) as Hnil.
      split.
      { destruct b; [|reflexivity].
        destruct (Htrue eq_refl) as (cs & c & Hc & _).
        rewrite Hnil in Hc. now destruct cs. }
      split; [rewrite (st_posts S), Hnil; cbn; lia|].
      exists evs. split; [apply (st_trace S)|]. split; [exact Hnil|].
      rewrite NetFacts.delays_at_Backoff_transport, Hlog, Hnil. reflexivity. }
  split; [apply Hgate|].
  intros N Hup.
  destruct (postReading_returns N radiation pm25 tempC hum press voc w Hup)
    as (b & w' & E).
  exists N, w'. destruct (Hgate _ _ _ E) as [-> _]. exact E.
Qed.


Lemma ntp_wait_first (pre : list (option Z)) :
  forall (t : Z) (post : list (option Z)) (w w' : World) (b : bool),
    Net.ntp_wait float (pre ++ Some t :: post) w = Some (b, w') ->
    existsb plausible_poll pre = false -> PLAUSIBLE_EPOCH <= t ->
    b = true /\ rtc w' = t.
Proof.
  induction pre as [|[now|] pre IH]; intros t post w w' b; cbn [app Net.ntp_wait].
  - unfold Net.bind, Net.set_clock. intros E _ Ht.
    destruct (Z.geb_spec t PLAUSIBLE_EPOCH); [|lia].
    injection E as <- <-. now split.
  - cbn [existsb plausible_poll]. unfold Net.bind, Net.set_clock.
    destruct (Z.geb_spec now PLAUSIBLE_EPOCH); cbn [orb]; [discriminate|].
    intros E Hpre Ht. eapply IH; eassumption.
  - cbn [existsb plausible_poll orb]. apply IH.
Qed.

(** [trySyncTimeNtp] polls the clock until the end of its window and stops
    at the first poll that reads at least 1700000000: it returns true
    exactly when there is such a poll, the clock then reads what that poll
    read, and a clock that was implausible stays so when there is none.  It
    counts as one time-sync attempt and adds no action to the log (what it
    prints on the serial line is not part of the log). *)
Theorem trySyncTimeNtp_stops_at_first_plausible_poll (w : World) :
  exists w',
    trySyncTimeNtp w = Some (existsb plausible_poll (ntp_polls env (syncs w)), w')
    /\ trace w' = trace w /\ syncs w' = S (syncs w) /\ posts w' = posts w
    /\ (forall pre t post,
           ntp_polls env (syncs w) = pre ++ Some t :: post ->
           existsb plausible_poll pre = false -> PLAUSIBLE_EPOCH <= t ->
           rtc w' = t)
    /\ (existsb plausible_poll (ntp_polls env (syncs w)) = false ->
        rtc w < PLAUSIBLE_EPOCH -> rtc w' < PLAUSIBLE_EPOCH).
Proof.
  destruct (NetFacts.trySyncTimeNtp_spec float env w)
    as (w' & E & Ht & _ & Hp & _ & Hs & _).
  exists w'. split; [exact E|]. split; [exact Ht|]. split; [exact Hs|].
  split; [exact Hp|]. unfold Net.trySyncTimeNtp in E. split.
  - intros pre t post Hw Hpre Hge. rewrite Hw in E.
    now destruct (ntp_wait_first _ _ _ _ _ _ E Hpre Hge).
  - intros Hnone Hlt. exact (ntp_wait_fail _ _ _ _ E Hnone Hlt).
Qed.

(** While the link stays down, a call of [postReading] does not return. *)
Lemma postReading_blocks (fuel : nat)
    (radiation pm25 tempC hum press voc : float) (w : World) :
  down_from env (polls w) ->
  postReading fuel radiation pm25 tempC hum press voc w = None.
Proof.
  intros Hdown. unfold Net.postReading, Net.reconnect_if_down, Net.bind at 1 2.
  unfold Net.wifi_status at 1. rewrite (Hdown (polls w) (le_n _)). cbn [negb].
  rewrite NetFacts.connectWiFi_down; [reflexivity|].
  intros i Hi. apply Hdown. cbn [polls] in Hi. lia.
Qed.


End Logs.

Import NetDemo MoreDemo.

Lemma trySyncTimeNtp_stops_at_first_plausible_poll_witness :
  exists w',
    Net.trySyncTimeNtp Q env_lucky boot_world = Some (true, w')
    /\ rtc w' = 1793594999.
Proof.
  destruct (trySyncTimeNtp_stops_at_first_plausible_poll Q env_lucky boot_world)
    as (w' & E & _ & _ & _ & Hfirst & _).
  exists w'. split; [exact E|].
  apply (Hfirst [None] 1793594999 []); [reflexivity|reflexivity|].
  unfold Net.PLAUSIBLE_EPOCH. lia.
Defined.

Lemma connectWiFi_syncs_once_witness :
  exists w',
    Net.connectWiFi Q demo_cfg env_link_late 5 boot_world = Some (tt, w')
    /\ syncs w' = S (syncs boot_world) /\ posts w' = posts boot_world
    /\ lookups w' = lookups boot_world.
Proof.
  assert (E : exists w',
             Net.connectWiFi Q demo_cfg env_link_late 5 boot_world = Some (tt, w'))
    by (vm_compute; eexists; reflexivity).
  destruct E as (w' & E). exists w'. split; [exact E|].
  exact (connectWiFi_syncs_once Q demo_cfg env_link_late 5 boot_world w' E).
Defined.

Lemma settimeofday_writes_only_build_stamp_witness :
  exists b w' evs,
    Net.postReading Q demo_cfg env_stamp_only 0 0.08%Q 12.3%Q 24%Q 55%Q 1010%Q 450%Q
      boot_world = Some (b, w')
    /\ trace w' = trace boot_world ++ evs
    /\ Forall (fun t => NetObs.plausible_stamp demo_cfg env_stamp_only = Some t
                        /\ Net.PLAUSIBLE_EPOCH <= t)
              (set_times evs).
Proof.
  assert (E : exists b w',
             Net.postReading Q demo_cfg env_stamp_only 0
               0.08%Q 12.3%Q 24%Q 55%Q 1010%Q 450%Q boot_world = Some (b, w'))
    by (vm_compute; do 2 eexists; reflexivity).
  destruct E as (b & w' & E).
  destruct (proj2 (settimeofday_writes_only_build_stamp Q demo_cfg env_stamp_only)
              _ _ _ _ _ _ _ _ _ _ E) as (evs & H).
  exists b, w', evs. split; [exact E|exact H].
Defined.

Lemma postReading_resends_same_document_witness :
  exists w' w1 w2 w3 reachable evs,
    Net.postReading Q demo_cfg env_lucky 0 0.08%Q 12.3%Q 24%Q 55%Q 1010%Q 450%Q
      boot_world = Some (true, w')
    /\ Net.reconnect_if_down Q demo_cfg env_lucky 0 boot_world = Some (tt, w1)
    /\ Net.ensureTimeSynced Q demo_cfg env_lucky w1
       = Some (NetObs.time_ok demo_cfg env_lucky w1, w2)
    /\ Net.checkInternetReachable Q env_lucky w2 = Some (reachable, w3)
    /\ trace w' = trace boot_world ++ evs
    /\ Forall (eq (mkPayload (NODE_ID demo_cfg) (to_long (rtc w3))
                     0.08%Q 12.3%Q 24%Q 55%Q 1010%Q 450%Q))
              (post_bodies evs)
    /\ Forall (eq (API_KEY demo_cfg)) (post_keys evs)
    /\ (post_bodies evs <> [] -> Net.PLAUSIBLE_EPOCH <= rtc w3).
Proof.
  assert (E : exists w',
             Net.postReading Q demo_cfg env_lucky 0
               0.08%Q 12.3%Q 24%Q 55%Q 1010%Q 450%Q boot_world = Some (true, w'))
    by (vm_compute; eexists; reflexivity).
  destruct E as (w' & E).
  destruct (postReading_resends_same_document Q demo_cfg env_lucky
              _ _ _ _ _ _ _ _ _ _ E) as (w1 & w2 & w3 & reachable & evs & H).
  exists w', w1, w2, w3, reachable, evs. split; [exact E|exact H].
Defined.

Lemma postReading_posts_only_on_link_witness :
  exists w' evs,
    Net.postReading Q demo_cfg env_link_flap 3 0.08%Q 12.3%Q 24%Q 55%Q 1010%Q 450%Q
      boot_world = Some (true, w')
    /\ trace w' = trace boot_world ++ evs /\ posts_on_link false evs = true.
Proof.
  assert (E : exists w',
             Net.postReading Q demo_cfg env_link_flap 3
               0.08%Q 12.3%Q 24%Q 55%Q 1010%Q 450%Q boot_world = Some (true, w'))
    by (vm_compute; eexists; reflexivity).
  destruct E as (w' & E).
  destruct (postReading_posts_only_on_link Q demo_cfg env_link_flap
              _ _ _ _ _ _ _ _ _ _ E) as (evs & H).
  exists w', evs. split; [exact E|exact H].
Defined.

Lemma postReading_needs_reachable_host_witness :
  (exists w',
      Net.postReading Q demo_cfg env_no_dns 0 0.08%Q 12.3%Q 24%Q 55%Q 1010%Q 450%Q
        boot_world = Some (false, w')
      /\ posts w' = posts boot_world
      /\ exists evs, trace w' = trace boot_world ++ evs
           /\ post_codes evs = [] /\ delays_at Backoff evs = [])
  /\ (exists fuel' w',
        Net.postReading Q demo_cfg env_no_dns fuel' 0.08%Q 12.3%Q 24%Q 55%Q 1010%Q 450%Q
          boot_world = Some (false, w')).
Proof.
  destruct (postReading_needs_reachable_host Q demo_cfg env_no_dns 0
              0.08%Q 12.3%Q 24%Q 55%Q 1010%Q 450%Q boot_world eq_refl) as [Hgate Hret].
  split.
  - assert (E : exists w',
               Net.postReading Q demo_cfg env_no_dns 0
                 0.08%Q 12.3%Q 24%Q 55%Q 1010%Q 450%Q boot_world = Some (false, w'))
      by (vm_compute; eexists; reflexivity).
    destruct E as (w' & E). exists w'. split; [exact E|].
    exact (proj2 (Hgate false w' E)).
  - apply (Hret 0%nat). intros i _. reflexivity.
Defined.

Lemma postReading_gives_up_without_client_witness :
  (exists w',
      Net.postReading Q cfg_no_host env_lucky 0 0.08%Q 12.3%Q 24%Q 55%Q 1010%Q 450%Q
        boot_world = Some (false, w')
      /\ posts w' = posts boot_world
      /\ exists evs, trace w' = trace boot_world ++ evs
           /\ post_codes evs = [] /\ delays_at Backoff evs = [])
  /\ (exists fuel' w',
        Net.postReading Q cfg_no_host env_lucky fuel' 0.08%Q 12.3%Q 24%Q 55%Q 1010%Q 450%Q
          boot_world = Some (false, w')).
Proof.
  destruct (postReading_gives_up_without_client Q cfg_no_host env_lucky 0
              0.08%Q 12.3%Q 24%Q 55%Q 1010%Q 450%Q boot_world eq_refl) as [Hgate Hret].
  split.
  - assert (E : exists w',
               Net.postReading Q cfg_no_host env_lucky 0
                 0.08%Q 12.3%Q 24%Q 55%Q 1010%Q 450%Q boot_world = Some (false, w'))
      by (vm_compute; eexists; reflexivity).
    destruct E as (w' & E). exists w'. split; [exact E|].
    exact (proj2 (Hgate false w' E)).
  - apply (Hret 0%nat). intros i _. reflexivity.
Defined.

End TransportFacts.


(** ** Splitting the server URL *)

Module UrlFacts.
Import Net TraceObs.

Local Open Scope string_scope.

Lemma prefix_append (p t : string) : prefix p (p ++ t) = true.
Proof.
  induction p as [|a p IH]; [now destruct t|].
  cbn. destruct (ascii_dec a a); [exact IH|contradiction].
Qed.

Lemma index_here (c : ascii) (p t : string) :
  index 0 (String c p) (String c p ++ t) = Some 0%nat.
Proof.
  cbn [append index]. change (String c (p ++ t)) with (String c p ++ t).
  now rewrite prefix_append.
Qed.

Lemma index_skip (c : ascii) (p s t : string) :
  no_char c s = true ->
  index 0 (String c p) (s ++ t) = shift (String.length s) (index 0 (String c p) t).
Proof.
  induction s as [|a s IH]; intros H.
  - cbn. now destruct (index 0 (String c p) t).
  - cbn [no_char] in H. apply andb_prop in H as [Ha H].
    apply negb_true_iff, Ascii.eqb_neq in Ha.
    cbn [append index prefix String.length].
    destruct (ascii_dec c a) as [->|_]; [contradiction|].
    rewrite (IH H). now destruct (index 0 (String c p) t).
Qed.

Lemma index_absent (c : ascii) (p s : string) :
  no_char c s = true -> index 0 (String c p) s = None.
Proof.
  induction s as [|a s IH]; intros H; [reflexivity|].
  cbn [no_char] in H. apply andb_prop in H as [Ha H].
  apply negb_true_iff, Ascii.eqb_neq in Ha.
  cbn [index prefix]. destruct (ascii_dec c a) as [->|_]; [contradiction|].
  now rewrite (IH H).
Qed.

Lemma index_from (p s t : string) :
  index (String.length s) p (s ++ t) = shift (String.length s) (index 0 p t).
Proof.
  induction s as [|a s IH].
  - cbn. now destruct (index 0 p t).
  - cbn [append String.length index]. rewrite IH.
    now destruct (index 0 p t).
Qed.

Lemma substring_here (b c : string) : substring 0 (String.length b) (b ++ c) = b.
Proof.
  induction b as [|x b IH]; [now destruct c|].
  cbn. now rewrite IH.
Qed.

Lemma substring_skip (a s : string) (m : nat) :
  substring (String.length a) m (a ++ s) = substring 0 m s.
Proof. induction a as [|x a IH]; [reflexivity|exact IH]. Qed.

Lemma substring_all (s : string) (m : nat) :
  (String.length s <= m)%nat -> substring 0 m s = s.
Proof.
  revert m. induction s as [|x s IH]; intros m H.
  - now destruct m.
  - destruct m as [|m]; [cbn in H; lia|]. cbn. rewrite IH; [reflexivity|cbn in H; lia].
Qed.

Lemma length_append (a b : string) :
  String.length (a ++ b) = (String.length a + String.length b)%nat.
Proof. induction a as [|x a IH]; [reflexivity|]. cbn. now rewrite IH. Qed.

Lemma append_assoc (a b c : string) : (a ++ b) ++ c = a ++ b ++ c.
Proof. induction a as [|x a IH]; [reflexivity|]. cbn. now rewrite IH. Qed.

(** Where [beginHttps] looks for the scheme separator. *)
Lemma scheme_found (scheme tail : string) :
  no_char ":" scheme = true ->
  indexOf "://" (scheme ++ "://" ++ tail) 0 = Z.of_nat (String.length scheme).
Proof.
  intros H. unfold indexOf. change (Z.to_nat 0) with 0%nat.
  rewrite (index_skip ":" "//" scheme ("://" ++ tail) H).
  rewrite (index_here ":" "//" tail). cbn [shift]. now rewrite Nat.add_0_r.
Qed.

Lemma scheme_absent (url : string) :
  no_char ":" url = true -> indexOf "://" url 0 = -1.
Proof.
  intros H. unfold indexOf. change (Z.to_nat 0) with 0%nat.
  now rewrite (index_absent ":" "//" url H).
Qed.

(** The host and the path, for a host part that starts after [pre]. *)
Lemma host_and_path (pre host rest : string) :
  no_char "/" host = true ->
  indexOf "/" (pre ++ host ++ "/" ++ rest) (Z.of_nat (String.length pre))
  = Z.of_nat (String.length pre + String.length host)
  /\ substring_range (pre ++ host ++ "/" ++ rest) (Z.of_nat (String.length pre))
       (Z.of_nat (String.length pre + String.length host)) = host
  /\ substring_from (pre ++ host ++ "/" ++ rest)
       (Z.of_nat (String.length pre + String.length host)) = "/" ++ rest.
Proof.
  intros H. unfold indexOf, substring_range, substring_from.
  rewrite !Nat2Z.id. split; [|split].
  - rewrite index_from, (index_skip "/" "" host ("/" ++ rest) H).
    rewrite (index_here "/" "" rest). cbn [shift]. now rewrite Nat.add_0_r.
  - replace (String.length pre + String.length host - String.length pre)%nat
      with (String.length host) by lia.
    rewrite substring_skip. apply substring_here.
  - rewrite <- append_assoc, <- length_append, substring_skip.
    apply substring_all. rewrite !length_append. lia.
Qed.

Lemma host_alone (pre host : string) :
  no_char "/" host = true ->
  indexOf "/" (pre ++ host) (Z.of_nat (String.length pre)) = -1
  /\ substring_from (pre ++ host) (Z.of_nat (String.length pre)) = host.
Proof.
  intros H. unfold indexOf, substring_from. rewrite !Nat2Z.id. split.
  - rewrite index_from, (index_absent "/" "" host H). reflexivity.
  - rewrite substring_skip. apply substring_all. rewrite length_append. lia.
Qed.

Lemma no_char_append (c : ascii) (a b : string) :
  no_char c (a ++ b) = no_char c a && no_char c b.
Proof.
  induction a as [|x a IH]; [reflexivity|]. cbn. now rewrite IH, andb_assoc.
Qed.

Lemma nonempty_length (s : string) : s <> "" -> (String.length s =? 0)%nat = false.
Proof. intros H. destruct s; [contradiction|reflexivity]. Qed.

(** How [beginHttps] splits the server URL.  For a URL
    [scheme://host/rest] whose scheme holds no colon and whose host is not
    empty and holds no slash, the HTTP client is set up with exactly [host]
    and the path [/rest]; without a path the path is [/]; and a URL without
    any colon is taken to start with its host. *)
Theorem beginHttps_splits_url (cfg : Config) (env : Env) (scheme host rest : string) :
  no_char ":" scheme = true -> no_char "/" host = true -> host <> "" ->
  (SERVER_URL cfg = scheme ++ "://" ++ host ++ "/" ++ rest ->
   beginHttps cfg env = http_begin env host ("/" ++ rest))
  /\ (SERVER_URL cfg = scheme ++ "://" ++ host ->
      beginHttps cfg env = http_begin env host "/")
  /\ (no_char ":" host = true -> no_char ":" rest = true ->
      SERVER_URL cfg = host ++ "/" ++ rest ->
      beginHttps cfg env = http_begin env host ("/" ++ rest)).
Proof.
  intros Hs Hh Hne.
  assert (Hpre : Z.of_nat (String.length scheme) + 3
                 = Z.of_nat (String.length (scheme ++ "://"))).
  { rewrite length_append. cbn [String.length]. lia. }
  split; [|split].
  - intros Hurl. unfold beginHttps. rewrite Hurl. cbv zeta.
    rewrite scheme_found by assumption.
    replace (Z.of_nat (String.length scheme) >=? 0) with true
      by (symmetry; apply Z.geb_le; lia).
    rewrite Hpre.
    replace (scheme ++ "://" ++ host ++ "/" ++ rest)
      with ((scheme ++ "://") ++ host ++ "/" ++ rest) by apply append_assoc.
    destruct (host_and_path (scheme ++ "://") host rest Hh) as (E1 & E2 & E3).
    rewrite E1.
    replace (Z.of_nat (String.length (scheme ++ "://") + String.length host) >=? 0)
      with true by (symmetry; apply Z.geb_le; lia).
    rewrite E2, E3, (nonempty_length host Hne). reflexivity.
  - intros Hurl. unfold beginHttps. rewrite Hurl. cbv zeta.
    rewrite scheme_found by assumption.
    replace (Z.of_nat (String.length scheme) >=? 0) with true
      by (symmetry; apply Z.geb_le; lia).
    rewrite Hpre.
    replace (scheme ++ "://" ++ host) with ((scheme ++ "://") ++ host)
      by apply append_assoc.
    destruct (host_alone (scheme ++ "://") host Hh) as (E1 & E2).
    rewrite E1. change (-1 >=? 0) with false. cbv iota.
    rewrite E2, (nonempty_length host Hne). reflexivity.
  - intros Hc Hr Hurl. unfold beginHttps. rewrite Hurl. cbv zeta.
    rewrite scheme_absent
      by (rewrite !no_char_append, Hc, Hr; reflexivity).
    change (-1 >=? 0) with false. cbv iota.
    destruct (host_and_path "" host rest Hh) as (E1 & E2 & E3).
    change ("" ++ host ++ "/" ++ rest) with (host ++ "/" ++ rest) in E1, E2, E3.
    change (String.length "" + String.length host)%nat
      with (String.length host) in E1, E2, E3.
    change (Z.of_nat (String.length "")) with 0 in E1, E2.
    rewrite E1.
    replace (Z.of_nat (String.length host) >=? 0)
      with true by (symmetry; apply Z.geb_le; lia).
    rewrite E2, E3, (nonempty_length host Hne). reflexivity.
Qed.

Lemma beginHttps_splits_url_witness :
  beginHttps NetDemo.demo_cfg MoreDemo.env_strict_client
  = http_begin MoreDemo.env_strict_client "collector.example" "/api/telemetry"
  /\ beginHttps MoreDemo.cfg_no_path MoreDemo.env_strict_client
     = http_begin MoreDemo.env_strict_client "collector.example" "/"
  /\ beginHttps MoreDemo.cfg_no_scheme MoreDemo.env_strict_client
     = http_begin MoreDemo.env_strict_client "collector.example" "/api/telemetry".
Proof.
  assert (Hne : "collector.example" <> "") by discriminate.
  split; [|split].
  - apply (proj1 (beginHttps_splits_url NetDemo.demo_cfg MoreDemo.env_strict_client
                    "https" "collector.example" "api/telemetry"
                    eq_refl eq_refl Hne)).
    reflexivity.
  - apply (proj1 (proj2 (beginHttps_splits_url MoreDemo.cfg_no_path
                           MoreDemo.env_strict_client
                           "https" "collector.example" ""
                           eq_refl eq_refl Hne))).
    reflexivity.
  - apply (proj2 (proj2 (beginHttps_splits_url MoreDemo.cfg_no_scheme
                           MoreDemo.env_strict_client
                           "" "collector.example" "api/telemetry"
                           eq_refl eq_refl Hne)));
      reflexivity.
Defined.

(** A server URL without a host is refused before the HTTP client is
    consulted: [beginHttps] returns false for [scheme:///rest], for
    [scheme://], for a URL that starts with a slash and for the empty URL,
    whatever the client would answer. *)
Theorem beginHttps_rejects_empty_host (cfg : Config) (env : Env) (scheme rest : string) :
  no_char ":" scheme = true ->
  (SERVER_URL cfg = scheme ++ ":///" ++ rest -> beginHttps cfg env = false)
  /\ (SERVER_URL cfg = scheme ++ "://" -> beginHttps cfg env = false)
  /\ (no_char ":" rest = true -> SERVER_URL cfg = "/" ++ rest ->
      beginHttps cfg env = false)
  /\ (SERVER_URL cfg = "" -> beginHttps cfg env = false).
Proof.
  intros Hs.
  assert (Hpre : Z.of_nat (String.length scheme) + 3
                 = Z.of_nat (String.length (scheme ++ "://"))).
  { rewrite length_append. cbn [String.length]. lia. }
  split; [|split; [|split]].
  - intros Hurl. unfold beginHttps. rewrite Hurl. cbv zeta.
    change (scheme ++ ":///" ++ rest) with (scheme ++ "://" ++ "" ++ "/" ++ rest).
    rewrite scheme_found by assumption.
    replace (Z.of_nat (String.length scheme) >=? 0) with true
      by (symmetry; apply Z.geb_le; lia).
    rewrite Hpre.
    replace (scheme ++ "://" ++ "" ++ "/" ++ rest)
      with ((scheme ++ "://") ++ "" ++ "/" ++ rest) by apply append_assoc.
    destruct (host_and_path (scheme ++ "://") "" rest eq_refl) as (E1 & E2 & _).
    rewrite E1.
    replace (Z.of_nat (String.length (scheme ++ "://") + String.length "") >=? 0)
      with true by (symmetry; apply Z.geb_le; lia).
    rewrite E2. reflexivity.
  - intros Hurl. unfold beginHttps. rewrite Hurl. cbv zeta.
    change (scheme ++ "://") with (scheme ++ "://" ++ "").
    rewrite scheme_found by assumption.
    replace (Z.of_nat (String.length scheme) >=? 0) with true
      by (symmetry; apply Z.geb_le; lia).
    rewrite Hpre.
    replace (scheme ++ "://" ++ "") with ((scheme ++ "://") ++ "")
      by apply append_assoc.
    destruct (host_alone (scheme ++ "://") "" eq_refl) as (E1 & E2).
    rewrite E1. change (-1 >=? 0) with false. cbv iota.
    rewrite E2. reflexivity.
  - intros Hr Hurl. unfold beginHttps. rewrite Hurl. cbv zeta.
    rewrite scheme_absent by (rewrite no_char_append, Hr; reflexivity).
    change (-1 >=? 0) with false. cbv iota.
    destruct (host_and_path "" "" rest eq_refl) as (E1 & E2 & _).
    change ("" ++ "" ++ "/" ++ rest) with ("/" ++ rest) in E1, E2.
    change (Z.of_nat (String.length "" + String.length "")) with 0 in E1, E2.
    change (Z.of_nat (String.length "")) with 0 in E1, E2.
    rewrite E1. change (0 >=? 0) with true. cbv iota.
    rewrite E2. reflexivity.
  - intros Hurl. unfold beginHttps. rewrite Hurl. reflexivity.
Qed.

Lemma beginHttps_rejects_empty_host_witness :
  beginHttps MoreDemo.cfg_no_host NetDemo.env_lucky = false.
Proof.
  apply (proj1 (beginHttps_rejects_empty_host MoreDemo.cfg_no_host
                  NetDemo.env_lucky "https" "api/telemetry" eq_refl)).
  reflexivity.
Defined.

End UrlFacts.


(** ** The build stamp *)

Module StampFacts.
Import Net NetObs.

Local Open Scope string_scope.

Lemma strncmp3_prefix (m suffix other : string) :
  String.length m = 3%nat ->
  strncmp3 (m ++ suffix) other = String.eqb m (substring 0 3 other).
Proof.
  intros H. unfold strncmp3. rewrite <- H at 1.
  now rewrite UrlFacts.substring_here.
Qed.

Lemma month_scan_range (mon : string) (ms : list string) : forall i : Z,
  month_scan mon i ms = -1
  \/ i <= month_scan mon i ms < i + Z.of_nat (List.length ms).
Proof.
  induction ms as [|m ms IH]; intros i; [now left|].
  cbn [month_scan List.length]. destruct (strncmp3 mon m); [right; lia|].
  destruct (IH (i + 1)) as [H|H]; [now left|right; lia].
Qed.

Lemma month_scan_hit (mon : string) (ms : list string) : forall i : Z,
  0 <= i -> 0 <= month_scan mon i ms ->
  strncmp3 mon (nth (Z.to_nat (month_scan mon i ms - i)) ms "") = true.
Proof.
  induction ms as [|m ms IH]; intros i Hi; [cbn; lia|].
  cbn [month_scan]. destruct (strncmp3 mon m) eqn:Hm.
  - intros _. now rewrite Z.sub_diag.
  - intros H. specialize (IH (i + 1) ltac:(lia) H).
    destruct (month_scan_range mon ms (i + 1)) as [E|E]; [lia|].
    replace (Z.to_nat (month_scan mon (i + 1) ms - i))
      with (S (Z.to_nat (month_scan mon (i + 1) ms - (i + 1)))) by lia.
    exact IH.
Qed.

Lemma month_scan_miss (mon : string) (ms : list string) : forall i : Z,
  0 <= i -> month_scan mon i ms = -1 ->
  forall m, In m ms -> strncmp3 mon m = false.
Proof.
  induction ms as [|m0 ms IH]; intros i Hi; [intros _ m []|].
  cbn [month_scan]. destruct (strncmp3 mon m0) eqn:Hm; [lia|].
  intros H m [<-|Hin]; [exact Hm|]. apply (IH (i + 1)); [lia|assumption|assumption].
Qed.

Lemma month_is_three_letters (m : string) :
  In m months -> substring 0 3 m = m.
Proof.
  unfold months. cbn [In].
  intros H; repeat (destruct H as [<-|H]; [reflexivity|]); contradiction.
Qed.

(** [monthFromString] is the position of the month whose abbreviation the
    argument starts with: the result is -1 or an index from 0 to 11; an
    index means that the first three characters are that month's
    abbreviation; -1 means that they are none of the twelve; and each
    abbreviation, whatever follows it, yields its own index. *)
Theorem monthFromString_finds_month :
  (forall mon : string,
      monthFromString mon = -1 \/ 0 <= monthFromString mon < 12)
  /\ (forall mon : string,
        0 <= monthFromString mon ->
        substring 0 3 mon = nth (Z.to_nat (monthFromString mon)) months "")
  /\ (forall mon : string,
        monthFromString mon = -1 ->
        forall m, In m months -> substring 0 3 mon <> m)
  /\ (forall (i : nat) (suffix : string),
        (i < 12)%nat ->
        monthFromString (nth i months "" ++ suffix) = Z.of_nat i).
Proof.
  split; [|split; [|split]].
  - intros mon. destruct (month_scan_range mon months 0) as [H|H];
      [now left | right; exact H].
  - intros mon H.
    pose proof (month_scan_hit mon months 0 (Z.le_refl 0) H) as Hhit.
    fold (monthFromString mon) in Hhit. rewrite Z.sub_0_r in Hhit.
    unfold strncmp3 in Hhit. apply String.eqb_eq in Hhit. rewrite Hhit.
    apply month_is_three_letters, nth_In.
    destruct (month_scan_range mon months 0) as [E|E];
      fold (monthFromString mon) in E; cbn [List.length months] in *; [lia|].
    change (List.length months) with 12%nat. lia.
  - intros mon H m Hin Heq.
    pose proof (month_scan_miss mon months 0 (Z.le_refl 0) H m Hin) as Hmiss.
    unfold strncmp3 in Hmiss. rewrite (month_is_three_letters m Hin), Heq in Hmiss.
    now rewrite String.eqb_refl in Hmiss.
  - intros i suffix Hi. unfold monthFromString, months.
    do 12 (destruct i as [|i];
           [cbn [nth month_scan]; rewrite !strncmp3_prefix by reflexivity;
            reflexivity|]).
    lia.
Qed.

Lemma monthFromString_finds_month_witness :
  substring 0 3 "Nov  2 2026" = nth (Z.to_nat (monthFromString "Nov  2 2026")) months ""
  /\ monthFromString ("Dec" ++ "ember") = 11
  /\ monthFromString "nov" = -1.
Proof.
  destruct monthFromString_finds_month as (_ & H2 & _ & H4).
  split; [apply H2; vm_compute; discriminate|].
  split; [apply (H4 11%nat "ember"); lia | reflexivity].
Defined.

End StampFacts.


(** ** Invariants of the control loop *)

Module LoopInvariants.
Import Loop LoopObs PassObs.

Section Steps.

Variable cfg : Settings.

Lemma wrap32_elapsed (start now : Z) :
  0 <= start <= now -> now - start < 4294967296 ->
  wrap32 (wrap32 now - wrap32 start) = now - start.
Proof.
  intros H1 H2. unfold wrap32.
  rewrite <- Zminus_mod. apply Z.mod_small. lia.
Qed.

(** The count window is timed by the unsigned difference
    [now - geigerWindowStart], which stays right when [millis()] wraps
    around: as long as less than [2^32] ms have passed since the window
    started, it is closed exactly when at least [GEIGER_WINDOW_MS] have
    passed, and it then restarts at the current reading of the clock. *)
Theorem geiger_window_measures_elapsed_time
    (ps : Pass) (g : Globals) (k : nat) (start now : Z) :
  0 <= start <= now -> now - start < 4294967296 ->
  geigerWindowStart g = wrap32 start -> millis_at ps k = now ->
  snd (fst (geiger_step cfg ps g k)) = (now - start >=? GEIGER_WINDOW_MS cfg)
  /\ geigerWindowStart (fst (fst (fst (geiger_step cfg ps g k))))
     = wrap32 (if now - start >=? GEIGER_WINDOW_MS cfg then now else start).
Proof.
  intros H1 H2 Hs Hn. unfold geiger_step, millis. rewrite Hs, Hn.
  rewrite wrap32_elapsed by assumption.
  destruct (now - start >=? GEIGER_WINDOW_MS cfg); cbn; split; reflexivity.
Qed.

(** *** The BME680 bookkeeping *)

Lemma same_bme_refl (g : Globals) : same_bme g g.
Proof. now repeat split. Qed.

Lemma same_bme_trans (g g1 g2 : Globals) :
  same_bme g g1 -> same_bme g1 g2 -> same_bme g g2.
Proof.
  unfold same_bme. intros (A1 & A2 & A3 & A4) (B1 & B2 & B3 & B4).
  repeat split; congruence.
Qed.

Lemma bme_read_same (ps : Pass) (g : Globals) (k : nat) :
  same_bme g (fst (fst (fst (bme_read ps g k)))).
Proof.
  destruct (LoopFacts.bme_read_cases ps g k)
    as [(k' & E)|(te & hu & pr & ga & k' & _ & E)]; rewrite E; now repeat split.
Qed.

Lemma sds_step_same (ps : Pass) (g : Globals) (k : nat) :
  same_bme g (fst (fst (fst (sds_step cfg ps g k)))).
Proof.
  unfold sds_step, millis.
  destruct (SDS.sds_ok _); [now repeat split|].
  destruct (_ <? _); [apply same_bme_refl|].
  destruct (negb (sdsHintShown g)); [|apply same_bme_refl].
  destruct (_ >? _); now repeat split.
Qed.

Lemma geiger_step_same (ps : Pass) (g : Globals) (k : nat) :
  same_bme g (fst (fst (fst (geiger_step cfg ps g k)))).
Proof.
  destruct (LoopFacts.geiger_step_cases cfg ps g k) as [(now & k' & E)|(k' & E)];
    rewrite E; now repeat split.
Qed.

(** A pass after the retry of the initialisation. *)
Lemma acquire_after_retry (ps : Pass) (g : Globals) :
  same_bme (fst (bme_retry cfg ps g (rawSdsDebugWindow cfg ps g 0)))
           (fst (acquire cfg ps g)).
Proof.
  unfold acquire.
  destruct (bme_retry cfg ps g _) as [g1 k1]. cbn [fst].
  pose proof (bme_read_same ps g1 k1) as H2.
  destruct (bme_read ps g1 k1) as [[[g2 [[[te hu] pr] ga]] b2] k2]. cbn [fst] in H2.
  pose proof (sds_step_same ps g2 k2) as H3.
  destruct (sds_step cfg ps g2 k2) as [[[g3 [p25 p10]] b3] k3]. cbn [fst] in H3.
  pose proof (geiger_step_same ps g3 k3) as H4.
  destruct (geiger_step cfg ps g3 k3) as [[[g4 r] b4] k4]. cbn [fst] in *.
  eapply same_bme_trans; [exact H2|]. eapply same_bme_trans; eassumption.
Qed.

Lemma bme_retry_ready (ps : Pass) (g : Globals) (k : nat) :
  bmeReady g = true -> bme_retry cfg ps g k = (g, k).
Proof. intros H. unfold bme_retry. now rewrite H. Qed.

Lemma acquire_ready (ps : Pass) (g : Globals) :
  bmeReady g = true -> same_bme g (fst (acquire cfg ps g)).
Proof.
  intros H. pose proof (acquire_after_retry ps g) as A.
  now rewrite bme_retry_ready in A.
Qed.

(** Once the BME680 has been initialised it is never initialised again:
    over any passes, whether its reads succeed or fail, [bmeReady] stays
    true and the address in use and the warm-up deadline stay what they
    were. *)
Theorem bme_ready_is_never_revoked (pss : list Pass) : forall g : Globals,
  bmeReady g = true ->
  bmeReady (snd (acquire_all cfg pss g)) = true
  /\ bmeAddrInUse (snd (acquire_all cfg pss g)) = bmeAddrInUse g
  /\ bmeWarmupUntil (snd (acquire_all cfg pss g)) = bmeWarmupUntil g.
Proof.
  induction pss as [|ps pss IH]; intros g H; [now repeat split|].
  cbn [acquire_all].
  destruct (acquire_ready ps g H) as (A1 & A2 & A3 & _).
  destruct (acquire cfg ps g) as [g1 rd]. cbn [fst] in *.
  specialize (IH g1). destruct (acquire_all cfg pss g1) as [rds g2].
  cbn [snd] in *. destruct IH as (I1 & I2 & I3); [congruence|].
  repeat split; congruence.
Qed.

Lemma acquire_not_ready (ps : Pass) (g : Globals) :
  bmeReady (fst (bme_retry cfg ps g (rawSdsDebugWindow cfg ps g 0))) = false ->
  got_bme (snd (acquire cfg ps g)) = false.
Proof.
  unfold acquire.
  destruct (bme_retry cfg ps g _) as [g1 k1]. cbn [fst]. intros H.
  unfold bme_read. rewrite H.
  destruct (sds_step cfg ps g1 k1) as [[[g3 [p25 p10]] b3] k3].
  now destruct (geiger_step cfg ps g3 k3) as [[[g4 r] b4] k4].
Qed.

(** The retry of the BME680 initialisation is throttled by [bmeRetryAt].
    While the sensor is not ready, a pass whose clock readings all lie
    before the deadline does not probe it, even if it would answer:
    nothing of its bookkeeping changes and the pass takes no BME reading.
    A pass at or after the deadline probes it, and when no address answers
    it moves the deadline 10000 ms past a clock reading of that pass. *)
Theorem bme_init_retry_is_throttled (ps : Pass) (g : Globals) :
  bmeReady g = false ->
  ((forall k, wrap32 (millis_at ps k) < bmeRetryAt g) ->
   bmeReady (fst (acquire cfg ps g)) = false
   /\ bmeRetryAt (fst (acquire cfg ps g)) = bmeRetryAt g
   /\ bmeAddrInUse (fst (acquire cfg ps g)) = bmeAddrInUse g
   /\ got_bme (snd (acquire cfg ps g)) = false)
  /\ ((forall k, bmeRetryAt g <= wrap32 (millis_at ps k)) ->
      (forall addr, bme_begin ps addr = false) ->
      bmeReady (fst (acquire cfg ps g)) = false
      /\ (exists k, bmeRetryAt (fst (acquire cfg ps g))
                    = wrap32 (wrap32 (millis_at ps k) + 10000))
      /\ bmeAddrInUse (fst (acquire cfg ps g)) = bmeAddrInUse g
      /\ got_bme (snd (acquire cfg ps g)) = false).
Proof.
  intros Hr.
  pose proof (acquire_after_retry ps g) as (A1 & A2 & _ & A4).
  pose proof (acquire_not_ready ps g) as Hno.
  split.
  - intros Hearly.
    assert (E : bme_retry cfg ps g (rawSdsDebugWindow cfg ps g 0)
                = (g, S (rawSdsDebugWindow cfg ps g 0))).
    { unfold bme_retry, millis. rewrite Hr. cbn [negb].
      destruct (Z.geb_spec (wrap32 (millis_at ps (rawSdsDebugWindow cfg ps g 0)))
                  (bmeRetryAt g)) as [Hge|_]; [|reflexivity].
      specialize (Hearly (rawSdsDebugWindow cfg ps g 0)). lia. }
    rewrite E in *. cbn [fst] in *.
    split; [congruence|]. split; [exact A4|]. split; [exact A2|]. now apply Hno.
  - intros Hlate Hdead.
    assert (E : bme_retry cfg ps g (rawSdsDebugWindow cfg ps g 0)
                = (set_bme g false (bmeAddrInUse g)
                     (wrap32 (wrap32 (millis_at ps (S (rawSdsDebugWindow cfg ps g 0)))
                              + 10000))
                     (bmeWarmupUntil g),
                   S (S (rawSdsDebugWindow cfg ps g 0)))).
    { unfold bme_retry, millis, initBME. rewrite Hr. cbn [negb].
      destruct (Z.geb_spec (wrap32 (millis_at ps (rawSdsDebugWindow cfg ps g 0)))
                  (bmeRetryAt g)) as [_|Hlt];
        [|specialize (Hlate (rawSdsDebugWindow cfg ps g 0)); lia].
      rewrite !Hdead. destruct (_ =? 0); destruct (_ =? 0); reflexivity. }
    rewrite E in *. cbn [fst set_bme bmeReady bmeRetryAt bmeAddrInUse] in *.
    split; [congruence|].
    split; [eexists; exact A4|]. split; [exact A2|]. now apply Hno.
Qed.

Lemma initBME_address (ps : Pass) (g : Globals) :
  fst (initBME cfg ps g) = true ->
  snd (initBME cfg ps g) <> 0
  /\ (snd (initBME cfg ps g) = BME680_I2C_ADDR cfg
      \/ snd (initBME cfg ps g) = BME680_I2C_ADDR_ALT cfg).
Proof.
  unfold initBME.
  destruct (Z.eqb_spec (BME680_I2C_ADDR cfg) 0) as [E1|N1].
  - destruct (Z.eqb_spec (BME680_I2C_ADDR_ALT cfg) 0) as [E2|N2]; [discriminate|].
    destruct (bme_begin ps (BME680_I2C_ADDR_ALT cfg)); [|discriminate].
    intros _. split; [exact N2|now right].
  - destruct (bme_begin ps (BME680_I2C_ADDR cfg)).
    + intros _. split; [exact N1|now left].
    + destruct (Z.eqb_spec (BME680_I2C_ADDR_ALT cfg) 0) as [E2|N2]; [discriminate|].
      destruct (bme_begin ps (BME680_I2C_ADDR_ALT cfg)); [|discriminate].
      intros _. split; [exact N2|now right].
Qed.

Lemma bme_retry_address (ps : Pass) (g : Globals) (k : nat) :
  (bmeReady g = true -> configured_address cfg g) ->
  bmeReady (fst (bme_retry cfg ps g k)) = true ->
  configured_address cfg (fst (bme_retry cfg ps g k)).
Proof.
  intros J. unfold bme_retry, millis.
  destruct (bmeReady g) eqn:Hr; cbn [negb]; [intros _; now apply J|].
  destruct (_ >=? _); [|cbn [fst]; congruence].
  pose proof (initBME_address ps g) as A.
  destruct (initBME cfg ps g) as [ready addr]. cbn [fst snd] in A.
  destruct ready; cbn [negb fst]; [intros _; exact (A eq_refl)|discriminate].
Qed.

Lemma setup_globals_address (ps : Pass) (g : Globals) :
  bmeReady (setup_globals cfg ps g) = true ->
  configured_address cfg (setup_globals cfg ps g).
Proof.
  unfold setup_globals, millis.
  match goal with
  | |- context [initBME cfg ps ?g0] =>
      pose proof (initBME_address ps g0) as A;
      destruct (initBME cfg ps g0) as [ready addr]
  end.
  cbn [fst snd] in A.
  destruct ready; cbn [negb]; [intros _; exact (A eq_refl)|discriminate].
Qed.

Lemma acquire_all_address (pss : list Pass) : forall g : Globals,
  (bmeReady g = true -> configured_address cfg g) ->
  bmeReady (snd (acquire_all cfg pss g)) = true ->
  configured_address cfg (snd (acquire_all cfg pss g)).
Proof.
  induction pss as [|ps pss IH]; intros g J; [exact J|].
  cbn [acquire_all].
  pose proof (acquire_after_retry ps g) as (A1 & A2 & _).
  pose proof (bme_retry_address ps g (rawSdsDebugWindow cfg ps g 0) J) as R.
  destruct (acquire cfg ps g) as [g1 rd]. cbn [fst] in *.
  specialize (IH g1). destruct (acquire_all cfg pss g1) as [rds g2].
  cbn [snd] in *. apply IH. intros H1.
  unfold configured_address in *. rewrite A2. apply R. congruence.
Qed.

(** From [setup] on, whenever the BME680 counts as ready the address in
    use is one of the two configured addresses and is not 0: address 0 is
    never probed, and the address is only written on a successful probe. *)
Theorem bme_address_is_configured (ps0 : Pass) (pss : list Pass) :
  bmeReady (snd (acquire_all cfg pss (setup_globals cfg ps0 (boot_globals cfg)))) = true ->
  bmeAddrInUse (snd (acquire_all cfg pss (setup_globals cfg ps0 (boot_globals cfg)))) <> 0
  /\ (bmeAddrInUse (snd (acquire_all cfg pss (setup_globals cfg ps0 (boot_globals cfg))))
      = BME680_I2C_ADDR cfg
      \/ bmeAddrInUse (snd (acquire_all cfg pss (setup_globals cfg ps0 (boot_globals cfg))))
         = BME680_I2C_ADDR_ALT cfg).
Proof.
  apply acquire_all_address. apply setup_globals_address.
Qed.

(** *** The no-frame hint *)

Lemma same_hint_bme_retry (ps : Pass) (g : Globals) (k : nat) :
  sdsHintShown (fst (bme_retry cfg ps g k)) = sdsHintShown g
  /\ sdsWarmupUntil (fst (bme_retry cfg ps g k)) = sdsWarmupUntil g
  /\ sdsNoFrameHintAt (fst (bme_retry cfg ps g k)) = sdsNoFrameHintAt g.
Proof.
  unfold bme_retry, millis.
  destruct (negb (bmeReady g)); [|now repeat split].
  destruct (_ >=? _); [|now repeat split].
  destruct (initBME cfg ps g) as [ready addr].
  destruct (negb ready); now repeat split.
Qed.

Lemma same_hint_bme_read (ps : Pass) (g : Globals) (k : nat) :
  sdsHintShown (fst (fst (fst (bme_read ps g k)))) = sdsHintShown g
  /\ sdsWarmupUntil (fst (fst (fst (bme_read ps g k)))) = sdsWarmupUntil g
  /\ sdsNoFrameHintAt (fst (fst (fst (bme_read ps g k)))) = sdsNoFrameHintAt g.
Proof.
  destruct (LoopFacts.bme_read_cases ps g k)
    as [(k' & E)|(te & hu & pr & ga & k' & _ & E)]; rewrite E; now repeat split.
Qed.

Lemma same_hint_geiger_step (ps : Pass) (g : Globals) (k : nat) :
  sdsHintShown (fst (fst (fst (geiger_step cfg ps g k)))) = sdsHintShown g.
Proof.
  destruct (LoopFacts.geiger_step_cases cfg ps g k) as [(now & k' & E)|(k' & E)];
    rewrite E; reflexivity.
Qed.

Lemma sds_step_hint (ps : Pass) (g : Globals) (k : nat) :
  let r := SDS.readSDS (sds_window ps) (sds_rx ps) 0 0 in
  snd (fst (sds_step cfg ps g k)) = SDS.sds_ok r
  /\ (SDS.sds_ok r = true ->
      sdsHintShown (fst (fst (fst (sds_step cfg ps g k)))) = false)
  /\ (SDS.sds_ok r = false -> sdsHintShown g = true ->
      sdsHintShown (fst (fst (fst (sds_step cfg ps g k)))) = true)
  /\ (SDS.sds_ok r = false ->
      (forall i, wrap32 (millis_at ps i) < sdsWarmupUntil g) ->
      sdsHintShown (fst (fst (fst (sds_step cfg ps g k)))) = sdsHintShown g).
Proof.
  intros r. unfold sds_step, millis. fold r.
  destruct (SDS.sds_ok r).
  - cbn. repeat split; try reflexivity; discriminate.
  - destruct (Z.ltb_spec (wrap32 (millis_at ps k)) (sdsWarmupUntil g)) as [Hw|Hw].
    + cbn. repeat split; try reflexivity; try discriminate; auto.
    + split; [|split; [discriminate|split]].
      * destruct (negb (sdsHintShown g)); [destruct (_ >? _)|]; reflexivity.
      * intros _ Hs. rewrite Hs. cbn. exact Hs.
      * intros _ Hwarm. specialize (Hwarm k). lia.
Qed.

(** The no-frame hint is latched.  A pass whose frame read succeeds clears
    [sdsHintShown]; passes whose read fails never clear it, so between two
    good frames the hint is raised at most once; and it is not raised by a
    pass whose clock readings all lie before the end of the warm-up. *)
Theorem sds_hint_is_latched :
  (forall (ps : Pass) (g : Globals),
      got_sds (snd (acquire cfg ps g)) = true ->
      sdsHintShown (fst (acquire cfg ps g)) = false)
  /\ (forall (pss : list Pass) (g : Globals),
        none_yet got_sds (fst (acquire_all cfg pss g)) = true ->
        sdsHintShown g = true ->
        sdsHintShown (snd (acquire_all cfg pss g)) = true)
  /\ (forall (ps : Pass) (g : Globals),
        got_sds (snd (acquire cfg ps g)) = false ->
        (forall i, wrap32 (millis_at ps i) < sdsWarmupUntil g) ->
        sdsHintShown (fst (acquire cfg ps g)) = sdsHintShown g).
Proof.
  assert (Hpass : forall (ps : Pass) (g : Globals),
             (got_sds (snd (acquire cfg ps g)) = true ->
              sdsHintShown (fst (acquire cfg ps g)) = false)
             /\ (got_sds (snd (acquire cfg ps g)) = false ->
                 sdsHintShown g = true ->
                 sdsHintShown (fst (acquire cfg ps g)) = true)
             /\ (got_sds (snd (acquire cfg ps g)) = false ->
                 (forall i, wrap32 (millis_at ps i) < sdsWarmupUntil g) ->
                 sdsHintShown (fst (acquire cfg ps g)) = sdsHintShown g)).
  { intros ps g. unfold acquire.
    pose proof (same_hint_bme_retry ps g (rawSdsDebugWindow cfg ps g 0)) as (A1 & A2 & _).
    destruct (bme_retry cfg ps g _) as [g1 k1]. cbn [fst] in A1, A2.
    pose proof (same_hint_bme_read ps g1 k1) as (B1 & B2 & _).
    destruct (bme_read ps g1 k1) as [[[g2 [[[te hu] pr] ga]] b2] k2].
    cbn [fst] in B1, B2.
    pose proof (sds_step_hint ps g2 k2) as (C0 & C1 & C2 & C3).
    destruct (sds_step cfg ps g2 k2) as [[[g3 [p25 p10]] b3] k3].
    cbn [fst snd] in C0, C1, C2, C3.
    pose proof (same_hint_geiger_step ps g3 k3) as D1.
    destruct (geiger_step cfg ps g3 k3) as [[[g4 r] b4] k4].
    cbn [fst snd got_sds] in *. rewrite D1, C0.
    split; [exact C1|]. split.
    - intros Hf Hs. apply C2; [exact Hf|congruence].
    - intros Hf Hwarm. rewrite C3; [congruence|exact Hf|].
      intros i. rewrite B2, A2. apply Hwarm. }
  split; [intros ps g; apply Hpass|]. split; [|intros ps g; apply Hpass].
  induction pss as [|ps pss IH]; intros g; [trivial|].
  cbn [acquire_all].
  destruct (Hpass ps g) as (_ & H2 & _).
  destruct (acquire cfg ps g) as [g1 rd]. cbn [fst snd] in H2.
  specialize (IH g1). destruct (acquire_all cfg pss g1) as [rds g2].
  cbn [fst snd] in *. unfold none_yet in *. cbn [forallb].
  intros H Hs. apply andb_prop in H as [Hrd H]. apply negb_true_iff in Hrd.
  apply IH; [exact H|]. now apply H2.
Qed.

(** *** Ranges *)

Lemma dose_rate_nonneg (pulses : Z) :
  0 < GEIGER_WINDOW_MS cfg -> (0 < GEIGER_CPM_PER_USVH cfg)%Q -> 0 <= pulses ->
  (0 <= dose_rate cfg pulses)%Q.
Proof.
  intros HW HC Hp. unfold dose_rate, Qdiv.
  apply Qmult_le_0_compat; [|apply Qinv_le_0_compat, Qlt_le_weak, HC].
  apply Qmult_le_0_compat.
  - apply Qmult_le_0_compat; [|discriminate].
    unfold Qle, inject_Z. cbn. lia.
  - apply Qinv_le_0_compat. unfold Qle, inject_Z. cbn. lia.
Qed.

Lemma readSDS_range (window : nat) (rx : list byte) (p q : Q) :
  SDS.sds_ok (SDS.readSDS window rx p q) = true ->
  (0 <= SDS.sds_pm25 (SDS.readSDS window rx p q) <= 6553.5)%Q
  /\ (0 <= SDS.sds_pm10 (SDS.readSDS window rx p q) <= 6553.5)%Q.
Proof.
  intros Hok.
  destruct (DecoderFacts.readSDS_sound _ _ _ _ Hok) as (pre & frame & _ & _ & H25 & H10).
  rewrite H25, H10. unfold SDS.frame_pm25, SDS.frame_pm10.
  split; apply DecoderFacts.tenth_range, DecoderFacts.le16_range.
Qed.

Lemma acquire_in_range (ps : Pass) (g : Globals) :
  0 < GEIGER_WINDOW_MS cfg -> (0 < GEIGER_CPM_PER_USVH cfg)%Q ->
  in_range g ->
  in_range (fst (acquire cfg ps g))
  /\ (0 <= r_pm25 (snd (acquire cfg ps g)) <= 6553.5)%Q
  /\ (0 <= r_radiation (snd (acquire cfg ps g)))%Q.
Proof.
  intros HW HC (I25 & I10 & Irad & Ipulses).
  pose proof (LoopFacts.acquire_acquired_at cfg ps g) as A.
  destruct (acquire cfg ps g) as [g' rd]. cbn [fst snd] in *.
  destruct A as [Aflag A25 A10 A25l _ _ _ Aclosed Aopen Aradl].
  pose proof (GeigerFacts.edges_range (isr_edges ps) (geigerPulses g) Ipulses) as He.
  assert (H25 : (0 <= r_pm25 rd <= 6553.5)%Q).
  { rewrite A25. destruct (got_sds rd); [|exact I25].
    now apply readSDS_range. }
  assert (H10 : (0 <= lastPm10 g' <= 6553.5)%Q).
  { rewrite A10. destruct (got_sds rd); [|exact I10].
    now apply readSDS_range. }
  assert (Hrad : (0 <= r_radiation rd)%Q /\ 0 <= geigerPulses g' < 4294967296).
  { destruct (closed_window rd).
    - destruct (Aclosed eq_refl) as [-> ->].
      split; [apply dose_rate_nonneg; [assumption|assumption|lia] | lia].
    - destruct (Aopen eq_refl) as [-> ->]. now split. }
  destruct Hrad as [Hrad Hp].
  split; [|now split].
  unfold in_range. rewrite A25l, Aradl. now repeat split.
Qed.

Lemma acquire_all_in_range (pss : list Pass) : forall g : Globals,
  0 < GEIGER_WINDOW_MS cfg -> (0 < GEIGER_CPM_PER_USVH cfg)%Q ->
  in_range g -> in_range (snd (acquire_all cfg pss g)).
Proof.
  induction pss as [|ps pss IH]; intros g HW HC I; [exact I|].
  cbn [acquire_all].
  destruct (acquire_in_range ps g HW HC I) as (I1 & _).
  destruct (acquire cfg ps g) as [g1 rd]. cbn [fst] in *.
  specialize (IH g1 HW HC I1). now destruct (acquire_all cfg pss g1).
Qed.

Lemma setup_in_range (ps : Pass) : in_range (setup_globals cfg ps (boot_globals cfg)).
Proof.
  unfold in_range, setup_globals, millis.
  destruct (initBME cfg ps _) as [ready addr].
  destruct (negb ready); cbn; repeat split; try discriminate; lia.
Qed.

(** From [setup] on, whatever the sensors deliver, every pass hands
    [postReading] a PM2.5 value between 0 and 6553.5 and a dose rate that is
    not negative, provided the window length and the conversion factor of
    the configuration are positive. *)
Theorem readings_stay_in_range (ps0 : Pass) (pss : list Pass) (ps : Pass) :
  0 < GEIGER_WINDOW_MS cfg -> (0 < GEIGER_CPM_PER_USVH cfg)%Q ->
  (0 <= r_pm25 (snd (acquire cfg ps
                       (snd (acquire_all cfg pss
                               (setup_globals cfg ps0 (boot_globals cfg))))))
   <= 6553.5)%Q
  /\ (0 <= r_radiation (snd (acquire cfg ps
                               (snd (acquire_all cfg pss
                                       (setup_globals cfg ps0 (boot_globals cfg)))))))%Q.
Proof.
  intros HW HC.
  apply acquire_in_range; [assumption|assumption|].
  apply acquire_all_in_range; [assumption|assumption|]. apply setup_in_range.
Qed.

(** *** Pulses between window closes *)

(** No pulse is dropped between two window closes: the dose rate of a
    closed window is computed from all handler runs since the previous
    close, those of the passes that left the window open included (modulo
    [2^32]), and the counter then restarts at 0. *)
Theorem pulses_accumulate_across_passes (pss : list Pass) (ps : Pass) (g : Globals) :
  0 <= geigerPulses g < 4294967296 ->
  none_yet closed_window (fst (acquire_all cfg pss g)) = true ->
  closed_window (snd (acquire cfg ps (snd (acquire_all cfg pss g)))) = true ->
  r_radiation (snd (acquire cfg ps (snd (acquire_all cfg pss g))))
  = dose_rate cfg (wrap32 (geigerPulses g + total_edges (pss ++ [ps])))
  /\ geigerPulses (fst (acquire cfg ps (snd (acquire_all cfg pss g)))) = 0.
Proof.
  intros Hr Hopen Hclosed.
  pose proof (LoopFacts.acquire_all_open_pulses cfg pss g Hr Hopen) as Hp.
  pose proof (LoopFacts.acquire_acquired_at cfg ps (snd (acquire_all cfg pss g))) as A.
  destruct (a_closed _ _ _ _ _ A Hclosed) as [Hrad Hzero].
  split; [|exact Hzero].
  rewrite Hrad, Hp.
  rewrite GeigerFacts.edges_count by apply GeigerFacts.wrap32_range.
  rewrite LoopFacts.wrap32_add_l, LoopFacts.total_edges_app.
  change (total_edges [ps]) with (Z.of_N (isr_edges ps) + 0).
  do 2 f_equal. lia.
Qed.

End Steps.

Section Sketch.

Variable ncfg : Net.Config.
Variable env : Net.Env.
Variable cfg : Settings.


(** With the link up for good, any number of passes complete. *)
Lemma passes_return (N : nat) :
  NetObs.up_from env N ->
  forall (pss : list Pass) (g : Globals) (w : Net.World R),
    exists g' w', passes ncfg env cfg N pss g w = Some (g', w').
Proof.
  intros Hup pss.
  induction pss as [|ps pss IH]; intros g w; [now exists g, w|].
  cbn [passes]. unfold loop, post. destruct (acquire cfg ps g) as [g1 rd].
  destruct (TransportFacts.postReading_returns R ncfg env N
              (Q2R (r_radiation rd)) (Q2R (r_pm25 rd)) (Q2R (r_tempC rd))
              (Q2R (r_hum rd)) (Q2R (r_press rd))
              (Voc.gasToVoc (Q2R (r_gas rd))) w Hup) as (b & w2 & E1).
  rewrite E1. cbn. apply IH.
Qed.


(** The loop runs only on a connected link.  While every status poll finds
    the link down, neither [setup] nor a pass of [loop] ever returns,
    however many reconnection rounds are allowed: [setup] does not get past
    [connectWiFi], so the SDS011 port and the BME680 are not initialised,
    and a pass under way sends nothing and is followed by no other.  Once
    the link is up for good, [setup] and any number of passes complete. *)
Theorem loop_runs_on_a_connected_link :
  (forall (fuel : nat) (ps : Pass) (g : Globals) (w : Net.World R),
      NetObs.down_from env (Net.polls w) ->
      setup ncfg env cfg fuel ps w = None
      /\ loop ncfg env cfg fuel ps g w = None)
  /\ (forall (N : nat) (ps0 : Pass) (pss : list Pass) (w : Net.World R),
        NetObs.up_from env N ->
        exists fuel g0 w0 g' w',
          setup ncfg env cfg fuel ps0 w = Some (g0, w0)
          /\ passes ncfg env cfg fuel pss g0 w0 = Some (g', w')).
Proof.
  split.
  - intros fuel ps g w Hdown. split.
    + unfold setup. now rewrite NetFacts.connectWiFi_down.
    + unfold loop, post. destruct (acquire cfg ps g) as [g1 rd].
      now rewrite TransportFacts.postReading_blocks.
  - intros N ps0 pss w Hup. exists (S N).
    assert (Hup' : NetObs.up_from env (S N))
      by (intros i Hi; apply Hup; lia).
    destruct (NetFacts.connectWiFi_returns R ncfg env N N w Hup ltac:(lia))
      as (w0 & E0).
    unfold setup. rewrite E0. do 2 eexists.
    destruct (passes_return (S N) Hup' pss
                (setup_globals cfg ps0 (boot_globals cfg)) w0) as (g' & w' & E).
    exists g', w'. split; [reflexivity|exact E].
Qed.

End Sketch.

Lemma geiger_window_measures_elapsed_time_witness :
  snd (fst (geiger_step LoopDemo.demo_settings MoreDemo.wrapped_pass
              MoreDemo.near_wrap 0))
  = (4294970000 - 4294960000 >=? GEIGER_WINDOW_MS LoopDemo.demo_settings)
  /\ geigerWindowStart
       (fst (fst (fst (geiger_step LoopDemo.demo_settings MoreDemo.wrapped_pass
                         MoreDemo.near_wrap 0))))
     = wrap32 (if 4294970000 - 4294960000 >=? GEIGER_WINDOW_MS LoopDemo.demo_settings
               then 4294970000 else 4294960000).
Proof.
  apply (geiger_window_measures_elapsed_time LoopDemo.demo_settings
           MoreDemo.wrapped_pass MoreDemo.near_wrap 0 4294960000 4294970000);
    try reflexivity; lia.
Defined.

Lemma pulses_accumulate_across_passes_witness :
  r_radiation
    (snd (acquire LoopDemo.demo_settings (LoopDemo.quiet_pass 21000 [] 3)
            (snd (acquire_all LoopDemo.demo_settings
                    [LoopDemo.quiet_pass 5000 [] 2; LoopDemo.quiet_pass 7000 [] 4]
                    LoopDemo.after_setup))))
  = dose_rate LoopDemo.demo_settings
      (wrap32 (geigerPulses LoopDemo.after_setup
               + total_edges ([LoopDemo.quiet_pass 5000 [] 2;
                               LoopDemo.quiet_pass 7000 [] 4]
                              ++ [LoopDemo.quiet_pass 21000 [] 3])))
  /\ geigerPulses
       (fst (acquire LoopDemo.demo_settings (LoopDemo.quiet_pass 21000 [] 3)
               (snd (acquire_all LoopDemo.demo_settings
                       [LoopDemo.quiet_pass 5000 [] 2; LoopDemo.quiet_pass 7000 [] 4]
                       LoopDemo.after_setup)))) = 0.
Proof.
  apply (pulses_accumulate_across_passes LoopDemo.demo_settings
           [LoopDemo.quiet_pass 5000 [] 2; LoopDemo.quiet_pass 7000 [] 4]
           (LoopDemo.quiet_pass 21000 [] 3) LoopDemo.after_setup);
    [vm_compute; split; [discriminate|reflexivity] | reflexivity | reflexivity].
Defined.

Lemma bme_init_retry_is_throttled_witness :
  (bmeReady (fst (acquire LoopDemo.demo_settings (LoopDemo.bme_pass 5000 1)
                    LoopDemo.after_setup)) = false
   /\ bmeRetryAt (fst (acquire LoopDemo.demo_settings (LoopDemo.bme_pass 5000 1)
                         LoopDemo.after_setup))
      = bmeRetryAt LoopDemo.after_setup
   /\ bmeAddrInUse (fst (acquire LoopDemo.demo_settings (LoopDemo.bme_pass 5000 1)
                           LoopDemo.after_setup))
      = bmeAddrInUse LoopDemo.after_setup
   /\ got_bme (snd (acquire LoopDemo.demo_settings (LoopDemo.bme_pass 5000 1)
                      LoopDemo.after_setup)) = false)
  /\ (bmeReady (fst (acquire LoopDemo.demo_settings (LoopDemo.quiet_pass 21000 [] 1)
                       LoopDemo.after_setup)) = false
      /\ (exists k,
             bmeRetryAt (fst (acquire LoopDemo.demo_settings
                                (LoopDemo.quiet_pass 21000 [] 1) LoopDemo.after_setup))
             = wrap32 (wrap32 (millis_at (LoopDemo.quiet_pass 21000 [] 1) k) + 10000))
      /\ bmeAddrInUse (fst (acquire LoopDemo.demo_settings
                              (LoopDemo.quiet_pass 21000 [] 1) LoopDemo.after_setup))
         = bmeAddrInUse LoopDemo.after_setup
      /\ got_bme (snd (acquire LoopDemo.demo_settings (LoopDemo.quiet_pass 21000 [] 1)
                         LoopDemo.after_setup)) = false).
Proof.
  split.
  - apply (proj1 (bme_init_retry_is_throttled LoopDemo.demo_settings
                    (LoopDemo.bme_pass 5000 1) LoopDemo.after_setup eq_refl)).
    intros k. vm_compute. reflexivity.
  - apply (proj2 (bme_init_retry_is_throttled LoopDemo.demo_settings
                    (LoopDemo.quiet_pass 21000 [] 1) LoopDemo.after_setup eq_refl)).
    + intros k. vm_compute. discriminate.
    + intros addr. reflexivity.
Defined.

Lemma sds_hint_is_latched_witness :
  sdsHintShown (fst (acquire LoopDemo.demo_settings
                       (LoopDemo.quiet_pass 130000 SDSDemo.sample_frame 1)
                       MoreDemo.hinted_globals)) = false
  /\ sdsHintShown (snd (acquire_all LoopDemo.demo_settings
                          [LoopDemo.quiet_pass 120000 [] 1;
                           LoopDemo.quiet_pass 125000 SDSDemo.corrupt_frame 1]
                          MoreDemo.hinted_globals)) = true
  /\ sdsHintShown (fst (acquire LoopDemo.demo_settings (LoopDemo.quiet_pass 5000 [] 1)
                          LoopDemo.after_setup))
     = sdsHintShown LoopDemo.after_setup.
Proof.
  destruct (sds_hint_is_latched LoopDemo.demo_settings) as (H1 & H2 & H3).
  split; [apply H1; reflexivity|].
  split; [apply H2; reflexivity|].
  apply H3; [reflexivity|]. intros i. vm_compute. reflexivity.
Defined.

Lemma bme_ready_is_never_revoked_witness :
  bmeReady (snd (acquire_all LoopDemo.demo_settings
                   [LoopDemo.quiet_pass 40000 [] 1; LoopDemo.bme_pass 55000 2]
                   MoreDemo.ready_globals)) = true
  /\ bmeAddrInUse (snd (acquire_all LoopDemo.demo_settings
                          [LoopDemo.quiet_pass 40000 [] 1; LoopDemo.bme_pass 55000 2]
                          MoreDemo.ready_globals))
     = bmeAddrInUse MoreDemo.ready_globals
  /\ bmeWarmupUntil (snd (acquire_all LoopDemo.demo_settings
                            [LoopDemo.quiet_pass 40000 [] 1; LoopDemo.bme_pass 55000 2]
                            MoreDemo.ready_globals))
     = bmeWarmupUntil MoreDemo.ready_globals.
Proof.
  apply (bme_ready_is_never_revoked LoopDemo.demo_settings
           [LoopDemo.quiet_pass 40000 [] 1; LoopDemo.bme_pass 55000 2]
           MoreDemo.ready_globals).
  reflexivity.
Defined.

Lemma bme_address_is_configured_witness :
  bmeAddrInUse (snd (acquire_all LoopDemo.demo_settings
                       [LoopDemo.quiet_pass 5000 [] 1; LoopDemo.bme_pass 21000 2]
                       (setup_globals LoopDemo.demo_settings
                          (LoopDemo.quiet_pass 200 [] 0)
                          (boot_globals LoopDemo.demo_settings)))) <> 0
  /\ (bmeAddrInUse (snd (acquire_all LoopDemo.demo_settings
                           [LoopDemo.quiet_pass 5000 [] 1; LoopDemo.bme_pass 21000 2]
                           (setup_globals LoopDemo.demo_settings
                              (LoopDemo.quiet_pass 200 [] 0)
                              (boot_globals LoopDemo.demo_settings))))
      = BME680_I2C_ADDR LoopDemo.demo_settings
      \/ bmeAddrInUse (snd (acquire_all LoopDemo.demo_settings
                              [LoopDemo.quiet_pass 5000 [] 1; LoopDemo.bme_pass 21000 2]
                              (setup_globals LoopDemo.demo_settings
                                 (LoopDemo.quiet_pass 200 [] 0)
                                 (boot_globals LoopDemo.demo_settings))))
         = BME680_I2C_ADDR_ALT LoopDemo.demo_settings).
Proof.
  apply (bme_address_is_configured LoopDemo.demo_settings
           (LoopDemo.quiet_pass 200 [] 0)
           [LoopDemo.quiet_pass 5000 [] 1; LoopDemo.bme_pass 21000 2]).
  reflexivity.
Defined.

Lemma readings_stay_in_range_witness :
  (0 <= r_pm25 (snd (acquire LoopDemo.demo_settings
                       (LoopDemo.quiet_pass 21000 SDSDemo.sample_frame 3)
                       (snd (acquire_all LoopDemo.demo_settings
                               [LoopDemo.quiet_pass 5000 [] 2]
                               (setup_globals LoopDemo.demo_settings
                                  (LoopDemo.quiet_pass 200 [] 0)
                                  (boot_globals LoopDemo.demo_settings))))))
   <= 6553.5)%Q
  /\ (0 <= r_radiation (snd (acquire LoopDemo.demo_settings
                               (LoopDemo.quiet_pass 21000 SDSDemo.sample_frame 3)
                               (snd (acquire_all LoopDemo.demo_settings
                                       [LoopDemo.quiet_pass 5000 [] 2]
                                       (setup_globals LoopDemo.demo_settings
                                          (LoopDemo.quiet_pass 200 [] 0)
                                          (boot_globals LoopDemo.demo_settings)))))))%Q.
Proof.
  apply (readings_stay_in_range LoopDemo.demo_settings
           (LoopDemo.quiet_pass 200 [] 0) [LoopDemo.quiet_pass 5000 [] 2]
           (LoopDemo.quiet_pass 21000 SDSDemo.sample_frame 3));
    reflexivity.
Defined.


Lemma loop_runs_on_a_connected_link_witness :
  (setup NetDemo.demo_cfg NetDemo.env_link_down LoopDemo.demo_settings 9
     (LoopDemo.quiet_pass 21000 [] 3) LoopDemo.boot_world = None
   /\ loop NetDemo.demo_cfg NetDemo.env_link_down LoopDemo.demo_settings 9
        (LoopDemo.quiet_pass 21000 [] 3) LoopDemo.after_setup LoopDemo.boot_world
      = None)
  /\ exists fuel g0 w0 g' w',
       setup NetDemo.demo_cfg NetDemo.env_link_late LoopDemo.demo_settings fuel
         (LoopDemo.quiet_pass 200 [] 0) LoopDemo.boot_world = Some (g0, w0)
       /\ passes NetDemo.demo_cfg NetDemo.env_link_late LoopDemo.demo_settings fuel
            [LoopDemo.quiet_pass 21000 [] 3] g0 w0 = Some (g', w').
Proof.
  split.
  - apply (proj1 (loop_runs_on_a_connected_link NetDemo.demo_cfg NetDemo.env_link_down
                    LoopDemo.demo_settings)).
    intros i _. reflexivity.
  - apply (proj2 (loop_runs_on_a_connected_link NetDemo.demo_cfg NetDemo.env_link_late
                    LoopDemo.demo_settings) 50%nat).
    intros i Hi. change (Nat.leb 50 i = true). now apply Nat.leb_le.
Defined.

End LoopInvariants.


(** ** The I2C bus scan *)

Module BusFacts.
Import Bus.

Lemma scan_from_spec (endTransmission : Z -> Z) (todo : nat) :
  forall addr count : Z,
    0 < addr -> addr + Z.of_nat todo = 127 ->
    0 <= count -> count + Z.of_nat todo <= 126 + 1 ->
    scan_from endTransmission todo addr count
    = (map ScanFound
         (answering endTransmission (map Z.of_nat (seq (Z.to_nat addr) todo))),
       count
       + Z.of_nat (List.length
                     (answering endTransmission
                        (map Z.of_nat (seq (Z.to_nat addr) todo))))).
Proof.
  induction todo as [|todo IH]; intros addr count Ha Hend Hc Hroom.
  - cbn. now rewrite Z.add_0_r.
  - cbn [scan_from seq map answering filter].
    rewrite Z2Nat.id by lia.
    assert (Hnext : wrap8 (addr + 1) = addr + 1)
      by (unfold wrap8; apply Z.mod_small; lia).
    assert (Hseq : S (Z.to_nat addr) = Z.to_nat (addr + 1)) by lia.
    rewrite Hnext, Hseq.
    pose proof (filter_length_le (fun a => endTransmission a =? 0)
                  (map Z.of_nat (seq (Z.to_nat (addr + 1)) todo))) as Hle.
    rewrite length_map, length_seq in Hle.
    destruct (endTransmission addr =? 0).
    + assert (Hcount : wrap8 (count + 1) = count + 1)
        by (unfold wrap8; apply Z.mod_small; lia).
      rewrite Hcount, IH by lia.
      fold (answering endTransmission (map Z.of_nat (seq (Z.to_nat (addr + 1)) todo))).
      cbn [map List.length]. f_equal. lia.
    + rewrite IH by lia. reflexivity.
Qed.

(** [i2cScan] reports exactly the addresses from 1 to 126 that acknowledge,
    in ascending order and each once; addresses 0 and 127 are not probed;
    and it prints that no device was found exactly when none of the 126
    acknowledges (the [byte] counter cannot wrap). *)
Theorem i2cScan_reports_answering_addresses (endTransmission : Z -> Z) :
  i2cScan endTransmission
  = ScanStart
    :: map ScanFound (answering endTransmission scanned)
    ++ (match answering endTransmission scanned with
        | [] => [ScanNone]
        | _ :: _ => []
        end).
Proof.
  unfold i2cScan, scanned.
  rewrite (scan_from_spec endTransmission 126 1 0) by lia.
  change (Z.to_nat 1) with 1%nat.
  destruct (answering endTransmission (map Z.of_nat (seq 1 126))) as [|a l];
    [reflexivity|].
  replace (0 + Z.of_nat (List.length (a :: l)) =? 0) with false; [reflexivity|].
  symmetry. apply Z.eqb_neq. cbn [List.length]. lia.
Qed.

Lemma i2cScan_reports_answering_addresses_witness :
  i2cScan two_devices = [ScanStart; ScanFound 0x3C; ScanFound 0x77].
Proof. rewrite i2cScan_reports_answering_addresses. reflexivity. Defined.

End BusFacts.
